(** * NFL running-back pipeline: extraction, normalisation, tier ranking

    A shallow embedding of the scripts of the pipeline

    - [RB_gamelog.py]              ([Module Roster]),
    - [starting_rbs_gamelog.py]    ([Module GameLog]),
    - [compare_rb_vs_defenses.py]  ([Module Compare]),
    - [starting_rbs.py]            ([Module DepthChart]),
    - [csvs_to_sqlite.py]          ([Module Sqlite]),
    - [defenses.py]                ([Module Defense]),

    together with the Python built-ins they rely on ([Module Py]).

    Conventions.  Text is ASCII text ([string]); an HTML page is given by
    what the scripts read off it (the cell texts of a row, the [href] and
    text of a link); a pandas column with missing values is a list of
    [option]; a Python exception that escapes a function is a [Raise]
    result.  HTTP transport and CSV persistence are outside the model,
    but for the dtype that [pd.read_csv] gives the yards column of the
    defense file. *)

From Stdlib Require Import Ascii String ZArith QArith.
From stdpp Require Import base tactics option list strings gmap sorting.

Local Open Scope string_scope.
Local Open Scope list_scope.
Local Open Scope Z_scope.

(* ===================================================================== *)
(** * Python built-ins used by the scripts                                 *)
(* ===================================================================== *)

Module Py.

(** ** Characters *)

Definition code (c : ascii) : N := N_of_ascii c.

Definition between (lo hi : N) (c : ascii) : bool :=
  ((lo <=? code c) && (code c <=? hi))%N.

(** [str.isspace] on ASCII: TAB..CR, FS..US and the blank. *)
Definition is_space (c : ascii) : bool := between 9 13 c || between 28 32 c.

Definition is_digit (c : ascii) : bool := between 48 57 c.
Definition is_upper (c : ascii) : bool := between 65 90 c.
Definition is_lower (c : ascii) : bool := between 97 122 c.

(** [\w] of the [re] module on ASCII: letters, digits, underscore. *)
Definition is_word (c : ascii) : bool :=
  is_digit c || is_upper c || is_lower c || (code c =? 95)%N.

Definition digit_val (c : ascii) : Z := Z.of_N (code c) - 48.

Definition lower_char (c : ascii) : ascii :=
  if is_upper c then ascii_of_N (code c + 32) else c.

Definition upper_char (c : ascii) : ascii :=
  if is_lower c then ascii_of_N (code c - 32) else c.

Definition eq_char (a b : ascii) : bool := Ascii.eqb a b.

(** ** [str] methods *)

Fixpoint map_chars (f : ascii → ascii) (s : string) : string :=
  match s with
  | EmptyString => EmptyString
  | String c r => String (f c) (map_chars f r)
  end.

(** [s.lower()] and [s.upper()]. *)
Definition lower : string → string := map_chars lower_char.
Definition upper : string → string := map_chars upper_char.

Fixpoint lstrip (s : string) : string :=
  match s with
  | String c r => if is_space c then lstrip r else s
  | EmptyString => EmptyString
  end.

Fixpoint rstrip (s : string) : string :=
  match s with
  | EmptyString => EmptyString
  | String c r =>
      match rstrip r with
      | EmptyString => if is_space c then EmptyString else String c EmptyString
      | r' => String c r'
      end
  end.

(** [s.strip()]. *)
Definition strip (s : string) : string := rstrip (lstrip s).

(** [bool(s)] for a [str]. *)
Definition truthy (s : string) : bool :=
  match s with EmptyString => false | _ => true end.

Fixpoint starts_with (p s : string) : bool :=
  match p, s with
  | EmptyString, _ => true
  | String a p', String b s' => eq_char a b && starts_with p' s'
  | String _ _, EmptyString => false
  end.

(** [s.replace(old, '')] for a non-empty [old]: every occurrence, found
    left to right without overlap, is deleted.  [skip] counts the
    characters of the occurrence being deleted that are still ahead. *)
Fixpoint delete_from (old : string) (skip : nat) (s : string) : string :=
  match s with
  | EmptyString => EmptyString
  | String c r =>
      match skip with
      | S k => delete_from old k r
      | O =>
          if starts_with old s
          then delete_from old (String.length old - 1) r
          else String c (delete_from old O r)
      end
  end.

Definition remove_all (old : string) (s : string) : string :=
  match old with
  | EmptyString => s
  | _ => delete_from old O s
  end.

(** [sub in s]. *)
Fixpoint contains (sub s : string) : bool :=
  starts_with sub s ||
  match s with
  | EmptyString => false
  | String _ r => contains sub r
  end.

(** [s.split()]: the maximal runs of non-blank characters.  [cur] is the
    run being read, kept in reverse. *)
Fixpoint split_from (cur : list ascii) (s : string) : list string :=
  let flush (k : list string) :=
    match cur with
    | [] => k
    | _ => string_of_list_ascii (rev cur) :: k
    end in
  match s with
  | EmptyString => flush []
  | String c r =>
      if is_space c then flush (split_from [] r)
      else split_from (c :: cur) r
  end.

Definition split (s : string) : list string := split_from [] s.

(** [s.isdigit()]. *)
Fixpoint all_digits (s : string) : bool :=
  match s with
  | EmptyString => true
  | String c r => is_digit c && all_digits r
  end.

Definition isdigit (s : string) : bool := truthy s && all_digits s.

(** ** [int(s)] *)

(** Digits after the first one; a single underscore may separate two
    digits.  [us] records that the previous character was an underscore. *)
Fixpoint int_digits (acc : Z) (us : bool) (s : string) : option Z :=
  match s with
  | EmptyString => if us then None else Some acc
  | String c r =>
      if is_digit c then int_digits (10 * acc + digit_val c) false r
      else if eq_char c "_" && negb us then int_digits acc true r
      else None
  end.

Definition int_unsigned (s : string) : option Z :=
  match s with
  | String c r => if is_digit c then int_digits (digit_val c) false r else None
  | EmptyString => None
  end.

(** [int(s)]: [None] stands for [ValueError]. *)
Definition int (s : string) : option Z :=
  match strip s with
  | String "-" r => Z.opp <$> int_unsigned r
  | String "+" r => int_unsigned r
  | t => int_unsigned t
  end.

(** ** [float(s)] *)

(** The value [float] denotes before rounding to binary64: a signed
    decimal [mantissa * 10 ^ exponent], an infinity, or a NaN. *)
Inductive float_lit : Type :=
| FDec (negative : bool) (mantissa : N) (exponent : Z)
| FInf (negative : bool)
| FNan.

(** A group of digits, underscores allowed between two digits.  Returns
    the accumulated value, the number of digits read and the rest. *)
Fixpoint digit_group (acc : N) (n : nat) (s : string) : N * nat * string :=
  match s with
  | String c r =>
      if is_digit c then digit_group (10 * acc + Z.to_N (digit_val c)) (S n) r
      else if eq_char c "_" && negb (Nat.eqb n 0) then
        match r with
        | String c' r' =>
            if is_digit c'
            then digit_group (10 * acc + Z.to_N (digit_val c')) (S n) r'
            else (acc, n, s)
        | EmptyString => (acc, n, s)
        end
      else (acc, n, s)
  | EmptyString => (acc, n, s)
  end.

Definition float_exponent (s : string) : option Z :=
  match s with
  | EmptyString => Some 0
  | String c r =>
      if eq_char (lower_char c) "e" then
        let '(neg, body) :=
          match r with
          | String "-" b => (true, b)
          | String "+" b => (false, b)
          | _ => (false, r)
          end in
        match digit_group 0 0 body with
        | (e, S _, EmptyString) => Some (if neg then - Z.of_N e else Z.of_N e)
        | _ => None
        end
      else None
  end.

Definition float_decimal (neg : bool) (s : string) : option float_lit :=
  let '(m1, n1, r1) := digit_group 0 0 s in
  let '(m2, n2, r2) :=
    match r1 with
    | String "." f => digit_group m1 0 f
    | _ => (m1, O, r1)
    end in
  if Nat.eqb (n1 + n2) 0 then None
  else e ← float_exponent r2; Some (FDec neg m2 (e - Z.of_nat n2)).

Definition float_unsigned (neg : bool) (s : string) : option float_lit :=
  let l := lower s in
  if String.eqb l "inf" || String.eqb l "infinity" then Some (FInf neg)
  else if String.eqb l "nan" then Some FNan
  else float_decimal neg s.

(** [float(s)]: [None] stands for [ValueError]. *)
Definition float (s : string) : option float_lit :=
  match strip s with
  | String "-" r => float_unsigned true r
  | String "+" r => float_unsigned false r
  | t => float_unsigned false t
  end.

(** ** The two regular expressions of the roster script *)

Fixpoint drop_chars (n : nat) (s : string) : string :=
  match n, s with
  | S k, String _ r => drop_chars k r
  | _, _ => s
  end.

(** The longest run of digits at the front of [s]: what [\d+] takes. *)
Fixpoint leading_digits (s : string) : string :=
  match s with
  | String c r => if is_digit c then String c (leading_digits r) else EmptyString
  | EmptyString => EmptyString
  end.

(** [re.compile(r'/player/_/id/(\d+)').search(s)]: group 1 of the
    leftmost match, [None] when nothing matches. *)
Fixpoint search_player_id (s : string) : option string :=
  let here :=
    if starts_with "/player/_/id/" s
    then leading_digits (drop_chars 13 s)
    else EmptyString in
  match here with
  | String _ _ => Some here
  | EmptyString =>
      match s with
      | String _ r => search_player_id r
      | EmptyString => None
      end
  end.

Definition word_boundary_ahead (s : string) : bool :=
  match s with
  | EmptyString => true
  | String c _ => negb (is_word c)
  end.

(** [re.search(r'\bRB\b', s, flags=re.IGNORECASE)] as a truth value.
    [prev] tells whether the character before [s] is a word character. *)
Fixpoint search_rb_from (prev : bool) (s : string) : bool :=
  match s with
  | EmptyString => false
  | String c r =>
      (negb prev && starts_with "rb" (lower s)
       && word_boundary_ahead (drop_chars 2 s))
      || search_rb_from (is_word c) r
  end.

Definition search_rb (s : string) : bool := search_rb_from false s.

(** ** [str.replace] on single characters, and [os.path] *)

(** [s.replace(old, new)] for one-character [old] and [new]. *)
Definition replace_char (old new : ascii) (s : string) : string :=
  map_chars (λ c, if eq_char c old then new else c) s.

(** [c in s] for a character. *)
Fixpoint has_char (c : ascii) (s : string) : bool :=
  match s with
  | EmptyString => false
  | String d r => eq_char d c || has_char c r
  end.

(** [posixpath.basename(p)]: what follows the last slash. *)
Fixpoint basename (p : string) : string :=
  match p with
  | EmptyString => EmptyString
  | String c r =>
      if has_char "/" r then basename r
      else if eq_char c "/" then r
      else p
  end.

(** [posixpath.splitext] on a name without slashes: the extension starts
    at the last dot, unless only dots come before it.  [seen] tells
    whether a character other than a dot has been passed. *)
Fixpoint splitext_from (seen : bool) (f : string) : string * string :=
  match f with
  | EmptyString => (EmptyString, EmptyString)
  | String c r =>
      if eq_char c "." && seen && negb (has_char "." r)
      then (EmptyString, f)
      else
        let '(root, ext) := splitext_from (seen || negb (eq_char c ".")) r in
        (String c root, ext)
  end.

Definition splitext (f : string) : string * string := splitext_from false f.

(** ** Values

    The Python values that occur as dictionary entries and as cells of a
    data frame. *)
Inductive value : Type :=
| VStr (s : string)
| VInt (n : Z)
| VFloat (f : float_lit)
| VBool (b : bool)
| VNone.

(** [bool(v)]. *)
Definition value_truthy (v : value) : bool :=
  match v with
  | VStr s => truthy s
  | VInt n => negb (n =? 0)%Z
  | VFloat (FDec _ m _) => negb (m =? 0)%N
  | VFloat _ => true
  | VBool b => b
  | VNone => false
  end.

(** [isinstance(v, str)]. *)
Definition is_str (v : value) : bool :=
  match v with VStr _ => true | _ => false end.

End Py.

(* ===================================================================== *)
(** * RB_gamelog.py                                                        *)
(* ===================================================================== *)

Module Roster.

(** An [<a>] element of the roster page, by what the script reads off it:
    its [href], its text, the texts of the [<td>] cells of the enclosing
    [<tr>] when there is one, and the text of its next sibling element
    when there is one. *)
Record anchor : Type := Anchor {
  href : string;
  link_text : string;
  parent_tr : option (list string);
  next_sibling : option string
}.

(** A result row. *)
Record entry : Type := Entry {
  team : string;
  player_name : string;
  player_id : string
}.

(** The loop over the cells of the parent row.  [position_text] is the
    variable of that name; finding the word RB ends the loop. *)
Fixpoint scan_cells (position_text : string) (tds : list string) : string :=
  match tds with
  | [] => position_text
  | text :: rest =>
      if Py.truthy text then
        if Py.search_rb text then text
        else
          match Py.split text with
          | tok :: _ =>
              if (String.length tok <=? 3)%nat
              then scan_cells tok rest
              else scan_cells position_text rest
          | [] => scan_cells position_text rest
          end
      else scan_cells position_text rest
  end.

(** The position text found for one link. *)
Definition position_text_of (a : anchor) : string :=
  match parent_tr a with
  | Some tds => scan_cells "" tds
  | None =>
      match next_sibling a with
      | Some sib => sib
      | None => ""
      end
  end.

Definition pos_norm_of (a : anchor) : string :=
  let position_text := position_text_of a in
  if Py.truthy position_text then Py.upper position_text else "".

(** One turn of the loop over the links; the state is [results] and
    [seen_ids]. *)
Definition visit (team_abbrev : string)
    (st : list entry * gset string) (a : anchor) : list entry * gset string :=
  let '(results, seen_ids) := st in
  match Py.search_player_id (href a) with
  | None => st
  | Some player_id =>
      let player_name := link_text a in
      if negb (Py.truthy player_name) then st
      else if decide (player_id ∈ seen_ids) then st
      else if Py.contains "RB" (pos_norm_of a)
      then (results ++ [Entry team_abbrev player_name player_id],
            {[ player_id ]} ∪ seen_ids)
      else st
  end.

(** [soup.find_all('a', href=re.compile(r'/player/_/id/\d+'))], given all
    the [<a>] elements of the page in document order. *)
Definition find_all_player_links (links : list anchor) : list anchor :=
  filter (λ a, is_Some (Py.search_player_id (href a))) links.

Definition fetch_team_roster (team_abbrev : string) (links : list anchor)
  : list entry :=
  (foldl (visit team_abbrev) ([], ∅) (find_all_player_links links)).1.

(** ** The loop over the teams *)

Definition TEAM_ABBREVS : list string :=
  [ "nyg"; "cin"; "buf"; "mia"; "chi"; "wsh"; "atl"; "ten"; "min"; "nyj";
    "car"; "dal"; "no"; "bal"; "phi"; "ari"; "lac"; "sf"; "pit"; "lv";
    "lar"; "cle"; "det"; "kc"; "tb"; "ind"; "gb"; "ne"; "hou"; "sea";
    "den"; "jax" ].

(** [team_abbrevs or TEAM_ABBREVS]: the default stands in for [None] and
    for the empty list alike. *)
Definition teams_or_default (team_abbrevs : option (list string))
  : list string :=
  match team_abbrevs with
  | Some (t :: ts) => t :: ts
  | _ => TEAM_ABBREVS
  end.

(** [scrape_all_teams].  [site] gives, for a team, the links of its roster
    page, or [None] when the request raises; the rows of a team whose
    request raised are left out and the loop goes on. *)
Definition scrape_all_teams (site : string → option (list anchor))
    (team_abbrevs : option (list string)) : list entry :=
  foldl
    (λ all_rows team,
       match site team with
       | Some links => all_rows ++ fetch_team_roster team links
       | None => all_rows
       end)
    []
    (teams_or_default team_abbrevs).

End Roster.

(* ===================================================================== *)
(** * starting_rbs_gamelog.py                                              *)
(* ===================================================================== *)

Module GameLog.

(** [game_data]: a dictionary from column name to value. *)
Abbreviation dict := (gmap string Py.value).

(** One assignment [game_data[key] = ...] inside a [try]: [None] means
    that evaluating the right-hand side raised. *)
Definition stmt : Type := dict → option dict.

(** [try: body except (ValueError, IndexError): pass]: the assignments
    made before the one that raises stay, the later ones are not run. *)
Fixpoint run_try (body : list stmt) (game_data : dict) : dict :=
  match body with
  | [] => game_data
  | s :: rest =>
      match s game_data with
      | Some game_data' => run_try rest game_data'
      | None => game_data
      end
  end.

(** [int(t) if t else None]. *)
Definition int_or_none (t : string) : option Py.value :=
  if Py.truthy t then Py.VInt <$> Py.int t else Some Py.VNone.

(** [float(t) if t else None]. *)
Definition float_or_none (t : string) : option Py.value :=
  if Py.truthy t then Py.VFloat <$> Py.float t else Some Py.VNone.

(** [int(t) if t and t.isdigit() else None]. *)
Definition digits_or_none (t : string) : option Py.value :=
  if Py.truthy t && Py.isdigit t then Py.VInt <$> Py.int t else Some Py.VNone.

(** A column of the positional schema: key, cell index, coercion. *)
Record column : Type := Column {
  col_key : string;
  col_index : nat;
  col_conv : string → option Py.value
}.

(** [game_data[key] = conv(cell_texts[i])]; a missing cell is an
    [IndexError]. *)
Definition assign (cell_texts : list string) (c : column) : stmt :=
  λ game_data,
    t ← cell_texts !! col_index c;
    v ← col_conv c t;
    Some (<[ col_key c := v ]> game_data).

Definition rushing_columns : list column :=
  [ Column "rushing_attempts" 3 int_or_none;
    Column "rushing_yards" 4 int_or_none;
    Column "rushing_avg" 5 float_or_none;
    Column "rushing_td" 6 int_or_none;
    Column "rushing_lng" 7 digits_or_none ].

Definition receiving_columns : list column :=
  [ Column "receiving_receptions" 8 int_or_none;
    Column "receiving_targets" 9 int_or_none;
    Column "receiving_yards" 10 int_or_none ].

(** The dictionary literal that opens a row's [game_data]. *)
Definition game_info (player_id : Z) (player_name team : string)
    (date opponent result : string) : dict :=
  <[ "result" := Py.VStr result ]>
  (<[ "opponent" := Py.VStr opponent ]>
  (<[ "date" := Py.VStr date ]>
  (<[ "team" := Py.VStr team ]>
  (<[ "player_name" := Py.VStr player_name ]>
  (<[ "player_id" := Py.VInt player_id ]> ∅))))).

(** The body of the loop over the rows: [None] when the row is passed
    over ([continue]), the finished [game_data] otherwise.  [cell_texts]
    are the stripped texts of the [<td>] cells of the row. *)
Definition game_row (player_id : Z) (player_name team : string)
    (cell_texts : list string) : option dict :=
  if (length cell_texts <? 8)%nat then None
  else
    date ← cell_texts !! 0%nat;
    opponent ← cell_texts !! 1%nat;
    result ← cell_texts !! 2%nat;
    let game_data :=
      game_info player_id player_name team date opponent result in
    let game_data :=
      if (6 <? length cell_texts)%nat
      then run_try (assign cell_texts <$> rushing_columns) game_data
      else game_data in
    let game_data :=
      if (13 <? length cell_texts)%nat
      then run_try (assign cell_texts <$> receiving_columns) game_data
      else game_data in
    Some game_data.

(** What the request gives: a failure, or the page as its tables, a
    table as its [<tr>] rows, a row as the texts of its [<td>] cells. *)
Inductive response : Type :=
| RequestException
| Page (tables : list (list (list string))).

Definition fetch_player_gamelog (player_id : Z) (player_name team : string)
    (resp : response) : list dict :=
  match resp with
  | RequestException => []
  | Page [] => []
  | Page (table :: _) =>
      omap (game_row player_id player_name team) (drop 2 table)
  end.

(** [None] as a value counts as no value. *)
Definition present (o : option Py.value) : option Py.value :=
  match o with
  | Some Py.VNone => None
  | _ => o
  end.

(** A numeric column as the data frame built from the dictionaries shows
    it: a key that was never set and a key set to [None] are both a
    missing value. *)
Definition field (game_data : dict) (key : string) : option Py.value :=
  present (game_data !! key).

(** ** The loop over the starting running backs *)

(** A row of [data/starting_rbs.csv], with the columns the script reads. *)
Record starter_row : Type := StarterRow {
  sr_player_id : Z;
  sr_player_name : string;
  sr_team : string
}.

(** [scrape_all_starting_rb_gamelogs].  [df] is [None] when the CSV cannot
    be read; [site] gives the response for a player id. *)
Definition scrape_all_starting_rb_gamelogs (df : option (list starter_row))
    (site : Z → response) : list dict :=
  match df with
  | None => []
  | Some rows =>
      foldl
        (λ all_games row,
           all_games ++
           fetch_player_gamelog (sr_player_id row) (sr_player_name row)
             (sr_team row) (site (sr_player_id row)))
        [] rows
  end.

End GameLog.

(* ===================================================================== *)
(** * compare_rb_vs_defenses.py                                            *)
(* ===================================================================== *)

Module Compare.

(** ** Results *)

Inductive exn : Type := ValueError | OverflowError | AttributeError.

(** A call either returns or lets an exception escape. *)
Inductive outcome (A : Type) : Type :=
| Return (a : A)
| Raise (e : exn).
Arguments Return {A} a.
Arguments Raise {A} e.

(** ** The team table *)

Definition TEAM_NAME_TO_ABBREV : gmap string string :=
  list_to_map
    [ ("New York Giants", "nyg"); ("Cincinnati Bengals", "cin");
      ("Buffalo Bills", "buf"); ("Miami Dolphins", "mia");
      ("Chicago Bears", "chi"); ("Washington Commanders", "wsh");
      ("Atlanta Falcons", "atl"); ("Tennessee Titans", "ten");
      ("Minnesota Vikings", "min"); ("New York Jets", "nyj");
      ("Carolina Panthers", "car"); ("Dallas Cowboys", "dal");
      ("New Orleans Saints", "no"); ("Baltimore Ravens", "bal");
      ("Philadelphia Eagles", "phi"); ("Arizona Cardinals", "ari");
      ("Los Angeles Chargers", "lac"); ("San Francisco 49ers", "sf");
      ("Pittsburgh Steelers", "pit"); ("Las Vegas Raiders", "lv");
      ("Los Angeles Rams", "lar"); ("Cleveland Browns", "cle");
      ("Detroit Lions", "det"); ("Kansas City Chiefs", "kc");
      ("Tampa Bay Buccaneers", "tb"); ("Indianapolis Colts", "ind");
      ("Green Bay Packers", "gb"); ("New England Patriots", "ne");
      ("Houston Texans", "hou"); ("Seattle Seahawks", "sea");
      ("Denver Broncos", "den"); ("Jacksonville Jaguars", "jax") ].

(** ** Defense rankings *)

(** A row of [defense_stats.csv]: the cells of the columns ['Team'] and
    ['Rushing Yards (Yds)'], as the texts the file holds. *)
Record def_row : Type := DefRow { Team : string; Rushing_Yards : string }.

(** The dtype that [pd.read_csv] gives the yards column: [int64], on
    which the [.str] accessor raises, or [object], the texts of the
    cells. *)
Inductive dtype : Type := int64 | object.

(** A cell that the parser reads as an integer: a run of digits, of a
    value that fits 64 bits. *)
Definition plain_int64 (s : string) : bool :=
  Py.isdigit s &&
  match Py.int s with
  | Some z => z <? 2 ^ 63
  | None => false
  end.

(** The dtype of the yards column of [pd.read_csv(DEFENSE_STATS)] for
    the two kinds of file this development covers.  A cell with a comma
    is no number, so a column with such a cell is read as texts; a column
    of plain integers is read as integers.  [None]: a column of another
    make-up (decimals, signs, blanks, missing values and no comma, or no
    row at all), whose typing is not modelled. *)
Definition yards_dtype (df_def : list def_row) : option dtype :=
  if decide (Exists (λ r, Py.has_char "," (Rushing_Yards r) = true) df_def)
  then Some object
  else
    match df_def with
    | [] => None
    | _ =>
        if decide (Forall (λ r, plain_int64 (Rushing_Yards r) = true) df_def)
        then Some int64
        else None
    end.

(** The same row once the yards column has been converted. *)
Record ranked_row : Type := Ranked { team_name : string; yards : Z }.

Definition yards_le (a b : ranked_row) : Prop := yards a ≤ yards b.

(** [astype(int)] on one text cell: Python's [int], then the int64 range
    of the column. *)
Definition to_int64 (s : string) : outcome Z :=
  match Py.int s with
  | None => Raise ValueError
  | Some z =>
      if ((- 2 ^ 63 <=? z) && (z <? 2 ^ 63))%Z then Return z
      else Raise OverflowError
  end.

(** One cell of [col.str.replace(',', '').astype(int)]. *)
Definition yards_of (r : def_row) : outcome Z :=
  to_int64 (Py.remove_all "," (Rushing_Yards r)).

(** [col.str.replace(',', '').astype(int)]: the first cell that does not
    convert aborts the whole conversion. *)
Fixpoint convert_yards (df : list def_row) : outcome (list ranked_row) :=
  match df with
  | [] => Return []
  | r :: rest =>
      match yards_of r with
      | Raise e => Raise e
      | Return y =>
          match convert_yards rest with
          | Raise e => Raise e
          | Return rs => Return (Ranked (Team r) y :: rs)
          end
      end
  end.

(** [DataFrame.sort_values(by)] with its default [kind='quicksort'].
    pandas documents the result as the rows in ascending order of the key
    and promises stability for [kind='mergesort'] and [kind='stable']
    only, so the sort is taken through this interface: any function that
    returns the rows rearranged in ascending order. *)
Class SortKind : Type := {
  sort_values : list ranked_row → list ranked_row;
  sort_values_perm : ∀ l, sort_values l ≡ₚ l;
  sort_values_sorted : ∀ l, Sorted yards_le (sort_values l)
}.

(** [df.head(n)] and [df.tail(n)]. *)
Definition head {A} (n : nat) (l : list A) : list A := take n l.
Definition tail {A} (n : nat) (l : list A) : list A := drop (length l - n) l.

(** The frame after the conversion and the sort, for a file whose
    typing is modelled.  On a column of integers [.str] raises
    [AttributeError]; on a column of texts the cells are converted, a cell
    read as a missing value failing like its text does. *)
Definition sorted_frame `{SortKind} (df_def : list def_row)
  : option (outcome (list ranked_row)) :=
  dt ← yards_dtype df_def;
  Some match dt with
       | int64 => Raise AttributeError
       | object =>
           match convert_yards df_def with
           | Raise e => Raise e
           | Return df => Return (sort_values df)
           end
       end.

(** [df['Team'].map(TEAM_NAME_TO_ABBREV)]: a name missing from the table
    gives a missing value (NaN), here [None]. *)
Definition team_abbrev (r : ranked_row) : option string :=
  TEAM_NAME_TO_ABBREV !! team_name r.

Definition load_defense_rankings `{SortKind} (df_def : list def_row)
  : option (outcome (list (option string) * list (option string))) :=
  sorted ← sorted_frame df_def;
  Some match sorted with
       | Raise e => Raise e
       | Return df =>
           let top16_defenses := team_abbrev <$> head 16 df in
           let bottom16_defenses := team_abbrev <$> tail 16 df in
           Return (top16_defenses, bottom16_defenses)
       end.

(** ** Opponent normalisation *)

Definition normalize_opponent_abbrev (opp_string : Py.value) : option string :=
  if negb (Py.value_truthy opp_string) || negb (Py.is_str opp_string) then None
  else
    match opp_string with
    | Py.VStr s =>
        let opp :=
          Py.strip (Py.lower (Py.remove_all "vs" (Py.remove_all "@" s))) in
        if (3 <? String.length opp)%nat then None else Some opp
    | _ => None
    end.

(** ** Matchup aggregation *)

(** A row of the game-log frame, with the columns the analysis reads.
    A missing number (NaN) is [None]. *)
Record game : Type := Game {
  player_name : string;
  team : string;
  opponent : Py.value;
  rushing_attempts : option Z;
  rushing_yards : option Z;
  rushing_td : option Z;
  receiving_receptions : option Z;
  receiving_yards : option Z
}.

(** One output row; the same shape serves both tiers.  [rushing_avg_vs]
    holds the exact quotient that the script then rounds to two places. *)
Record matchup : Type := Matchup {
  m_player_name : string;
  m_team : option string;
  games_vs : nat;
  rushing_yards_vs : Z;
  rushing_attempts_vs : Z;
  rushing_td_vs : Z;
  receiving_yards_vs : Z;
  receiving_receptions_vs : Z;
  rushing_avg_vs : option Q
}.

(** [Series.sum()]: missing values are skipped. *)
Fixpoint column_sum (col : list (option Z)) : Z :=
  match col with
  | [] => 0
  | Some v :: rest => v + column_sum rest
  | None :: rest => column_sum rest
  end.

(** [Series.unique()]: the distinct values in order of first appearance. *)
Fixpoint unique (l : list string) : list string :=
  match l with
  | [] => []
  | x :: rest => x :: filter (λ y, y ≠ x) (unique rest)
  end.

(** The body guarded by [if len(games_vs_...) > 0]. *)
Definition tier_stats (name : string) (team_abbrev : option string)
    (games_vs_tier : list game) : option matchup :=
  match games_vs_tier with
  | [] => None
  | _ =>
      let rushing_yards_sum := column_sum (rushing_yards <$> games_vs_tier) in
      let rushing_attempts_sum :=
        column_sum (rushing_attempts <$> games_vs_tier) in
      Some {|
        m_player_name := name;
        m_team := team_abbrev;
        games_vs := length games_vs_tier;
        rushing_yards_vs := rushing_yards_sum;
        rushing_attempts_vs := rushing_attempts_sum;
        rushing_td_vs := column_sum (rushing_td <$> games_vs_tier);
        receiving_yards_vs := column_sum (receiving_yards <$> games_vs_tier);
        receiving_receptions_vs :=
          column_sum (receiving_receptions <$> games_vs_tier);
        rushing_avg_vs :=
          if (0 <? rushing_attempts_sum)%Z
          then Some (Qmake rushing_yards_sum (Z.to_pos rushing_attempts_sum))
          else None
      |}
  end.

Definition opponent_abbrev (g : game) : option string :=
  normalize_opponent_abbrev (opponent g).

(** One turn of the loop over the players. *)
Definition player_stats (df_games : list game)
    (top16_defenses bottom16_defenses : list (option string))
    (name : string) : option matchup * option matchup :=
  let player_games := filter (λ g, player_name g = name) df_games in
  let player_games := filter (λ g, is_Some (opponent_abbrev g)) player_games in
  let games_vs_top :=
    filter (λ g, opponent_abbrev g ∈ top16_defenses) player_games in
  let games_vs_bottom :=
    filter (λ g, opponent_abbrev g ∈ bottom16_defenses) player_games in
  let team_abbrev := team <$> player_games !! 0%nat in
  (tier_stats name team_abbrev games_vs_top,
   tier_stats name team_abbrev games_vs_bottom).

Definition analyze_rb_vs_defenses (df_games : list game)
    (top16_defenses bottom16_defenses : list (option string))
  : list matchup * list matchup :=
  foldl
    (λ '(results_top, results_bottom) name,
       let '(stats_top, stats_bottom) :=
         player_stats df_games top16_defenses bottom16_defenses name in
       (results_top ++ option_list stats_top,
        results_bottom ++ option_list stats_bottom))
    ([], [])
    (unique (player_name <$> df_games)).

End Compare.

(* ===================================================================== *)
(** * starting_rbs.py                                                      *)
(* ===================================================================== *)

Module DepthChart.

(** An [<a>] element: its [href] and its stripped text. *)
Record link : Type := Link { href : string; link_text : string }.

(** A [<tr>]: its stripped text and its [<a>] elements in document
    order. *)
Record row : Type := Row { row_text : string; row_links : list link }.

(** The page: the tables inside [div.nfl-depth-table], each as its rows,
    or [None] when there is no such [div]. *)
Definition soup : Type := option (list (list row)).

Record player : Type := Player { player_name : string; player_id : string }.

Definition extract_player_from_link (a_tag : option link) : option player :=
  match a_tag with
  | None => None
  | Some a =>
      match Py.search_player_id (href a) with
      | None => None
      | Some player_id =>
          let name := link_text a in
          if negb (Py.truthy name) then None
          else Some (Player name player_id)
      end
  end.

(** The loop that looks for the RB row: the index of the first row whose
    text contains RB.  [i] is the index of the head of [pos_rows]. *)
Fixpoint find_rb_row (i : nat) (pos_rows : list row) : option nat :=
  match pos_rows with
  | [] => None
  | r :: rest =>
      if Py.contains "RB" (row_text r) then Some i
      else find_rb_row (S i) rest
  end.

(** [player_row.find('a', href=PLAYER_ID_RE)]: the first link whose
    [href] matches. *)
Fixpoint find_player_link (links : list link) : option link :=
  match links with
  | [] => None
  | a :: rest =>
      if bool_decide (is_Some (Py.search_player_id (href a))) then Some a
      else find_player_link rest
  end.

Definition extract_starting_rb_from_depth_table (page : soup)
  : option player :=
  match page with
  | None => None
  | Some tables =>
      match tables with
      | pos_table :: player_table :: _ =>
          let pos_rows := drop 1 pos_table in
          let player_rows := drop 1 player_table in
          match find_rb_row 0 pos_rows with
          | None => None
          | Some rb_row_idx =>
              match player_rows !! rb_row_idx with
              | None => None
              | Some player_row =>
                  match find_player_link (row_links player_row) with
                  | None => None
                  | Some a_tag => extract_player_from_link (Some a_tag)
                  end
              end
          end
      | _ => None
      end
  end.

(** What the request for a depth chart gives. *)
Inductive response : Type :=
| RequestException
| Page (page : soup).

(** A row of the result. *)
Record starter : Type := Starter {
  team : string;
  s_player_name : string;
  s_player_id : string;
  depth_rank : string
}.

Definition get_starting_rb_for_team (team_abbrev : string) (resp : response)
  : option starter :=
  match resp with
  | RequestException => None
  | Page page =>
      match extract_starting_rb_from_depth_table page with
      | None => None
      | Some p =>
          Some (Starter team_abbrev (player_name p) (player_id p) "RB1")
      end
  end.

(** [scrape_all_starting_rbs]; [site] gives the response for a team. *)
Definition scrape_all_starting_rbs (site : string → response)
    (team_abbrevs : option (list string)) : list starter :=
  foldl
    (λ rows team,
       match get_starting_rb_for_team team (site team) with
       | Some res => rows ++ [res]
       | None => rows
       end)
    []
    (Roster.teams_or_default team_abbrevs).

End DepthChart.

(* ===================================================================== *)
(** * csvs_to_sqlite.py                                                    *)
(* ===================================================================== *)

Module Sqlite.

Definition csv_to_table_name (path : string) : string :=
  let base := Py.basename path in
  let '(name, ext) := Py.splitext base in
  Py.lower (Py.replace_char "-" "_" (Py.replace_char " " "_" name)).

(** The comprehension that normalises a column name. *)
Definition normalize_column (c : string) : string :=
  Py.remove_all ")"
    (Py.remove_all "(" (Py.remove_all "." (Py.replace_char " " "_" (Py.strip c)))).

End Sqlite.

(* ===================================================================== *)
(** * defenses.py                                                          *)
(* ===================================================================== *)

Module Defense.

(** A value as [json.loads] returns it.  An object carries its members
    as written in the text; the dict built from them keeps, for a name
    written more than once, the place of its first member and the value
    of its last one.  A number with a fraction or an exponent is the
    decimal it is written as. *)
#[warnings="-register-all"] Inductive json : Type :=
| JNull
| JBool (b : bool)
| JInt (n : Z)
| JFloat (f : Py.float_lit)
| JStr (s : string)
| JArr (items : list json)
| JObj (members : list (string * json)).

(** [d[key]] on the dict of an object; [None] is the [KeyError]. *)
Fixpoint lookup_last (key : string) (members : list (string * json))
  : option json :=
  match members with
  | [] => None
  | (k, v) :: rest =>
      match lookup_last key rest with
      | Some v' => Some v'
      | None => if String.eqb k key then Some v else None
      end
  end.

(** [v[key]] with a text key: on a value that is not a dict the
    subscript raises [TypeError], and a dict without the key raises
    [KeyError]; both are [None] here, the function's [except Exception]
    handles them alike. *)
Definition subscript (v : json) (key : string) : option json :=
  match v with
  | JObj members => lookup_last key members
  | _ => None
  end.

(** The keys of the dict of an object, in the order of the dict. *)
Fixpoint keys (members : list (string * json)) : list string :=
  match members with
  | [] => []
  | (k, _) :: rest => k :: filter (λ k', k' ≠ k) (keys rest)
  end.

(** [for x in v]: a list gives its items, a dict its keys, a text its
    characters; the other values are not iterable ([TypeError], [None]
    here). *)
Definition iterate (v : json) : option (list json) :=
  match v with
  | JArr items => Some items
  | JObj members => Some (JStr <$> keys members)
  | JStr s =>
      Some ((λ c, JStr (String c EmptyString)) <$> list_ascii_of_string s)
  | _ => None
  end.

(** Whether the decimal rounds to zero as a binary64 number: it is zero,
    or at most half of the least positive binary64 number, [2 ^ -1074]. *)
Definition float_is_zero (f : Py.float_lit) : bool :=
  match f with
  | Py.FDec _ m e =>
      (m =? 0)%N ||
      (if 0 <=? e then false else Z.of_N m * 2 ^ 1075 <=? 10 ^ (- e))
  | _ => false
  end.

(** [bool(v)]. *)
Definition truthy (v : json) : bool :=
  match v with
  | JNull => false
  | JBool b => b
  | JInt n => negb (n =? 0)
  | JFloat f => negb (float_is_zero f)
  | JStr s => Py.truthy s
  | JArr [] => false
  | JArr _ => true
  | JObj [] => false
  | JObj _ => true
  end.

(** [v == name] for a text [name]. *)
Definition is_name (v : json) (name : string) : bool :=
  match v with
  | JStr s => String.eqb s name
  | _ => false
  end.

(** One turn of the loop over [team_data['stats']], on the pair
    [(rushing_yds, rushing_ypg)]; Python's [None] is [JNull]. *)
Definition stat_step (acc : json * json) (stat : json)
  : option (json * json) :=
  let '(rushing_yds, rushing_ypg) := acc in
  name ← subscript stat "name";
  if is_name name "rushingYards" then
    value ← subscript stat "value"; Some (value, rushing_ypg)
  else if is_name name "rushingYardsPerGame" then
    value ← subscript stat "value"; Some (rushing_yds, value)
  else Some acc.

Fixpoint stat_loop (acc : json * json) (stats : list json)
  : option (json * json) :=
  match stats with
  | [] => Some acc
  | stat :: rest => acc' ← stat_step acc stat; stat_loop acc' rest
  end.

(** A row of the frame, by its three columns. *)
Record row : Type := Row {
  Team : json;
  Rushing_Yards : json;
  Yards_Per_Game : json
}.

(** [v if v else "N/A"]. *)
Definition or_na (v : json) : json := if truthy v then v else JStr "N/A".

(** One turn of the loop over [team_stats]; [None] when an exception
    escapes it. *)
Definition team_row (team_data : json) : option row :=
  team ← subscript team_data "team";
  team_name ← subscript team "displayName";
  stats_value ← subscript team_data "stats";
  stats ← iterate stats_value;
  acc ← stat_loop (JNull, JNull) stats;
  Some (Row team_name (or_na acc.1) (or_na acc.2)).

Fixpoint team_rows (team_stats : list json) : option (list row) :=
  match team_stats with
  | [] => Some []
  | team_data :: rest =>
      r ← team_row team_data; rs ← team_rows rest; Some (r :: rs)
  end.

(** What the request and the search of the page's scripts give: the
    request fails, or the page is read and [team_stats] is the parsed
    array of the first script that holds one, [None] when no script
    does. *)
Inductive response : Type :=
| RequestException
| Page (team_stats : option (list json)).

(** The frame, or [None]. *)
Definition scrape_espn_defense_stats (resp : response) : option (list row) :=
  match resp with
  | RequestException => None
  | Page None => None
  | Page (Some team_stats) => team_rows team_stats
  end.

End Defense.

(* ===================================================================== *)
(** * The built-ins on sample inputs                                       *)
(* ===================================================================== *)

Module PyFacts.

Example int_examples :
  Py.int "15" = Some 15 ∧ Py.int " -1_000 " = Some (-1000) ∧
  Py.int "" = None ∧ Py.int "5.3" = None ∧ Py.int "1__0" = None ∧
  Py.int "12*" = None.
Proof. vm_compute. done. Qed.

Example float_examples :
  Py.float "5.3" = Some (Py.FDec false 53 (-1)) ∧
  Py.float "-1e3" = Some (Py.FDec true 1 3) ∧
  Py.float "." = None ∧ Py.float "--" = None ∧ Py.float "nan" = Some Py.FNan.
Proof. vm_compute. done. Qed.

Example str_examples :
  Py.remove_all "vs" "vsSEA" = "SEA" ∧ Py.remove_all "@" "@K@C" = "KC" ∧
  Py.remove_all "," "1,234,567" = "1234567" ∧
  Py.strip "  a b  " = "a b" ∧ Py.split " RB  23 " = ["RB"; "23"] ∧
  Py.upper "rb/Wr" = "RB/WR" ∧ Py.contains "RB" "HB/RB" = true.
Proof. vm_compute. done. Qed.

Example re_examples :
  Py.search_player_id "https://www.espn.com/nfl/player/_/id/4241457/najee-harris"
  = Some "4241457" ∧
  Py.search_player_id "/nfl/team/roster/_/name/pit" = None ∧
  Py.search_rb "RB" = true ∧ Py.search_rb "FB/rb" = true ∧
  Py.search_rb "RBs" = false ∧ Py.search_rb "WRB" = false.
Proof. vm_compute. done. Qed.

End PyFacts.

(* ===================================================================== *)
(** * Properties of the defense ranking                                    *)
(* ===================================================================== *)

(** ** Two sorts behind the [SortKind] interface *)

Module SortKinds.
Import Compare.

(** Insertion into an ascending list.  With [ties_after] the new row goes
    behind the rows with the same key, otherwise in front of them. *)
Fixpoint insert_row (ties_after : bool) (r : ranked_row)
    (l : list ranked_row) : list ranked_row :=
  match l with
  | [] => [r]
  | x :: l' =>
      if (if ties_after then yards r <? yards x else yards r <=? yards x)
      then r :: l
      else x :: insert_row ties_after r l'
  end.

Definition insertion_sort (ties_after : bool)
  : list ranked_row → list ranked_row :=
  foldr (insert_row ties_after) [].

Lemma insert_row_perm b r l : insert_row b r l ≡ₚ r :: l.
Proof.
  induction l as [|x l IH]; simpl; [done|].
  case_match; [done|]. rewrite IH. apply Permutation_swap.
Qed.

Lemma insertion_sort_perm b l : insertion_sort b l ≡ₚ l.
Proof.
  induction l as [|x l IH]; simpl; [done|].
  by rewrite insert_row_perm, IH.
Qed.

Lemma insert_row_hd b x r l :
  yards_le x r → HdRel yards_le x l → HdRel yards_le x (insert_row b r l).
Proof.
  intros Hxr Hl. destruct l as [|y l]; simpl.
  - by constructor.
  - inversion_clear Hl. case_match; by constructor.
Qed.

Lemma insert_row_sorted b r l :
  Sorted yards_le l → Sorted yards_le (insert_row b r l).
Proof.
  induction 1 as [|x l Hl IH Hx]; simpl.
  - repeat constructor.
  - case_match eqn:Hc.
    + constructor; [by constructor|]. constructor. unfold yards_le.
      destruct b; lia.
    + constructor; [done|]. apply insert_row_hd; [|done].
      unfold yards_le. destruct b; lia.
Qed.

Lemma insertion_sort_sorted b l : Sorted yards_le (insertion_sort b l).
Proof.
  induction l as [|x l IH]; simpl; [constructor|].
  by apply insert_row_sorted.
Qed.

(** The sort of [kind='stable']: ties stay in source order. *)
Definition stable_kind : SortKind :=
  {| sort_values := insertion_sort false;
     sort_values_perm := insertion_sort_perm false;
     sort_values_sorted := insertion_sort_sorted false |}.

(** A sort that meets the same contract and hands rows with equal keys
    back in the opposite of their source order. *)
Definition tie_reversing_kind : SortKind :=
  {| sort_values := insertion_sort true;
     sort_values_perm := insertion_sort_perm true;
     sort_values_sorted := insertion_sort_sorted true |}.

End SortKinds.

Module RankingFacts.
Import Compare.

Global Instance yards_le_trans : Transitive yards_le.
Proof. intros a b c. unfold yards_le. lia. Qed.

(** ** The conversion of the yards column *)

Lemma convert_yards_Return df ys :
  Forall2 (λ r y, yards_of r = Return y) df ys →
  convert_yards df = Return (zip_with Ranked (Team <$> df) ys).
Proof.
  induction 1 as [|r y df ys Hr _ IH]; simpl; [done|].
  by rewrite Hr, IH.
Qed.

Lemma convert_yards_inv df src :
  convert_yards df = Return src →
  Forall2 (λ r p, team_name p = Team r ∧ yards_of r = Return (yards p)) df src.
Proof.
  revert src. induction df as [|r df IH]; simpl; intros src Hs.
  - injection Hs as <-. constructor.
  - destruct (yards_of r) as [y|] eqn:Hy; [|done].
    destruct (convert_yards df) as [rs|]; [|done].
    injection Hs as <-. constructor; [done|]. by apply IH.
Qed.

(** ** Helpers on lists *)

Lemma NoDup_fmap_eq {A B} (f : A → B) (l : list A) x y :
  NoDup (f <$> l) → x ∈ l → y ∈ l → f x = f y → x = y.
Proof.
  induction l as [|a l IH]; simpl; intros Hnd Hx Hy Hf.
  - by apply elem_of_nil in Hx.
  - apply NoDup_cons in Hnd as [Ha Hnd].
    apply elem_of_cons in Hx as [->|Hx]; apply elem_of_cons in Hy as [->|Hy];
      auto.
    + destruct Ha. rewrite Hf. by apply list_elem_of_fmap_2.
    + destruct Ha. rewrite <- Hf. by apply list_elem_of_fmap_2.
Qed.

(** Whether the rows of [out] that share a key come in the order they
    have in [src]. *)
Definition keeps_source_order (src out : list ranked_row) : Prop :=
  ∀ v, filter (λ r, yards r = v) out = filter (λ r, yards r = v) src.

(** ** Ascending order *)

Lemma sorted_frame_Return `{SortKind} df src :
  yards_dtype df = Some object →
  convert_yards df = Return src →
  sorted_frame df = Some (Return (sort_values src)).
Proof. intros Hobj Hs. unfold sorted_frame. by rewrite Hobj, Hs. Qed.

Lemma load_Return `{SortKind} df src :
  yards_dtype df = Some object →
  convert_yards df = Return src →
  load_defense_rankings df
  = Some (Return (team_abbrev <$> head 16 (sort_values src),
                  team_abbrev <$> tail 16 (sort_values src))).
Proof.
  intros Hobj Hs. unfold load_defense_rankings.
  by rewrite (sorted_frame_Return df src Hobj Hs).
Qed.

Lemma load_int64 `{SortKind} df :
  yards_dtype df = Some int64 →
  load_defense_rankings df = Some (Raise AttributeError).
Proof.
  intros Hint. unfold load_defense_rankings, sorted_frame. by rewrite Hint.
Qed.

Lemma sort_values_unique (K K' : SortKind) src :
  NoDup (yards <$> src) →
  @sort_values K src = @sort_values K' src.
Proof.
  intros Hnd. apply (Sorted_unique_strong yards_le).
  - intros x1 x2 H1 H2 H12 H21.
    rewrite sort_values_perm in H1. rewrite sort_values_perm in H2.
    apply (NoDup_fmap_eq yards src); [done..|]. unfold yards_le in *. lia.
  - apply sort_values_sorted.
  - apply sort_values_sorted.
  - by rewrite !sort_values_perm.
Qed.

Lemma insert_row_stable v r l :
  filter (λ q, yards q = v) (SortKinds.insert_row false r l)
  = filter (λ q, yards q = v) (r :: l).
Proof.
  induction l as [|x l IH]; simpl; [done|].
  case_match eqn:Hc; [done|].
  rewrite (filter_cons _ x), IH, !(filter_cons _ r), !(filter_cons _ x).
  repeat case_decide; try done; lia.
Qed.

(** The stable kind does keep ties in source order. *)
Lemma stable_kind_keeps_source_order src :
  keeps_source_order src (@sort_values SortKinds.stable_kind src).
Proof.
  intros v. induction src as [|r src IH]; simpl; [done|].
  rewrite insert_row_stable, !(filter_cons _ r). simpl in IH.
  by rewrite IH.
Qed.

(** Four rows, two tied at 1,500 before two tied at 1,400. *)
Definition four_tied : list def_row :=
  [ DefRow "Buffalo Bills" "1,500"; DefRow "Miami Dolphins" "1,500";
    DefRow "New York Jets" "1,400"; DefRow "New England Patriots" "1,400" ].

(** C3 as stated, refuted at [four_tied].  The default kind of
    [sort_values] is numpy's quicksort, which sorts so short a column with
    a sorting network where the processor has the vector instructions for
    it (x86-64 with AVX2 or AVX-512); on these four rows it returns the
    order that [SortKinds.tie_reversing_kind] computes.  The frame comes
    back ascending, and both tied pairs have changed places: the Patriots
    stand before the Jets and the Dolphins before the Bills, against the
    order of the file. *)
Lemma tied_rows_change_places :
  @sorted_frame SortKinds.tie_reversing_kind four_tied
  = Some (Return [ Ranked "New England Patriots" 1400;
                   Ranked "New York Jets" 1400;
                   Ranked "Miami Dolphins" 1500;
                   Ranked "Buffalo Bills" 1500 ]) ∧
  ¬ keeps_source_order
      [ Ranked "Buffalo Bills" 1500; Ranked "Miami Dolphins" 1500;
        Ranked "New York Jets" 1400; Ranked "New England Patriots" 1400 ]
      [ Ranked "New England Patriots" 1400; Ranked "New York Jets" 1400;
        Ranked "Miami Dolphins" 1500; Ranked "Buffalo Bills" 1500 ].
Proof.
  split; [vm_compute; reflexivity|].
  intros Hk. specialize (Hk 1500). vm_compute in Hk. discriminate Hk.
Qed.

(** C3, amended: for every input whose yards column is read as text and
    converts, the sorted frame is a rearrangement of the converted rows
    in ascending order of rushing yards allowed; the order among rows
    with equal yards is left to the sort, and when the yards are pairwise
    distinct every sort kind returns the same frame. *)
Theorem sorted_frame_ascending (K : SortKind) (df : list def_row)
    (src : list ranked_row) :
  yards_dtype df = Some object →
  convert_yards df = Return src →
  ∃ out,
    sorted_frame df = Some (Return out) ∧
    out ≡ₚ src ∧
    StronglySorted yards_le out ∧
    (NoDup (yards <$> src) →
     ∀ K' : SortKind, @sorted_frame K' df = Some (Return out)).
Proof.
  intros Hobj Hs. exists (sort_values src). split_and!.
  - by apply sorted_frame_Return.
  - apply sort_values_perm.
  - apply Sorted_StronglySorted; [apply _|apply sort_values_sorted].
  - intros Hnd K'. rewrite (sorted_frame_Return (H:=K') df src Hobj Hs).
    do 2 f_equal. by apply sort_values_unique.
Qed.

Definition three_rows : list def_row :=
  [ DefRow "Seattle Seahawks" "1,234"; DefRow "Buffalo Bills" "987";
    DefRow "Miami Dolphins" "1,500" ].

Lemma sorted_frame_ascending_witness :
  ∃ out,
    @sorted_frame SortKinds.tie_reversing_kind three_rows
    = Some (Return out) ∧
    out ≡ₚ [ Ranked "Seattle Seahawks" 1234; Ranked "Buffalo Bills" 987;
             Ranked "Miami Dolphins" 1500 ] ∧
    StronglySorted yards_le out ∧
    ∀ K' : SortKind, @sorted_frame K' three_rows = Some (Return out).
Proof.
  destruct (sorted_frame_ascending SortKinds.tie_reversing_kind three_rows
              _ eq_refl eq_refl) as (out & Hout & Hperm & Hsorted & Hany).
  exists out. split_and!; [done..|]. apply Hany. compute_done.
Defined.

(** ** The two tiers *)

Lemma TEAM_NAME_TO_ABBREV_inj n1 n2 k :
  TEAM_NAME_TO_ABBREV !! n1 = Some k →
  TEAM_NAME_TO_ABBREV !! n2 = Some k →
  n1 = n2.
Proof.
  intros H1 H2.
  apply elem_of_map_to_list in H1, H2.
  assert (NoDup ((map_to_list TEAM_NAME_TO_ABBREV).*2)) as Hnd
    by compute_done.
  by pose proof (NoDup_fmap_eq snd _ _ _ Hnd H1 H2 eq_refl) as [= ->].
Qed.

Lemma length_filter_fmap {A B} (f : A → B) (P : B → Prop)
    `{∀ x, Decision (P x)} (l : list A) :
  length (filter P (f <$> l)) = length (filter (λ x, P (f x)) l).
Proof.
  induction l as [|x l IH]; [done|].
  rewrite fmap_cons, !filter_cons. case_decide; simpl; by rewrite IH.
Qed.

Lemma filter_all {A} (P : A → Prop) `{∀ x, Decision (P x)} (l : list A) :
  (∀ x, x ∈ l → P x) → filter P l = l.
Proof.
  induction l as [|x l IH]; intros Hl; [done|].
  rewrite filter_cons_True by (apply Hl; by left).
  f_equal. apply IH. intros y Hy. apply Hl. by right.
Qed.

Lemma filter_none {A} (P : A → Prop) `{∀ x, Decision (P x)} (l : list A) :
  (∀ x, x ∈ l → ¬ P x) → filter P l = [].
Proof.
  induction l as [|x l IH]; intros Hl; [done|].
  rewrite filter_cons_False by (apply Hl; by left).
  apply IH. intros y Hy. apply Hl. by right.
Qed.

(** In an ascending frame with pairwise distinct yards, the rows before
    a row are exactly those with fewer yards, the rows after it exactly
    those with more. *)
Lemma filter_around l1 p l2 :
  StronglySorted yards_le (l1 ++ p :: l2) →
  NoDup (yards <$> l1 ++ p :: l2) →
  filter (λ q, yards q < yards p) (l1 ++ p :: l2) = l1 ∧
  filter (λ q, yards p < yards q) (l1 ++ p :: l2) = l2.
Proof.
  intros Hs Hnd.
  assert (∀ q, q ∈ l1 → yards q < yards p) as H1.
  { intros q Hq.
    assert (yards_le q p) as Hle
      by (eapply StronglySorted_app_1_elem_of; [done..|by left]).
    assert (q ≠ p) as Hne.
    { intros ->. apply NoDup_fmap_1 in Hnd.
      apply NoDup_app in Hnd as (_ & Hd & _). apply (Hd p Hq). by left. }
    assert (yards q ≠ yards p); [|unfold yards_le in Hle; lia].
    intros Hy. apply Hne. apply (NoDup_fmap_eq yards _ _ _ Hnd); [|..|done].
    - apply elem_of_app. by left.
    - apply elem_of_app. right. by left. }
  assert (∀ q, q ∈ l2 → yards p < yards q) as H2.
  { intros q Hq.
    apply StronglySorted_app_1_r, StronglySorted_cons in Hs as [Hall _].
    rewrite Forall_forall in Hall. specialize (Hall q Hq).
    assert (q ≠ p) as Hne.
    { intros ->. apply NoDup_fmap_1, NoDup_app in Hnd as (_ & _ & Hd).
      by apply NoDup_cons in Hd as [? _]. }
    assert (yards q ≠ yards p); [|unfold yards_le in Hall; lia].
    intros Hy. apply Hne. apply (NoDup_fmap_eq yards _ _ _ Hnd); [|..|done].
    - apply elem_of_app. right. by right.
    - apply elem_of_app. right. by left. }
  rewrite !filter_app, !filter_cons.
  rewrite decide_False by lia. rewrite (decide_False (P:=yards p < yards p)) by lia.
  split.
  - rewrite (filter_none _ l2), app_nil_r; [by apply filter_all|].
    intros q Hq Hlt. specialize (H2 q Hq). lia.
  - rewrite (filter_none _ l1); [by apply filter_all|].
    intros q Hq Hlt. specialize (H1 q Hq). lia.
Qed.

Lemma elem_of_take_middle {A} (l1 : list A) p l2 n :
  NoDup (l1 ++ p :: l2) →
  p ∈ take n (l1 ++ p :: l2) ↔ (length l1 < n)%nat.
Proof.
  intros Hnd. split.
  - intros Hp. destruct (decide (length l1 < n)%nat) as [|Hge]; [done|].
    rewrite take_app_le in Hp by lia. apply subseteq_take in Hp.
    apply NoDup_app in Hnd as (_ & Hd & _). destruct (Hd p Hp). by left.
  - intros Hlt. apply elem_of_take. exists (length l1). split; [|done].
    by apply list_lookup_middle.
Qed.

Lemma elem_of_drop_middle {A} (l1 : list A) p l2 n :
  NoDup (l1 ++ p :: l2) →
  p ∈ drop n (l1 ++ p :: l2) ↔ (n ≤ length l1)%nat.
Proof.
  intros Hnd. split.
  - intros Hp. destruct (decide (n ≤ length l1)%nat) as [|Hgt]; [done|].
    rewrite drop_app_ge in Hp by lia.
    destruct (n - length l1)%nat as [|k] eqn:Hk; [lia|]. simpl in Hp.
    apply subseteq_drop in Hp.
    apply NoDup_app in Hnd as (_ & _ & Hd).
    by apply NoDup_cons in Hd as [? _].
  - intros Hle. rewrite drop_app_le by done. apply elem_of_app. right.
    by left.
Qed.

(** What C1 asks of the two lists of team keys, for 32 rows [df] of 32
    distinct teams whose yards are [ys]: 16 entries each, no entry twice,
    none missing, every team of [df] in one of them, and a team in [top16]
    (in [bottom16]) exactly when fewer than 16 of the values lie below
    (above) its own. *)
Definition halves_by_yards (df : list def_row) (ys : list Z)
    (top16 bottom16 : list (option string)) : Prop :=
  length top16 = 16%nat ∧ length bottom16 = 16%nat ∧
  NoDup (top16 ++ bottom16) ∧
  Forall is_Some (top16 ++ bottom16) ∧
  (∀ r, r ∈ df → TEAM_NAME_TO_ABBREV !! Team r ∈ top16 ++ bottom16) ∧
  (∀ i r (y : Z), df !! i = Some r → ys !! i = Some y →
     (TEAM_NAME_TO_ABBREV !! Team r ∈ top16 ↔
        (length (filter (λ z, (z < y)%Z) ys) < 16)%nat) ∧
     (TEAM_NAME_TO_ABBREV !! Team r ∈ bottom16 ↔
        (length (filter (λ z, (y < z)%Z) ys) < 16)%nat)).

(** The same on the rows themselves: the sorted frame is a lower half
    [low] and an upper half [high] of 16 rows each, which together are the
    converted rows of the input; every row of [low] has fewer yards than
    every row of [high]; the two lists are their keys. *)
Definition halves_of_frame `{SortKind} (df : list def_row) (ys : list Z)
    (top16 bottom16 : list (option string)) : Prop :=
  ∃ low high : list ranked_row,
    sorted_frame df = Some (Return (low ++ high)) ∧
    length low = 16%nat ∧ length high = 16%nat ∧
    low ++ high ≡ₚ zip_with Ranked (Team <$> df) ys ∧
    NoDup (low ++ high) ∧
    (∀ a b, a ∈ low → b ∈ high → yards a < yards b) ∧
    top16 = team_abbrev <$> low ∧ bottom16 = team_abbrev <$> high.

(** X25: for 32 defense rows whose yards column is read as text and
    converts to pairwise distinct numbers the ranker returns.  [top16]
    holds the keys of the 16 rows with the fewest yards and [bottom16]
    those of the 16 rows with the most, the two halves sharing no row and
    making up the input; and when the rows are those of 32 distinct teams
    of the table, the two lists hold 16 team keys each, share none and
    hold all 32 between them. *)
Theorem tiers_of_32_distinct (K : SortKind) (df : list def_row)
    (ys : list Z) :
  yards_dtype df = Some object →
  length df = 32%nat →
  Forall2 (λ r y, yards_of r = Return y) df ys →
  NoDup ys →
  ∃ top16 bottom16,
    load_defense_rankings df = Some (Return (top16, bottom16)) ∧
    halves_of_frame df ys top16 bottom16 ∧
    (NoDup (Team <$> df) →
     Forall (λ r, is_Some (TEAM_NAME_TO_ABBREV !! Team r)) df →
     halves_by_yards df ys top16 bottom16).
Proof.
  intros Hobj Hlen Hys Hnd.
  pose proof (Forall2_length _ _ _ Hys) as Hlen_ys.
  pose proof (convert_yards_Return df ys Hys) as Hconv.
  set (src := zip_with Ranked (Team <$> df) ys) in *.
  assert (yards <$> src = ys) as Hy_src.
  { apply fmap_zip_with_r; [done|]. rewrite length_fmap. lia. }
  assert (team_name <$> src = Team <$> df) as Ht_src.
  { apply fmap_zip_with_l; [done|]. rewrite length_fmap. lia. }
  assert (team_abbrev <$> src = (λ r, TEAM_NAME_TO_ABBREV !! Team r) <$> df)
    as Ha_src.
  { change team_abbrev with ((TEAM_NAME_TO_ABBREV !!.) ∘ team_name).
    rewrite list_fmap_compose, Ht_src, <- list_fmap_compose. done. }
  set (out := sort_values src).
  pose proof (sort_values_perm src) as Hperm. fold out in Hperm.
  assert (StronglySorted yards_le out) as Hsorted.
  { apply Sorted_StronglySorted; [apply _|apply sort_values_sorted]. }
  assert (length out = 32%nat) as Hlen_out.
  { rewrite Hperm. unfold src. rewrite length_zip_with_l_eq; rewrite length_fmap; lia. }
  assert (NoDup (yards <$> out)) as Hnd_y by (by rewrite Hperm, Hy_src).
  assert (NoDup out) as Hnd_o by (by apply NoDup_fmap_1 in Hnd_y).
  assert (tail 16 out = drop 16 out) as Htail.
  { unfold tail. by rewrite Hlen_out. }
  assert ((team_abbrev <$> head 16 out) ++ (team_abbrev <$> tail 16 out)
          = team_abbrev <$> out) as Hall.
  { rewrite Htail. unfold head. by rewrite <- fmap_app, take_drop. }
  exists (team_abbrev <$> head 16 out), (team_abbrev <$> tail 16 out).
  split_and!.
  - by rewrite (load_Return df src Hobj Hconv).
  - exists (head 16 out), (tail 16 out). rewrite Htail. unfold head.
    rewrite take_drop. split_and!; [|..|done|done].
    + by apply sorted_frame_Return.
    + rewrite length_take. lia.
    + rewrite length_drop. lia.
    + done.
    + done.
    + intros a b Ha Hb.
      assert (yards_le a b) as Hle.
      { rewrite <- (take_drop 16 out) in Hsorted.
        by apply (StronglySorted_app_1_elem_of _ _ _ _ _ Hsorted). }
      assert (yards a ≠ yards b); [|unfold yards_le in Hle; lia].
      intros Heq.
      assert (a = b) as ->.
      { apply (NoDup_fmap_eq yards out); [done|..|done].
        - by apply (subseteq_take 16).
        - by apply (subseteq_drop 16). }
      rewrite <- (take_drop 16 out) in Hnd_o.
      apply NoDup_app in Hnd_o as (_ & Hdisj & _). by apply (Hdisj b).
  - intros Hteams Hknown. unfold halves_by_yards.
    assert (NoDup (team_abbrev <$> src)) as Hnd_a.
    { rewrite Ha_src.
      apply NoDup_fmap_2_strong; [|by apply NoDup_fmap_1 in Hteams].
      intros r1 r2 H1 H2 Heq. rewrite Forall_forall in Hknown.
      destruct (Hknown r1 H1) as [k Hk]. rewrite Hk in Heq. symmetry in Heq.
      pose proof (TEAM_NAME_TO_ABBREV_inj _ _ _ Hk Heq) as Hn.
      by apply (NoDup_fmap_eq Team df). }
    assert (NoDup (team_abbrev <$> out)) as Hnd_out by by rewrite Hperm.
    split_and!.
    + unfold head. rewrite length_fmap, length_take. lia.
    + rewrite Htail, length_fmap, length_drop. lia.
    + by rewrite Hall.
    + rewrite Hall, Hperm, Ha_src. apply Forall_fmap.
      eapply Forall_impl; [exact Hknown|]. done.
    + intros r Hr. rewrite Hall, Hperm, Ha_src.
      by apply (list_elem_of_fmap_2 (λ r, TEAM_NAME_TO_ABBREV !! Team r)).
    + intros i r y Hi Hyi.
      set (p := Ranked (Team r) y).
      assert (p ∈ out) as Hp.
      { rewrite Hperm. apply list_elem_of_lookup. exists i. unfold src.
        rewrite lookup_zip_with, list_lookup_fmap, Hi, Hyi. done. }
      apply list_elem_of_split in Hp as (l1 & l2 & Hsplit).
      rewrite Hsplit in Hsorted, Hnd_y, Hnd_o.
      destruct (filter_around l1 p l2 Hsorted Hnd_y) as [Hlow Hhigh].
      assert (length (filter (λ z, z < y) ys) = length l1) as ->.
      { rewrite <- Hy_src, <- Hperm, length_filter_fmap, Hsplit.
        change y with (yards p). by rewrite Hlow. }
      assert (length (filter (λ z, y < z) ys) = length l2) as ->.
      { rewrite <- Hy_src, <- Hperm, length_filter_fmap, Hsplit.
        change y with (yards p). by rewrite Hhigh. }
      assert (length l1 + S (length l2) = 32)%nat as Hsum.
      { rewrite <- Hlen_out, Hsplit, length_app. done. }
      assert (∀ l, l ⊆ out →
                (TEAM_NAME_TO_ABBREV !! Team r ∈ team_abbrev <$> l ↔ p ∈ l))
        as Hmem.
      { intros l Hl. split.
        - intros (q & Hq & Hin)%list_elem_of_fmap.
          assert (q = p) as ->; [|done].
          apply (NoDup_fmap_eq team_abbrev out); [done|by apply Hl|..].
          + rewrite Hsplit. apply elem_of_app. right. by left.
          + by rewrite <- Hq.
        - intros Hin. by apply (list_elem_of_fmap_2 team_abbrev _ p). }
      split.
      * rewrite Hmem by apply subseteq_take. unfold head. rewrite Hsplit.
        by apply elem_of_take_middle.
      * rewrite Htail, Hmem by apply subseteq_drop. rewrite Hsplit.
        rewrite elem_of_drop_middle by done. lia.
Qed.

(** The league with the yards 1,390, 1,380, ..., 1,080 in table order. *)
Definition league_rows_text : list def_row :=
  [
    DefRow "New York Giants" "1,390"; DefRow "Cincinnati Bengals" "1,380";
    DefRow "Buffalo Bills" "1,370"; DefRow "Miami Dolphins" "1,360";
    DefRow "Chicago Bears" "1,350"; DefRow "Washington Commanders" "1,340";
    DefRow "Atlanta Falcons" "1,330"; DefRow "Tennessee Titans" "1,320";
    DefRow "Minnesota Vikings" "1,310"; DefRow "New York Jets" "1,300";
    DefRow "Carolina Panthers" "1,290"; DefRow "Dallas Cowboys" "1,280";
    DefRow "New Orleans Saints" "1,270"; DefRow "Baltimore Ravens" "1,260";
    DefRow "Philadelphia Eagles" "1,250";
    DefRow "Arizona Cardinals" "1,240";
    DefRow "Los Angeles Chargers" "1,230";
    DefRow "San Francisco 49ers" "1,220";
    DefRow "Pittsburgh Steelers" "1,210";
    DefRow "Las Vegas Raiders" "1,200"; DefRow "Los Angeles Rams" "1,190";
    DefRow "Cleveland Browns" "1,180"; DefRow "Detroit Lions" "1,170";
    DefRow "Kansas City Chiefs" "1,160";
    DefRow "Tampa Bay Buccaneers" "1,150";
    DefRow "Indianapolis Colts" "1,140"; DefRow "Green Bay Packers" "1,130";
    DefRow "New England Patriots" "1,120"; DefRow "Houston Texans" "1,110";
    DefRow "Seattle Seahawks" "1,100"; DefRow "Denver Broncos" "1,090";
    DefRow "Jacksonville Jaguars" "1,080" ].

Definition league_yards_text : list Z :=
  [
    1390; 1380; 1370; 1360; 1350; 1340; 1330; 1320; 1310; 1300; 1290; 1280;
    1270; 1260; 1250; 1240; 1230; 1220; 1210; 1200; 1190; 1180; 1170; 1160;
    1150; 1140; 1130; 1120; 1110; 1100; 1090; 1080 ].

Lemma tiers_of_32_distinct_witness :
  ∃ top16 bottom16,
    @load_defense_rankings SortKinds.tie_reversing_kind league_rows_text
    = Some (Return (top16, bottom16)) ∧
    @halves_of_frame SortKinds.tie_reversing_kind league_rows_text
      league_yards_text top16 bottom16 ∧
    halves_by_yards league_rows_text league_yards_text top16 bottom16.
Proof.
  destruct (tiers_of_32_distinct SortKinds.tie_reversing_kind
              league_rows_text league_yards_text)
    as (top16 & bottom16 & Hret & Hrows & Hkeys).
  - reflexivity.
  - reflexivity.
  - repeat (constructor; [vm_compute; reflexivity|]). constructor.
  - compute_done.
  - exists top16, bottom16. split_and!; [done..|]. apply Hkeys.
    + compute_done.
    + apply Forall_forall. intros r Hr.
      repeat (apply elem_of_cons in Hr as [->|Hr]; [by eexists|]).
      by apply elem_of_nil in Hr.
Defined.

Example league_tiers :
  @load_defense_rankings SortKinds.stable_kind league_rows_text
  = Some (Return
      ([
        Some "jax"; Some "den"; Some "sea"; Some "hou"; Some "ne";
        Some "gb"; Some "ind"; Some "tb"; Some "kc"; Some "det";
        Some "cle"; Some "lar"; Some "lv"; Some "pit"; Some "sf";
        Some "lac" ],
       [
        Some "ari"; Some "phi"; Some "bal"; Some "no"; Some "dal";
        Some "car"; Some "nyj"; Some "min"; Some "ten"; Some "atl";
        Some "wsh"; Some "chi"; Some "mia"; Some "buf"; Some "cin";
        Some "nyg" ])).
Proof. vm_compute. reflexivity. Qed.

(** ** A column of plain integers *)

(** The league with the yards 390, 380, ..., 80 in table order, written
    as they are: no value reaches a thousand, so none has a comma. *)
Definition league_rows : list def_row :=
  [
    DefRow "New York Giants" "390"; DefRow "Cincinnati Bengals" "380";
    DefRow "Buffalo Bills" "370"; DefRow "Miami Dolphins" "360";
    DefRow "Chicago Bears" "350"; DefRow "Washington Commanders" "340";
    DefRow "Atlanta Falcons" "330"; DefRow "Tennessee Titans" "320";
    DefRow "Minnesota Vikings" "310"; DefRow "New York Jets" "300";
    DefRow "Carolina Panthers" "290"; DefRow "Dallas Cowboys" "280";
    DefRow "New Orleans Saints" "270"; DefRow "Baltimore Ravens" "260";
    DefRow "Philadelphia Eagles" "250"; DefRow "Arizona Cardinals" "240";
    DefRow "Los Angeles Chargers" "230"; DefRow "San Francisco 49ers" "220";
    DefRow "Pittsburgh Steelers" "210"; DefRow "Las Vegas Raiders" "200";
    DefRow "Los Angeles Rams" "190"; DefRow "Cleveland Browns" "180";
    DefRow "Detroit Lions" "170"; DefRow "Kansas City Chiefs" "160";
    DefRow "Tampa Bay Buccaneers" "150"; DefRow "Indianapolis Colts" "140";
    DefRow "Green Bay Packers" "130"; DefRow "New England Patriots" "120";
    DefRow "Houston Texans" "110"; DefRow "Seattle Seahawks" "100";
    DefRow "Denver Broncos" "90"; DefRow "Jacksonville Jaguars" "80" ].

(** C1 at its own example.  The docstring of [load_defense_rankings]
    promises the two tiers and its comment says "Convert rushing yards to
    numeric (remove commas)"; for the 32 distinct values 390, ..., 80
    [pd.read_csv] has already made the column numeric, the [.str]
    accessor raises [AttributeError], and no tier is returned. *)
Lemma plain_yards_not_ranked (K : SortKind) :
  yards_dtype league_rows = Some int64 ∧
  load_defense_rankings league_rows = Some (Raise AttributeError).
Proof. split; reflexivity. Qed.

(** ** A name missing from the table *)

(** The league of [league_rows_text], the row with the fewest yards under
    a name that is not a key of the table. *)
Definition league_rows_unknown : list def_row :=
  [
    DefRow "New York Giants" "1,390"; DefRow "Cincinnati Bengals" "1,380";
    DefRow "Buffalo Bills" "1,370"; DefRow "Miami Dolphins" "1,360";
    DefRow "Chicago Bears" "1,350"; DefRow "Washington Commanders" "1,340";
    DefRow "Atlanta Falcons" "1,330"; DefRow "Tennessee Titans" "1,320";
    DefRow "Minnesota Vikings" "1,310"; DefRow "New York Jets" "1,300";
    DefRow "Carolina Panthers" "1,290"; DefRow "Dallas Cowboys" "1,280";
    DefRow "New Orleans Saints" "1,270"; DefRow "Baltimore Ravens" "1,260";
    DefRow "Philadelphia Eagles" "1,250";
    DefRow "Arizona Cardinals" "1,240";
    DefRow "Los Angeles Chargers" "1,230";
    DefRow "San Francisco 49ers" "1,220";
    DefRow "Pittsburgh Steelers" "1,210";
    DefRow "Las Vegas Raiders" "1,200"; DefRow "Los Angeles Rams" "1,190";
    DefRow "Cleveland Browns" "1,180"; DefRow "Detroit Lions" "1,170";
    DefRow "Kansas City Chiefs" "1,160";
    DefRow "Tampa Bay Buccaneers" "1,150";
    DefRow "Indianapolis Colts" "1,140"; DefRow "Green Bay Packers" "1,130";
    DefRow "New England Patriots" "1,120"; DefRow "Houston Texans" "1,110";
    DefRow "Seattle Seahawks" "1,100"; DefRow "Denver Broncos" "1,090";
    DefRow "Jacksonville Jags" "1,080" ].

(** C2 as stated, refuted: a row of the top-16 slice whose name does not
    map makes the ranker return as usual, with a missing value as the
    first of the 16 entries of [top16]; nothing is raised. *)
Lemma unknown_team_not_surfaced :
  @load_defense_rankings SortKinds.stable_kind league_rows_unknown
  = Some (Return
      ([
        None; Some "den"; Some "sea"; Some "hou"; Some "ne"; Some "gb";
        Some "ind"; Some "tb"; Some "kc"; Some "det"; Some "cle";
        Some "lar"; Some "lv"; Some "pit"; Some "sf"; Some "lac" ],
       [
        Some "ari"; Some "phi"; Some "bal"; Some "no"; Some "dal";
        Some "car"; Some "nyj"; Some "min"; Some "ten"; Some "atl";
        Some "wsh"; Some "chi"; Some "mia"; Some "buf"; Some "cin";
        Some "nyg" ]))
  ∧ ∀ e, @load_defense_rankings SortKinds.stable_kind league_rows_unknown
         ≠ Some (Raise e).
Proof. split; [vm_compute; reflexivity|]. intros e. vm_compute. discriminate. Qed.

(** C2, amended: mapping the names never raises.  Whenever the yards
    column is read as text and converts, the ranker returns; each tier
    has as many entries as its slice of the sorted frame has rows, entry
    by entry the table's answer for the row's name, so a name missing
    from the table shows up as a missing value in the tier. *)
Theorem unknown_team_yields_missing (K : SortKind) (df : list def_row)
    (src : list ranked_row) :
  yards_dtype df = Some object →
  convert_yards df = Return src →
  ∃ out top16 bottom16,
    sorted_frame df = Some (Return out) ∧
    load_defense_rankings df = Some (Return (top16, bottom16)) ∧
    length top16 = length (head 16 out) ∧
    length bottom16 = length (tail 16 out) ∧
    (∀ i r, head 16 out !! i = Some r →
       top16 !! i = Some (TEAM_NAME_TO_ABBREV !! team_name r)) ∧
    (∀ i r, tail 16 out !! i = Some r →
       bottom16 !! i = Some (TEAM_NAME_TO_ABBREV !! team_name r)) ∧
    (∀ r, r ∈ head 16 out → TEAM_NAME_TO_ABBREV !! team_name r = None →
       None ∈ top16) ∧
    (∀ r, r ∈ tail 16 out → TEAM_NAME_TO_ABBREV !! team_name r = None →
       None ∈ bottom16).
Proof.
  intros Hobj Hs. exists (sort_values src).
  exists (team_abbrev <$> head 16 (sort_values src)).
  exists (team_abbrev <$> tail 16 (sort_values src)).
  split_and!.
  - by apply sorted_frame_Return.
  - by apply load_Return.
  - by rewrite length_fmap.
  - by rewrite length_fmap.
  - intros i r Hi. by rewrite list_lookup_fmap, Hi.
  - intros i r Hi. by rewrite list_lookup_fmap, Hi.
  - intros r Hr Hnone. rewrite <- Hnone.
    by apply (list_elem_of_fmap_2 team_abbrev).
  - intros r Hr Hnone. rewrite <- Hnone.
    by apply (list_elem_of_fmap_2 team_abbrev).
Qed.

Lemma unknown_team_yields_missing_witness :
  ∃ out top16 bottom16,
    @sorted_frame SortKinds.stable_kind league_rows_unknown
    = Some (Return out) ∧
    @load_defense_rankings SortKinds.stable_kind league_rows_unknown
    = Some (Return (top16, bottom16)) ∧
    length top16 = length (head 16 out) ∧
    length bottom16 = length (tail 16 out) ∧
    (∀ i r, head 16 out !! i = Some r →
       top16 !! i = Some (TEAM_NAME_TO_ABBREV !! team_name r)) ∧
    (∀ i r, tail 16 out !! i = Some r →
       bottom16 !! i = Some (TEAM_NAME_TO_ABBREV !! team_name r)) ∧
    (∀ r, r ∈ head 16 out → TEAM_NAME_TO_ABBREV !! team_name r = None →
       None ∈ top16) ∧
    (∀ r, r ∈ tail 16 out → TEAM_NAME_TO_ABBREV !! team_name r = None →
       None ∈ bottom16).
Proof.
  eapply (unknown_team_yields_missing SortKinds.stable_kind
            league_rows_unknown).
  - reflexivity.
  - vm_compute. reflexivity.
Defined.

End RankingFacts.

(* ===================================================================== *)
(** * Properties of the opponent normalisation and of the aggregation      *)
(* ===================================================================== *)

Module OpponentFacts.
Import Compare.

(** The normaliser in the words of the specification: a leading "@" or
    "vs" marker is stripped, the remainder is lower-cased and trimmed, and
    a residual token of more than three characters is unresolved. *)
Definition canonicalize_opponent (raw : string) : option string :=
  let remainder :=
    if Py.starts_with "@" raw then Py.drop_chars 1 raw
    else if Py.starts_with "vs" raw then Py.drop_chars 2 raw
    else raw in
  let token := Py.strip (Py.lower remainder) in
  if (3 <? String.length token)%nat then None else Some token.

(** What the script does with the text left once the markers are gone. *)
Definition residue (text : string) : option string :=
  let opp := Py.strip (Py.lower text) in
  if (3 <? String.length opp)%nat then None else Some opp.

(** No "@" and no "vs" anywhere in the text. *)
Definition marker_free (text : string) : Prop :=
  Py.contains "@" text = false ∧ Py.contains "vs" text = false.

Lemma delete_from_absent old s :
  Py.contains old s = false → Py.delete_from old 0 s = s.
Proof.
  induction s as [|c r IH]; [done|].
  cbn [Py.contains Py.delete_from]. intros [Hhere Hrest]%orb_false_iff.
  rewrite Hhere. f_equal. by apply IH.
Qed.

Lemma remove_all_absent old s :
  Py.contains old s = false → Py.remove_all old s = s.
Proof. destruct old; [done|]. apply delete_from_absent. Qed.

Lemma normalize_str s :
  normalize_opponent_abbrev (Py.VStr s) =
  if Py.truthy s
  then residue (Py.remove_all "vs" (Py.remove_all "@" s))
  else None.
Proof. unfold normalize_opponent_abbrev, residue. by destruct s. Qed.

(** C7 at its failing inputs.  The comment in the script reads "Remove @
    or vs prefix", and so does the claim; [str.replace] deletes the markers
    wherever they stand.  On "K@C" the script answers "kc" where stripping
    a leading marker leaves "k@c", and on "vsvsKC" it answers "kc" where a
    residue of four characters is unresolved. *)
Lemma markers_removed_everywhere :
  normalize_opponent_abbrev (Py.VStr "K@C") = Some "kc" ∧
  canonicalize_opponent "K@C" = Some "k@c" ∧
  normalize_opponent_abbrev (Py.VStr "vsvsKC") = Some "kc" ∧
  canonicalize_opponent "vsvsKC" = None ∧
  normalize_opponent_abbrev (Py.VStr "K@C") ≠ canonicalize_opponent "K@C".
Proof. vm_compute. split_and!; congruence. Qed.

(** What the script does in full: on a text it deletes every "@", then
    every "vs", lower-cases and trims what is left, and answers unresolved
    when that residue has more than three characters or the text is empty.
    For a text that carries no marker beyond an optional leading one this
    is the stripping of the leading marker; "@SEA" and "vsSEA" both give
    "sea", and "Seattle Seahawks Defense" is unresolved. *)
Theorem normalize_opponent_abbrev_markers :
  (∀ s, normalize_opponent_abbrev (Py.VStr s) =
        if Py.truthy s
        then residue (Py.remove_all "vs" (Py.remove_all "@" s))
        else None) ∧
  (∀ t, marker_free t →
        normalize_opponent_abbrev (Py.VStr ("@" +:+ t)) = residue t ∧
        normalize_opponent_abbrev (Py.VStr ("vs" +:+ t)) = residue t ∧
        (Py.truthy t = true →
         normalize_opponent_abbrev (Py.VStr t) = residue t) ∧
        canonicalize_opponent ("@" +:+ t) = residue t ∧
        canonicalize_opponent ("vs" +:+ t) = residue t) ∧
  normalize_opponent_abbrev (Py.VStr "@SEA") = Some "sea" ∧
  normalize_opponent_abbrev (Py.VStr "vsSEA") = Some "sea" ∧
  normalize_opponent_abbrev (Py.VStr "Seattle Seahawks Defense") = None.
Proof.
  split_and!; [apply normalize_str| |by vm_compute..].
  intros t [Hat Hvs]. split_and!.
  - rewrite normalize_str. change ("@" +:+ t) with (String "@" t).
    cbn [Py.truthy].
    change (Py.remove_all "@" (String "@" t)) with (Py.delete_from "@" 0 t).
    by rewrite (delete_from_absent "@" t Hat), (remove_all_absent "vs" t Hvs).
  - rewrite normalize_str. change ("vs" +:+ t) with (String "v" (String "s" t)).
    cbn [Py.truthy].
    change (Py.remove_all "@" (String "v" (String "s" t)))
      with (String "v" (String "s" (Py.delete_from "@" 0 t))).
    rewrite (delete_from_absent "@" t Hat).
    change (Py.remove_all "vs" (String "v" (String "s" t)))
      with (Py.delete_from "vs" 0 t).
    by rewrite (delete_from_absent "vs" t Hvs).
  - intros Ht. rewrite normalize_str, Ht.
    by rewrite (remove_all_absent "@" t Hat), (remove_all_absent "vs" t Hvs).
  - done.
  - done.
Qed.

Lemma normalize_opponent_abbrev_markers_witness :
  normalize_opponent_abbrev (Py.VStr ("@" +:+ "KC")) = residue "KC" ∧
  normalize_opponent_abbrev (Py.VStr ("vs" +:+ "KC")) = residue "KC" ∧
  normalize_opponent_abbrev (Py.VStr "KC") = residue "KC" ∧
  canonicalize_opponent ("@" +:+ "KC") = residue "KC" ∧
  canonicalize_opponent ("vs" +:+ "KC") = residue "KC".
Proof.
  destruct normalize_opponent_abbrev_markers as (_ & Hfree & _).
  destruct (Hfree "KC") as (H1 & H2 & H3 & H4 & H5).
  - split; reflexivity.
  - split_and!; [exact H1|exact H2|apply H3; reflexivity|exact H4|exact H5].
Defined.

End OpponentFacts.

Module MatchupFacts.
Import Compare.

(** ** Sums over a column with missing values *)

Lemma column_sum_app col1 col2 :
  column_sum (col1 ++ col2) = column_sum col1 + column_sum col2.
Proof.
  induction col1 as [|[v|] col1 IH]; simpl; [done|rewrite IH; lia|done].
Qed.

Lemma column_sum_skips_missing col1 col2 :
  column_sum (col1 ++ None :: col2) = column_sum (col1 ++ col2).
Proof. by rewrite !column_sum_app. Qed.

Lemma unique_twice (x : string) : unique [x; x] = [x].
Proof. simpl. rewrite !filter_cons, decide_False by (by intros []). done. Qed.

(** C8: a missing number adds nothing to a sum.  Two games of one player
    against top-16 defenses, 50 rushing yards in the first and none
    recorded in the second, give one row for the tier with two games and a
    rushing total of 50; and leaving a missing value out of a column never
    changes its sum. *)
Theorem missing_yards_not_summed (g1 g2 : game)
    (top16 bottom16 : list (option string)) :
  player_name g1 = player_name g2 →
  is_Some (opponent_abbrev g1) → opponent_abbrev g1 ∈ top16 →
  is_Some (opponent_abbrev g2) → opponent_abbrev g2 ∈ top16 →
  rushing_yards g1 = Some 50 →
  rushing_yards g2 = None →
  (∃ st,
     (analyze_rb_vs_defenses [g1; g2] top16 bottom16).1 = [st] ∧
     games_vs st = 2%nat ∧
     rushing_yards_vs st = 50) ∧
  (∀ col1 col2,
     column_sum (col1 ++ None :: col2) = column_sum (col1 ++ col2)).
Proof.
  intros Hname Hs1 Ht1 Hs2 Ht2 Hy1 Hy2. split; [|apply column_sum_skips_missing].
  unfold analyze_rb_vs_defenses.
  change (player_name <$> [g1; g2]) with [player_name g1; player_name g2].
  rewrite <- Hname, unique_twice. cbn [foldl].
  unfold player_stats.
  assert (filter (λ g, player_name g = player_name g1) [g1; g2] = [g1; g2])
    as ->.
  { rewrite !filter_cons, !decide_True by done. done. }
  assert (filter (λ g, is_Some (opponent_abbrev g)) [g1; g2] = [g1; g2])
    as ->.
  { rewrite !filter_cons, !decide_True by done. done. }
  assert (filter (λ g, opponent_abbrev g ∈ top16) [g1; g2] = [g1; g2])
    as ->.
  { rewrite !filter_cons, !decide_True by done. done. }
  cbn [tier_stats app option_list fst]. eexists. split; [reflexivity|].
  cbn. rewrite Hy1, Hy2. done.
Qed.

Definition game_at_kc : game :=
  Game "Najee Harris" "pit" (Py.VStr "@KC") (Some 12) (Some 50) (Some 1)
       None None.

Definition game_vs_buf : game :=
  Game "Najee Harris" "pit" (Py.VStr "vsBUF") (Some 9) None None None None.

Lemma missing_yards_not_summed_witness :
  (∃ st,
     (analyze_rb_vs_defenses [game_at_kc; game_vs_buf]
        [Some "kc"; Some "buf"] [Some "nyg"]).1 = [st] ∧
     games_vs st = 2%nat ∧
     rushing_yards_vs st = 50) ∧
  (∀ col1 col2,
     column_sum (col1 ++ None :: col2) = column_sum (col1 ++ col2)).
Proof.
  apply (missing_yards_not_summed game_at_kc game_vs_buf).
  - reflexivity.
  - vm_compute. by eexists.
  - vm_compute. left.
  - vm_compute. by eexists.
  - vm_compute. right. left.
  - reflexivity.
  - reflexivity.
Defined.

(** ** Opponents that are not a team token *)

(** C10: on a value that is not a string, and on the empty string, the
    normaliser returns [None] (it is a total function: it returns on every
    value), and a game with such an opponent is dropped from a player's
    games before the tiers are formed, as every game with an unresolved
    opponent is. *)
Theorem unresolved_opponent_discarded (v : Py.value) :
  Py.is_str v = false ∨ v = Py.VStr "" →
  normalize_opponent_abbrev v = None ∧
  ∀ (g : game) (df1 df2 : list game) top16 bottom16 name,
    opponent g = v →
    player_stats (df1 ++ g :: df2) top16 bottom16 name
    = player_stats (df1 ++ df2) top16 bottom16 name.
Proof.
  intros Hv.
  assert (normalize_opponent_abbrev v = None) as Hnone.
  { destruct Hv as [Hv| ->]; [|done]. unfold normalize_opponent_abbrev.
    rewrite Hv. by rewrite orb_true_r. }
  split; [done|]. intros g df1 df2 top16 bottom16 name Hg.
  unfold player_stats.
  assert (filter (λ g, is_Some (opponent_abbrev g))
            (filter (λ g, player_name g = name) (df1 ++ g :: df2))
          = filter (λ g, is_Some (opponent_abbrev g))
              (filter (λ g, player_name g = name) (df1 ++ df2))) as ->; [|done].
  rewrite !filter_app, (filter_cons _ g). case_decide; [|done].
  rewrite (filter_cons _ g), decide_False; [done|].
  unfold opponent_abbrev. rewrite Hg, Hnone. by intros [? ?].
Qed.

Definition game_without_opponent : game :=
  Game "Najee Harris" "pit" (Py.VFloat Py.FNan) (Some 7) (Some 31) None
       None None.

Lemma unresolved_opponent_discarded_witness :
  normalize_opponent_abbrev (Py.VFloat Py.FNan) = None ∧
  ∀ (g : game) (df1 df2 : list game) top16 bottom16 name,
    opponent g = Py.VFloat Py.FNan →
    player_stats (df1 ++ g :: df2) top16 bottom16 name
    = player_stats (df1 ++ df2) top16 bottom16 name.
Proof.
  apply (unresolved_opponent_discarded (Py.VFloat Py.FNan)).
  left. reflexivity.
Defined.

Example nan_opponent_game_dropped :
  analyze_rb_vs_defenses [game_at_kc; game_without_opponent; game_vs_buf]
    [Some "kc"; Some "buf"] [Some "nyg"]
  = analyze_rb_vs_defenses [game_at_kc; game_vs_buf]
      [Some "kc"; Some "buf"] [Some "nyg"].
Proof. vm_compute. reflexivity. Qed.

End MatchupFacts.

(* ===================================================================== *)
(** * Properties of the game-log rows                                      *)
(* ===================================================================== *)

Module GameLogFacts.
Import GameLog.

(** Per-field try/abstain in the words of the specification: the field is
    read from its own cell and is absent when the cell is empty or does
    not coerce. *)
Definition abstaining (conv : string → option Py.value)
    (cell : option string) : option Py.value :=
  present (cell ≫= conv).

(** Evaluating the right-hand side of the column's assignment does not
    raise. *)
Definition coerces (cell_texts : list string) (c : column) : bool :=
  bool_decide (is_Some (cell_texts !! col_index c ≫= col_conv c)).

(** ** Dictionaries after a [try] block *)

Lemma assign_Some cell_texts c d :
  assign cell_texts c d
  = (λ v, <[ col_key c := v ]> d) <$> (cell_texts !! col_index c ≫= col_conv c).
Proof.
  unfold assign. destruct (cell_texts !! col_index c) as [t|]; [|done].
  simpl. by destruct (col_conv c t).
Qed.

Lemma run_try_other cell_texts cols (d : dict) k :
  k ∉ col_key <$> cols →
  run_try (assign cell_texts <$> cols) d !! k = d !! k.
Proof.
  revert d. induction cols as [|c cols IH]; intros d Hk; [done|].
  rewrite fmap_cons in Hk. apply not_elem_of_cons in Hk as [Hne Hk].
  cbn [fmap list_fmap run_try]. rewrite assign_Some.
  destruct (cell_texts !! col_index c ≫= col_conv c) as [v|]; [|done].
  cbn. change (list_fmap _ _ (assign cell_texts) cols)
    with (assign cell_texts <$> cols).
  rewrite IH by done. by rewrite lookup_insert_ne.
Qed.

Lemma run_try_lookup cell_texts pre c post (d : dict) :
  NoDup (col_key <$> pre ++ c :: post) →
  run_try (assign cell_texts <$> pre ++ c :: post) d !! col_key c
  = if forallb (coerces cell_texts) pre
    then match cell_texts !! col_index c ≫= col_conv c with
         | Some v => Some v
         | None => d !! col_key c
         end
    else d !! col_key c.
Proof.
  revert d. induction pre as [|c0 pre IH]; intros d Hnd.
  - cbn [app fmap list_fmap run_try forallb]. rewrite assign_Some.
    csimpl in Hnd. apply NoDup_cons in Hnd as [Hc _].
    destruct (cell_texts !! col_index c ≫= col_conv c) as [v|]; [|done].
    cbn. change (list_fmap _ _ (assign cell_texts) post)
      with (assign cell_texts <$> post).
    rewrite run_try_other by done. by rewrite lookup_insert_eq.
  - csimpl in Hnd. apply NoDup_cons in Hnd as [Hc0 Hnd].
    assert (col_key c0 ≠ col_key c) as Hne.
    { intros Heq. apply Hc0. rewrite Heq, fmap_app, fmap_cons.
      apply elem_of_app. right. by left. }
    cbn [app fmap list_fmap run_try forallb]. rewrite assign_Some.
    unfold coerces at 1.
    destruct (cell_texts !! col_index c0 ≫= col_conv c0) as [v0|].
    + rewrite bool_decide_eq_true_2 by by eexists. cbn.
      change (list_fmap _ _ (assign cell_texts) (pre ++ c :: post))
        with (assign cell_texts <$> pre ++ c :: post).
      rewrite IH by done. by rewrite lookup_insert_ne.
    + rewrite bool_decide_eq_false_2 by (by intros [? ?]). done.
Qed.

(** ** A row of at least eight cells *)

Lemma game_row_long player_id player_name team cell_texts :
  (8 ≤ length cell_texts)%nat →
  ∃ date opponent result,
    game_row player_id player_name team cell_texts
    = Some
        (let game_data :=
           run_try (assign cell_texts <$> rushing_columns)
             (game_info player_id player_name team date opponent result) in
         if (13 <? length cell_texts)%nat
         then run_try (assign cell_texts <$> receiving_columns) game_data
         else game_data).
Proof.
  intros Hlen. unfold game_row.
  destruct (Nat.ltb_spec (length cell_texts) 8) as [|_]; [lia|].
  destruct (lookup_lt_is_Some_2 cell_texts 0) as [date ->]; [lia|].
  destruct (lookup_lt_is_Some_2 cell_texts 1) as [opponent ->]; [lia|].
  destruct (lookup_lt_is_Some_2 cell_texts 2) as [result ->]; [lia|].
  destruct (Nat.ltb_spec 6 (length cell_texts)) as [_|]; [|lia].
  by exists date, opponent, result.
Qed.

Lemma game_info_no_stat player_id player_name team date opponent result c :
  c ∈ rushing_columns ++ receiving_columns →
  game_info player_id player_name team date opponent result !! col_key c
  = None.
Proof.
  intros Hc.
  repeat (apply elem_of_cons in Hc as [->|Hc]; [done|]).
  by apply elem_of_nil in Hc.
Qed.

Lemma rushing_key_not_receiving c :
  c ∈ rushing_columns → col_key c ∉ col_key <$> receiving_columns.
Proof.
  intros Hc.
  repeat (apply elem_of_cons in Hc as [->|Hc]; [compute_done|]).
  by apply elem_of_nil in Hc.
Qed.

Lemma receiving_key_not_rushing c :
  c ∈ receiving_columns → col_key c ∉ col_key <$> rushing_columns.
Proof.
  intros Hc.
  repeat (apply elem_of_cons in Hc as [->|Hc]; [compute_done|]).
  by apply elem_of_nil in Hc.
Qed.

Lemma field_of_lookup (d : dict) k (ok : bool) (x : option Py.value) :
  d !! k = (if ok then match x with Some v => Some v | None => None end
            else None) →
  field d k = if ok then present x else None.
Proof. unfold field. intros ->. destruct ok, x as [[]|]; done. Qed.

(** ** The row of the specification *)

Definition full_row : list string :=
  [ "10/01"; "@KC"; "W 20-17"; "15"; "80"; "5.3"; "1"; "22" ].

(** C6: the row of eight cells gives a record with 15 attempts, 80 yards,
    1 touchdown and a long of 22, whoever the player is; a row of five
    cells gives no record; and a page whose table holds two header rows,
    that row and a row of five cells gives exactly the one record. *)
Theorem full_row_parsed_short_row_skipped (player_id : Z)
    (player_name team : string) :
  (∃ game_data,
     game_row player_id player_name team full_row = Some game_data ∧
     game_data !! "rushing_attempts" = Some (Py.VInt 15) ∧
     game_data !! "rushing_yards" = Some (Py.VInt 80) ∧
     game_data !! "rushing_td" = Some (Py.VInt 1) ∧
     game_data !! "rushing_lng" = Some (Py.VInt 22) ∧
     ∀ header1 header2 c1 c2 c3 c4 c5,
       fetch_player_gamelog player_id player_name team
         (Page [[header1; header2; full_row; [c1; c2; c3; c4; c5]]])
       = [game_data]) ∧
  (∀ c1 c2 c3 c4 c5,
     game_row player_id player_name team [c1; c2; c3; c4; c5] = None).
Proof.
  split; [|done]. eexists. split; [reflexivity|]. split_and!; done.
Qed.

(** ** Coercion failures *)

(** C4 as the claim states it, for one row: the row is emitted and each
    numeric field is what its own cell gives, absent when that cell is
    empty or does not coerce. *)
Definition abstains_per_field (player_id : Z) (player_name team : string)
    (cell_texts : list string) : Prop :=
  ∃ game_data,
    game_row player_id player_name team cell_texts = Some game_data ∧
    (∀ c, c ∈ rushing_columns →
       field game_data (col_key c)
       = abstaining (col_conv c) (cell_texts !! col_index c)) ∧
    ((13 < length cell_texts)%nat →
     ∀ c, c ∈ receiving_columns →
       field game_data (col_key c)
       = abstaining (col_conv c) (cell_texts !! col_index c)).

(** The row of the specification with an attempts cell that is no
    number. *)
Definition bad_attempts_row : list string :=
  [ "10/01"; "@KC"; "W 20-17"; "x"; "80"; "5.3"; "1"; "22" ].

(** C4 as stated, refuted: in a row whose attempts cell does not coerce,
    the yards, average, touchdown and long fields are absent as well,
    although their own cells read 80, 5.3, 1 and 22. *)
Lemma failed_coercion_blanks_later_fields :
  (∃ game_data,
     game_row 4241457 "Najee Harris" "pit" bad_attempts_row = Some game_data ∧
     field game_data "rushing_attempts" = None ∧
     field game_data "rushing_yards" = None ∧
     field game_data "rushing_avg" = None ∧
     field game_data "rushing_td" = None ∧
     field game_data "rushing_lng" = None) ∧
  abstaining int_or_none (bad_attempts_row !! 4%nat) = Some (Py.VInt 80) ∧
  ¬ abstains_per_field 4241457 "Najee Harris" "pit" bad_attempts_row.
Proof.
  split_and!.
  - eexists. split; [reflexivity|]. split_and!; reflexivity.
  - reflexivity.
  - intros (game_data & Hrow & Hrushing & _).
    injection Hrow as <-.
    specialize (Hrushing (Column "rushing_yards" 4 int_or_none)).
    discriminate Hrushing. right. left.
Qed.

(** C4, amended: every row of at least eight cells is emitted.  The
    numeric fields are filled group by group, the rushing group and (for a
    row of more than 13 cells) the receiving group, each inside one [try]:
    a field is what its own cell gives (absent when that cell is empty or
    does not coerce) provided no cell before it in its group failed to
    coerce, and absent otherwise.  An empty cell never counts as a
    failure, so it leaves only its own field absent. *)
Theorem fields_abstain_by_group (player_id : Z) (player_name team : string)
    (cell_texts : list string) :
  (8 ≤ length cell_texts)%nat →
  ∃ game_data,
    game_row player_id player_name team cell_texts = Some game_data ∧
    (∀ pre c post, rushing_columns = pre ++ c :: post →
       field game_data (col_key c)
       = if forallb (coerces cell_texts) pre
         then abstaining (col_conv c) (cell_texts !! col_index c)
         else None) ∧
    (∀ pre c post, receiving_columns = pre ++ c :: post →
       field game_data (col_key c)
       = if (13 <? length cell_texts)%nat && forallb (coerces cell_texts) pre
         then abstaining (col_conv c) (cell_texts !! col_index c)
         else None) ∧
    (∀ c, c ∈ rushing_columns ++ receiving_columns →
       col_conv c "" = Some Py.VNone).
Proof.
  intros Hlen.
  destruct (game_row_long player_id player_name team cell_texts Hlen)
    as (date & opponent & result & Hrow).
  eexists. split; [exact Hrow|]. cbv zeta. split_and!.
  - intros pre c post Hsplit.
    assert (c ∈ rushing_columns) as Hc.
    { rewrite Hsplit. apply elem_of_app. right. by left. }
    unfold abstaining. apply field_of_lookup.
    assert (run_try (assign cell_texts <$> rushing_columns)
              (game_info player_id player_name team date opponent result)
            !! col_key c
            = if forallb (coerces cell_texts) pre
              then match cell_texts !! col_index c ≫= col_conv c with
                   | Some v => Some v
                   | None => None
                   end
              else None) as Hrush.
    { rewrite Hsplit, run_try_lookup by (rewrite <- Hsplit; compute_done).
      rewrite game_info_no_stat; [done|].
      apply elem_of_app. by left. }
    destruct (13 <? length cell_texts)%nat; [|done].
    rewrite run_try_other; [done|]. by apply rushing_key_not_receiving.
  - intros pre c post Hsplit.
    assert (c ∈ receiving_columns) as Hc.
    { rewrite Hsplit. apply elem_of_app. right. by left. }
    assert (run_try (assign cell_texts <$> rushing_columns)
              (game_info player_id player_name team date opponent result)
            !! col_key c = None) as Hrush.
    { rewrite run_try_other by by apply receiving_key_not_rushing.
      apply game_info_no_stat. apply elem_of_app. by right. }
    unfold abstaining. apply field_of_lookup.
    destruct (13 <? length cell_texts)%nat; [|done]. cbn [andb].
    rewrite Hsplit, run_try_lookup by (rewrite <- Hsplit; compute_done).
    by rewrite Hrush.
  - intros c Hc.
    repeat (apply elem_of_cons in Hc as [->|Hc]; [done|]).
    by apply elem_of_nil in Hc.
Qed.

Lemma fields_abstain_by_group_witness :
  ∃ game_data,
    game_row 4241457 "Najee Harris" "pit" bad_attempts_row = Some game_data ∧
    (∀ pre c post, rushing_columns = pre ++ c :: post →
       field game_data (col_key c)
       = if forallb (coerces bad_attempts_row) pre
         then abstaining (col_conv c) (bad_attempts_row !! col_index c)
         else None) ∧
    (∀ pre c post, receiving_columns = pre ++ c :: post →
       field game_data (col_key c)
       = if (13 <? length bad_attempts_row)%nat
            && forallb (coerces bad_attempts_row) pre
         then abstaining (col_conv c) (bad_attempts_row !! col_index c)
         else None) ∧
    (∀ c, c ∈ rushing_columns ++ receiving_columns →
       col_conv c "" = Some Py.VNone).
Proof.
  apply (fields_abstain_by_group 4241457 "Najee Harris" "pit"
           bad_attempts_row).
  simpl. lia.
Defined.

(** An empty attempts cell, by contrast, leaves the other fields alone. *)
Example empty_cell_only_its_field :
  ∃ game_data,
    game_row 4241457 "Najee Harris" "pit"
      [ "10/01"; "@KC"; "W 20-17"; ""; "80"; "5.3"; "1"; "22*" ]
    = Some game_data ∧
    field game_data "rushing_attempts" = None ∧
    field game_data "rushing_yards" = Some (Py.VInt 80) ∧
    field game_data "rushing_td" = Some (Py.VInt 1) ∧
    field game_data "rushing_lng" = None.
Proof. eexists. split; [reflexivity|]. split_and!; reflexivity. Qed.

End GameLogFacts.

(* ===================================================================== *)
(** * Properties of the roster extraction                                  *)
(* ===================================================================== *)

Module RosterFacts.
Import Roster.

(** ** The fallback position text *)

(** The first token of a cell when the cell is not empty and that token
    has at most three characters. *)
Definition short_token (text : string) : option string :=
  if Py.truthy text then
    match Py.split text with
    | tok :: _ => if (String.length tok <=? 3)%nat then Some tok else None
    | [] => None
    end
  else None.

Definition short_tokens (tds : list string) : list string :=
  omap short_token tds.

Lemma last_cons_default {A} (x d : A) (l : list A) :
  default d (last (x :: l)) = default x (last l).
Proof. rewrite last_cons. by destruct (last l). Qed.

Lemma scan_cells_no_rb position_text tds :
  Forall (λ text, Py.search_rb text = false) tds →
  scan_cells position_text tds
  = default position_text (last (short_tokens tds)).
Proof.
  intros Hno. revert position_text.
  induction Hno as [|text tds Htext _ IH]; intros position_text; [done|].
  cbn [scan_cells]. unfold short_tokens. cbn [omap list_omap].
  unfold short_token at 1. rewrite Htext.
  change (list_omap _ _ short_token tds) with (short_tokens tds).
  destruct (Py.truthy text); [|apply IH].
  destruct (Py.split text) as [|tok toks]; [apply IH|].
  destruct (String.length tok <=? 3)%nat; [|apply IH].
  by rewrite IH, last_cons_default.
Qed.

(** A roster row: name with jersey number, position, age, weight, years of
    experience, college. *)
Definition quarterback_row : list string :=
  [ "Daniel Jones8"; "QB"; "26"; "230 lbs"; "5"; "Duke" ].

(** C5 as stated, refuted: in a row without the word RB whose short tokens
    are "QB", "26", "230" and "5" in this order, the position text is the
    last of them, "5", and not the first, "QB". *)
Lemma fallback_is_not_first_token :
  Forall (λ text, Py.search_rb text = false) quarterback_row ∧
  short_tokens quarterback_row = [ "QB"; "26"; "230"; "5" ] ∧
  position_text_of (Anchor "/nfl/player/_/id/3917792/daniel-jones"
                      "Daniel Jones" (Some quarterback_row) None) = "5" ∧
  position_text_of (Anchor "/nfl/player/_/id/3917792/daniel-jones"
                      "Daniel Jones" (Some quarterback_row) None)
  ≠ default "" (head (short_tokens quarterback_row)).
Proof.
  split_and!; [|by vm_compute..].
  repeat (constructor; [by vm_compute|]). constructor.
Qed.

(** C5, amended: when no cell of the link's parent row holds the word RB,
    the position text is the last short token met, that is the first token
    of the latest non-empty cell whose first token has at most three
    characters, and the empty text when there is no such cell. *)
Theorem fallback_is_last_short_token (a : anchor) (tds : list string) :
  parent_tr a = Some tds →
  Forall (λ text, Py.search_rb text = false) tds →
  position_text_of a = default "" (last (short_tokens tds)).
Proof.
  intros Hrow Hno. unfold position_text_of. rewrite Hrow.
  by apply scan_cells_no_rb.
Qed.

Lemma fallback_is_last_short_token_witness :
  position_text_of (Anchor "/nfl/player/_/id/3917792/daniel-jones"
                      "Daniel Jones" (Some quarterback_row) None)
  = default "" (last (short_tokens quarterback_row)).
Proof.
  apply fallback_is_last_short_token.
  - reflexivity.
  - repeat (constructor; [vm_compute; reflexivity|]). constructor.
Defined.

(** ** De-duplication *)

(** The link has a name and its position text contains RB. *)
Definition is_rb_link (a : anchor) : bool :=
  Py.truthy (link_text a) && Py.contains "RB" (pos_norm_of a).

(** The row a link stands for, when it has a player id and is an RB
    link. *)
Definition candidate (team_abbrev : string) (a : anchor) : option entry :=
  id ← Py.search_player_id (href a);
  if is_rb_link a then Some (Entry team_abbrev (link_text a) id) else None.

(** A turn of the loop, on the candidate row. *)
Definition keep_new (st : list entry * gset string) (e : entry)
  : list entry * gset string :=
  if decide (player_id e ∈ st.2) then st
  else (st.1 ++ [e], {[ player_id e ]} ∪ st.2).

Lemma visit_candidate team_abbrev st a :
  visit team_abbrev st a
  = match candidate team_abbrev a with
    | Some e => keep_new st e
    | None => st
    end.
Proof.
  destruct st as [results seen_ids]. unfold visit, candidate, is_rb_link, keep_new.
  destruct (Py.search_player_id (href a)) as [id|]; [|done]. cbn.
  destruct (Py.truthy (link_text a)); cbn; [|done].
  destruct (Py.contains "RB" (pos_norm_of a)); cbn; by case_decide.
Qed.

Lemma foldl_visit team_abbrev st links :
  foldl (visit team_abbrev) st links
  = foldl keep_new st (omap (candidate team_abbrev) links).
Proof.
  revert st. induction links as [|a links IH]; intros st; [done|].
  cbn [foldl omap list_omap]. rewrite visit_candidate.
  change (list_omap _ _ (candidate team_abbrev) links)
    with (omap (candidate team_abbrev) links).
  destruct (candidate team_abbrev a); by rewrite IH.
Qed.

Lemma candidates_of_player_links team_abbrev links :
  omap (candidate team_abbrev) (find_all_player_links links)
  = omap (candidate team_abbrev) links.
Proof.
  unfold find_all_player_links.
  induction links as [|a links IH]; [done|].
  rewrite filter_cons. case_decide as Hm; csimpl; rewrite IH; [done|].
  unfold candidate. destruct (Py.search_player_id (href a)); [|done].
  destruct Hm. by eexists.
Qed.

Lemma fetch_team_roster_candidates team_abbrev links :
  fetch_team_roster team_abbrev links
  = (foldl keep_new ([], ∅) (omap (candidate team_abbrev) links)).1.
Proof.
  unfold fetch_team_roster.
  by rewrite foldl_visit, candidates_of_player_links.
Qed.

(** [seen_ids] holds the ids of [results], and no id occurs twice. *)
Definition consistent (st : list entry * gset string) : Prop :=
  NoDup (player_id <$> st.1) ∧ ∀ id, id ∈ st.2 ↔ id ∈ player_id <$> st.1.

Lemma keep_new_consistent st e : consistent st → consistent (keep_new st e).
Proof.
  intros [Hnd Hseen]. unfold keep_new. case_decide as Hin; [done|].
  split; cbn.
  - rewrite fmap_app. apply NoDup_app. split_and!; [done| |apply NoDup_singleton].
    intros id Hid [->|[]%elem_of_nil]%elem_of_cons. by apply Hin, Hseen.
  - intros id. rewrite fmap_app, elem_of_app, elem_of_union, Hseen.
    cbn. rewrite elem_of_singleton, list_elem_of_singleton. tauto.
Qed.

Lemma foldl_keep_new_consistent st es :
  consistent st → consistent (foldl keep_new st es).
Proof.
  revert st. induction es as [|e es IH]; intros st Hst; [done|].
  cbn. by apply IH, keep_new_consistent.
Qed.

Lemma keep_new_keeps st e x : x ∈ st.1 → x ∈ (keep_new st e).1.
Proof.
  intros Hx. unfold keep_new. case_decide; [done|]. cbn.
  apply elem_of_app. by left.
Qed.

Lemma foldl_keep_new_keeps st es x :
  x ∈ st.1 → x ∈ (foldl keep_new st es).1.
Proof.
  revert st. induction es as [|e es IH]; intros st Hx; [done|].
  cbn. by apply IH, keep_new_keeps.
Qed.

Lemma keep_new_seen st e id :
  id ∈ (keep_new st e).2 → id ∈ st.2 ∨ id = player_id e.
Proof.
  unfold keep_new. case_decide; [by left|]. cbn.
  rewrite elem_of_union, elem_of_singleton. tauto.
Qed.

(** The first row with a given id is kept. *)
Lemma foldl_keep_new_first st pre e post :
  player_id e ∉ st.2 →
  (∀ b, b ∈ pre → player_id b ≠ player_id e) →
  e ∈ (foldl keep_new st (pre ++ e :: post)).1.
Proof.
  revert st. induction pre as [|b pre IH]; intros st Hnew Hpre.
  - cbn. apply foldl_keep_new_keeps. unfold keep_new.
    rewrite decide_False by done. cbn. apply elem_of_app. right. by left.
  - cbn. apply IH.
    + intros [Hin|Heq]%keep_new_seen; [done|].
      apply (Hpre b); [by left|done].
    + intros b' Hb'. apply Hpre. by right.
Qed.

Lemma candidate_Some team_abbrev a e :
  candidate team_abbrev a = Some e →
  Py.search_player_id (href a) = Some (player_id e) ∧ is_rb_link a = true ∧
  e = Entry team_abbrev (link_text a) (player_id e).
Proof.
  unfold candidate. destruct (Py.search_player_id (href a)) as [id|]; [|done].
  cbn. destruct (is_rb_link a); [|done]. by intros [= <-].
Qed.

Lemma candidate_rb team_abbrev a id :
  Py.search_player_id (href a) = Some id → is_rb_link a = true →
  candidate team_abbrev a = Some (Entry team_abbrev (link_text a) id).
Proof. intros Hid Hrb. unfold candidate. by rewrite Hid; cbn; rewrite Hrb. Qed.

Lemma empty_consistent : consistent ([], ∅).
Proof.
  split; cbn; [constructor|]. intros id. split.
  - by intros ?%not_elem_of_empty.
  - by intros ?%elem_of_nil.
Qed.

(** C9: links that carry the same player id give one row.  Two RB links
    with the same id give exactly the row of the first; on any page no
    player id occurs twice in the result; and the row of an id is the row
    of the first RB link that carries it. *)
Theorem roster_deduplicated (team_abbrev : string) :
  (∀ a1 a2 id,
     Py.search_player_id (href a1) = Some id →
     Py.search_player_id (href a2) = Some id →
     is_rb_link a1 = true → is_rb_link a2 = true →
     fetch_team_roster team_abbrev [a1; a2]
     = [Entry team_abbrev (link_text a1) id]) ∧
  (∀ links, NoDup (player_id <$> fetch_team_roster team_abbrev links)) ∧
  (∀ pre a post id,
     Py.search_player_id (href a) = Some id →
     is_rb_link a = true →
     (∀ b, b ∈ pre → Py.search_player_id (href b) = Some id →
           is_rb_link b = false) →
     Entry team_abbrev (link_text a) id
       ∈ fetch_team_roster team_abbrev (pre ++ a :: post) ∧
     ∀ e, e ∈ fetch_team_roster team_abbrev (pre ++ a :: post) →
          player_id e = id → e = Entry team_abbrev (link_text a) id).
Proof.
  assert (∀ links, NoDup (player_id <$> fetch_team_roster team_abbrev links))
    as Hnodup.
  { intros links. rewrite fetch_team_roster_candidates.
    apply (foldl_keep_new_consistent _ _ empty_consistent). }
  split_and!; [|done|].
  - intros a1 a2 id H1 H2 Hrb1 Hrb2.
    rewrite fetch_team_roster_candidates. cbn [omap list_omap].
    rewrite (candidate_rb _ a1 id H1 Hrb1), (candidate_rb _ a2 id H2 Hrb2).
    cbn [foldl]. unfold keep_new at 2. cbn [fst snd player_id].
    rewrite decide_False by apply not_elem_of_empty.
    unfold keep_new. cbn [fst snd player_id].
    rewrite decide_True; [done|]. apply elem_of_union. left.
    by apply elem_of_singleton.
  - intros pre a post id Hid Hrb Hpre.
    assert (Entry team_abbrev (link_text a) id
              ∈ fetch_team_roster team_abbrev (pre ++ a :: post)) as Hin.
    { rewrite fetch_team_roster_candidates, omap_app. cbn [omap list_omap].
      rewrite (candidate_rb _ a id Hid Hrb).
      apply foldl_keep_new_first; cbn [fst snd player_id].
      - apply not_elem_of_empty.
      - intros b (l & Hl & Hb)%list_elem_of_omap Heq.
        apply candidate_Some in Hb as (Hbid & Hbrb & _).
        rewrite Heq in Hbid. specialize (Hpre l Hl Hbid). congruence. }
    split; [done|]. intros e He Heid.
    by apply (RankingFacts.NoDup_fmap_eq player_id _ _ _ (Hnodup _) He Hin).
Qed.

Definition first_link : anchor :=
  Anchor "/nfl/player/_/id/4241457/najee-harris" "Najee Harris"
         (Some [ "Najee Harris22"; "RB"; "26" ]) None.

Definition second_link : anchor :=
  Anchor "https://www.espn.com/nfl/player/_/id/4241457" "N. Harris"
         None (Some "RB").

Lemma roster_deduplicated_witness :
  fetch_team_roster "pit" [first_link; second_link]
  = [Entry "pit" "Najee Harris" "4241457"].
Proof.
  destruct (roster_deduplicated "pit") as (Htwo & _ & _).
  apply (Htwo first_link second_link "4241457"); reflexivity.
Defined.

End RosterFacts.

(* ===================================================================== *)
(** * Further properties: the built-ins                                    *)
(* ===================================================================== *)

Module PyLemmas.

(** The characters of a text, first to last. *)
Definition chars (s : string) : list ascii := list_ascii_of_string s.

Lemma chars_map_chars f s : chars (Py.map_chars f s) = f <$> chars s.
Proof.
  induction s as [|c r IH]; [done|].
  change (chars (Py.map_chars f (String c r)))
    with (f c :: chars (Py.map_chars f r)).
  by rewrite IH.
Qed.

Lemma chars_remove_char c s :
  chars (Py.remove_all (String c EmptyString) s)
  = filter (λ x, x ≠ c) (chars s).
Proof.
  cbn [Py.remove_all]. induction s as [|d r IH]; [done|].
  change (chars (String d r)) with (d :: chars r).
  cbn [Py.delete_from Py.starts_with String.length Nat.sub].
  rewrite andb_true_r, filter_cons. unfold Py.eq_char.
  destruct (Ascii.eqb_spec c d) as [->|Hne].
  - rewrite decide_False by (by intros []). apply IH.
  - rewrite decide_True by congruence.
    change (chars (String d ?x)) with (d :: chars x). f_equal. apply IH.
Qed.

Lemma chars_lstrip_suffix s : chars (Py.lstrip s) `suffix_of` chars s.
Proof.
  induction s as [|c r IH]; [done|]. cbn [Py.lstrip].
  destruct (Py.is_space c); [|done].
  change (chars (String c r)) with (c :: chars r). by apply suffix_cons_r.
Qed.

Lemma chars_rstrip_prefix s : chars (Py.rstrip s) `prefix_of` chars s.
Proof.
  induction s as [|c r IH]; [done|]. cbn [Py.rstrip].
  change (chars (String c r)) with (c :: chars r).
  destruct (Py.rstrip r) as [|c' r'] eqn:Hr.
  - destruct (Py.is_space c); [apply prefix_nil|].
    apply (prefix_cons c [] (chars r)), prefix_nil.
  - by apply (prefix_cons c (chars (String c' r')) (chars r)).
Qed.

Lemma chars_strip s c : c ∈ chars (Py.strip s) → c ∈ chars s.
Proof.
  unfold Py.strip. intros Hc.
  eapply elem_of_suffix; [|apply chars_lstrip_suffix].
  eapply elem_of_prefix; [exact Hc|apply chars_rstrip_prefix].
Qed.

Lemma has_char_elem_of c s : Py.has_char c s = true ↔ c ∈ chars s.
Proof.
  induction s as [|d r IH].
  - split; [done|]. by intros ?%elem_of_nil.
  - change (chars (String d r)) with (d :: chars r).
    cbn [Py.has_char]. rewrite orb_true_iff, elem_of_cons, IH.
    unfold Py.eq_char. destruct (Ascii.eqb_spec d c) as [->|Hne]; [tauto|].
    split; (intros [?|?]; [done || congruence|by right]).
Qed.

(** ** Digits *)

Lemma digit_not_space c : Py.is_digit c = true → Py.is_space c = false.
Proof.
  unfold Py.is_digit, Py.is_space, Py.between.
  rewrite !andb_true_iff, !N.leb_le. intros [H1 H2].
  apply orb_false_iff. split; apply andb_false_iff.
  - right. apply N.leb_gt. lia.
  - right. apply N.leb_gt. lia.
Qed.

Lemma digit_val_bounds c : Py.is_digit c = true → 0 ≤ Py.digit_val c ≤ 9.
Proof.
  unfold Py.is_digit, Py.between, Py.digit_val.
  rewrite !andb_true_iff, !N.leb_le. lia.
Qed.

Lemma lstrip_no_space c r :
  Py.is_space c = false → Py.lstrip (String c r) = String c r.
Proof. intros Hc. cbn. by rewrite Hc. Qed.

Lemma rstrip_digits s : Py.all_digits s = true → Py.rstrip s = s.
Proof.
  induction s as [|c r IH]; [done|]. cbn [Py.all_digits Py.rstrip].
  intros [Hc Hr]%andb_true_iff. rewrite (IH Hr).
  destruct r; [|done]. by rewrite (digit_not_space c Hc).
Qed.

Lemma strip_digits s : Py.all_digits s = true → Py.strip s = s.
Proof.
  intros Hs. unfold Py.strip. destruct s as [|c r]; [done|].
  pose proof Hs as [Hc _]%andb_true_iff.
  rewrite (lstrip_no_space c r (digit_not_space c Hc)).
  by apply rstrip_digits.
Qed.

Lemma int_digits_all_digits acc s :
  Py.all_digits s = true → 0 ≤ acc →
  ∃ n, Py.int_digits acc false s = Some n ∧ 0 ≤ n.
Proof.
  revert acc. induction s as [|c r IH]; intros acc Hs Hacc.
  - by exists acc.
  - cbn [Py.all_digits] in Hs. apply andb_true_iff in Hs as [Hc Hr].
    cbn [Py.int_digits]. rewrite Hc. apply IH; [done|].
    pose proof (digit_val_bounds c Hc). lia.
Qed.

Lemma digit_not_sign c :
  Py.is_digit c = true → c ≠ "-"%char ∧ c ≠ "+"%char.
Proof. split; intros ->; discriminate. Qed.

Lemma int_no_sign c r :
  c ≠ "-"%char → c ≠ "+"%char →
  match String c r with
  | String "-" t => Z.opp <$> Py.int_unsigned t
  | String "+" t => Py.int_unsigned t
  | t => Py.int_unsigned t
  end = Py.int_unsigned (String c r).
Proof.
  intros Hm Hp.
  destruct c as [[] [] [] [] [] [] [] []]; try reflexivity; congruence.
Qed.

(** On a text for which [str.isdigit] holds, [int] returns, and returns a
    number that is not negative. *)
Lemma int_of_isdigit s :
  Py.isdigit s = true → ∃ n, Py.int s = Some n ∧ 0 ≤ n.
Proof.
  unfold Py.isdigit. intros [Ht Hs]%andb_true_iff.
  unfold Py.int. rewrite (strip_digits s Hs).
  destruct s as [|c r]; [done|].
  pose proof Hs as [Hc Hr]%andb_true_iff.
  destruct (digit_not_sign c Hc) as [Hm Hp].
  rewrite (int_no_sign c r Hm Hp). cbn [Py.int_unsigned]. rewrite Hc.
  apply int_digits_all_digits; [done|].
  pose proof (digit_val_bounds c Hc). lia.
Qed.

Lemma leading_digits_all_digits s : Py.all_digits (Py.leading_digits s) = true.
Proof.
  induction s as [|c r IH]; [done|]. cbn [Py.leading_digits].
  destruct (Py.is_digit c) eqn:Hc; [|done]. cbn. by rewrite Hc.
Qed.

(** The id that the player-link pattern captures is a non-empty run of
    digits. *)
Lemma search_player_id_digits s id :
  Py.search_player_id s = Some id → Py.isdigit id = true.
Proof.
  induction s as [|c r IH]; [done|]. cbn [Py.search_player_id].
  destruct (if Py.starts_with "/player/_/id/" (String c r)
            then Py.leading_digits (Py.drop_chars 13 (String c r))
            else EmptyString) as [|d t] eqn:Hhere; [exact IH|].
  intros [= <-]. unfold Py.isdigit. cbn [Py.truthy andb].
  destruct (Py.starts_with "/player/_/id/" (String c r)); [|done].
  rewrite <- Hhere. apply leading_digits_all_digits.
Qed.

End PyLemmas.

(* ===================================================================== *)
(** * Further properties: table and column names                           *)
(* ===================================================================== *)

Module SqliteFacts.
Import PyLemmas.

Lemma has_char_app c a b :
  Py.has_char c (a +:+ b) = Py.has_char c a || Py.has_char c b.
Proof.
  induction a as [|d r IH]; [done|].
  change (String d r +:+ b) with (String d (r +:+ b)).
  cbn [Py.has_char]. by rewrite IH, orb_assoc.
Qed.

Lemma basename_no_slash f : Py.has_char "/" f = false → Py.basename f = f.
Proof.
  destruct f as [|c r]; [done|]. cbn [Py.has_char Py.basename].
  intros [Hc Hr]%orb_false_iff. by rewrite Hr, Hc.
Qed.

Lemma basename_after_slash dir f :
  Py.has_char "/" f = false → Py.basename (dir +:+ "/" +:+ f) = f.
Proof.
  intros Hf. induction dir as [|c r IH].
  - change ("" +:+ "/" +:+ f) with (String "/" f).
    cbn [Py.basename]. by rewrite Hf.
  - change (String c r +:+ "/" +:+ f) with (String c (r +:+ "/" +:+ f)).
    cbn [Py.basename]. rewrite has_char_app.
    change (Py.has_char "/" ("/" +:+ f)) with true.
    by rewrite orb_true_r.
Qed.

Lemma splitext_from_stem seen stem ext :
  Py.has_char "." stem = false → Py.has_char "." ext = false →
  seen = true ∨ Py.truthy stem = true →
  Py.splitext_from seen (stem +:+ "." +:+ ext) = (stem, "." +:+ ext).
Proof.
  revert seen. induction stem as [|c r IH]; intros seen Hstem Hext Hseen.
  - destruct Hseen as [->|]; [|done].
    change ("" +:+ "." +:+ ext) with (String "." ext).
    cbn [Py.splitext_from]. by rewrite Hext.
  - cbn [Py.has_char] in Hstem. apply orb_false_iff in Hstem as [Hc Hr].
    change (String c r +:+ "." +:+ ext) with (String c (r +:+ "." +:+ ext)).
    cbn [Py.splitext_from]. rewrite Hc. cbn [andb negb].
    rewrite orb_true_r, (IH true Hr Hext); [done|by left].
Qed.

(** The characters a table name is made of: the characters of the stem,
    one for one, with blank and hyphen turned into underscore and capital
    letters into small ones. *)
Definition table_char (c : ascii) : ascii :=
  Py.lower_char
    ((λ c, if Py.eq_char c "-" then "_"%char else c)
       ((λ c, if Py.eq_char c " " then "_"%char else c) c)).

Lemma table_char_safe c :
  table_char c ≠ " "%char ∧ table_char c ≠ "-"%char ∧
  Py.is_upper (table_char c) = false ∧
  (c ≠ "/"%char → table_char c ≠ "/"%char).
Proof.
  destruct c as [[] [] [] [] [] [] [] []]; vm_compute;
    split_and!; congruence.
Qed.

Lemma splitext_from_join seen f :
  (Py.splitext_from seen f).1 +:+ (Py.splitext_from seen f).2 = f.
Proof.
  revert seen. induction f as [|c r IH]; intros seen; [done|].
  cbn [Py.splitext_from].
  destruct (Py.eq_char c "." && seen && negb (Py.has_char "." r)); [done|].
  specialize (IH (seen || negb (Py.eq_char c "."))).
  destruct (Py.splitext_from (seen || negb (Py.eq_char c ".")) r)
    as [root ext].
  cbn [fst snd] in *.
  change (String c root +:+ ext) with (String c (root +:+ ext)).
  by rewrite IH.
Qed.

Lemma basename_has_no_slash p : Py.has_char "/" (Py.basename p) = false.
Proof.
  induction p as [|c r IH]; [done|]. cbn [Py.basename].
  destruct (Py.has_char "/" r) eqn:Hr; [done|].
  destruct (Py.eq_char c "/") eqn:Hc; [done|].
  cbn [Py.has_char]. by rewrite Hc, Hr.
Qed.

Lemma table_name_chars path :
  chars (Sqlite.csv_to_table_name path)
  = table_char <$> chars (Py.splitext (Py.basename path)).1.
Proof.
  unfold Sqlite.csv_to_table_name.
  destruct (Py.splitext (Py.basename path)) as [name ext]. cbn [fst].
  unfold Py.lower, Py.replace_char.
  rewrite !chars_map_chars, <- !list_fmap_compose. done.
Qed.

Lemma chars_app a b : chars (a +:+ b) = chars a ++ chars b.
Proof.
  induction a as [|c r IH]; [done|].
  change (chars (String c r +:+ b)) with (c :: chars (r +:+ b)).
  by rewrite IH.
Qed.

(** X1: the table name is made from the stem of the file name alone.  For
    a stem without slash or dot and an extension without slash or dot, the
    directory and the extension play no part: the name is the stem with
    blanks and hyphens turned into underscores, in lower case. *)
Theorem table_name_from_stem (dir stem ext : string) :
  Py.truthy stem = true →
  Py.has_char "/" stem = false → Py.has_char "." stem = false →
  Py.has_char "/" ext = false → Py.has_char "." ext = false →
  Sqlite.csv_to_table_name (dir +:+ "/" +:+ stem +:+ "." +:+ ext)
  = Py.lower (Py.replace_char "-" "_" (Py.replace_char " " "_" stem)) ∧
  Sqlite.csv_to_table_name (stem +:+ "." +:+ ext)
  = Py.lower (Py.replace_char "-" "_" (Py.replace_char " " "_" stem)).
Proof.
  intros Hstem Hs1 Hs2 He1 He2.
  assert (Py.has_char "/" (stem +:+ "." +:+ ext) = false) as Hfile.
  { rewrite !has_char_app, Hs1, He1. done. }
  assert (Py.splitext (stem +:+ "." +:+ ext) = (stem, "." +:+ ext)) as Hsplit.
  { apply splitext_from_stem; [done..|by right]. }
  unfold Sqlite.csv_to_table_name.
  rewrite (basename_after_slash dir _ Hfile), (basename_no_slash _ Hfile).
  by rewrite Hsplit.
Qed.

Lemma table_name_from_stem_witness :
  Sqlite.csv_to_table_name ("data" +:+ "/" +:+ "RB vs-Top" +:+ "." +:+ "csv")
  = Py.lower (Py.replace_char "-" "_" (Py.replace_char " " "_" "RB vs-Top")) ∧
  Sqlite.csv_to_table_name ("RB vs-Top" +:+ "." +:+ "csv")
  = Py.lower (Py.replace_char "-" "_" (Py.replace_char " " "_" "RB vs-Top")).
Proof. apply table_name_from_stem; reflexivity. Defined.

(** X2: whatever the path, the table name holds no blank, no hyphen, no
    slash and no capital letter. *)
Theorem table_name_safe (path : string) :
  Forall (λ c, c ≠ " "%char ∧ c ≠ "-"%char ∧ c ≠ "/"%char ∧
               Py.is_upper c = false)
         (chars (Sqlite.csv_to_table_name path)).
Proof.
  rewrite table_name_chars. apply Forall_fmap, Forall_forall.
  intros c Hc. cbn.
  assert (c ≠ "/"%char) as Hslash.
  { intros ->.
    pose proof (basename_has_no_slash path) as Hno.
    rewrite <- (splitext_from_join false (Py.basename path)) in Hno.
    rewrite has_char_app in Hno. apply orb_false_iff in Hno as [Hno _].
    apply has_char_elem_of in Hc. unfold Py.splitext in Hc. congruence. }
  destruct (table_char_safe c) as (H1 & H2 & H3 & H4). auto.
Qed.

(** X3: whatever the column name, its normalised form holds no blank, no
    dot and no parenthesis. *)
Theorem normalize_column_safe (c : string) :
  Forall (λ x, x ≠ " "%char ∧ x ≠ "."%char ∧ x ≠ "("%char ∧ x ≠ ")"%char)
         (chars (Sqlite.normalize_column c)).
Proof.
  unfold Sqlite.normalize_column, Py.replace_char.
  rewrite !chars_remove_char, chars_map_chars. apply Forall_forall.
  intros x (Hclose & (Hopen & (Hdot & Hx)%list_elem_of_filter)%list_elem_of_filter)%list_elem_of_filter.
  split_and!; [|done..].
  apply list_elem_of_fmap in Hx as (y & -> & _).
  unfold Py.eq_char. destruct (Ascii.eqb_spec y " "); [done|congruence].
Qed.

Example column_names :
  Sqlite.normalize_column "Rushing Yards (Yds)" = "Rushing_Yards_Yds" ∧
  Sqlite.normalize_column " Yards Per Game (Y/G) " = "Yards_Per_Game_Y/G" ∧
  Sqlite.csv_to_table_name "data/rb_vs_top.csv" = "rb_vs_top" ∧
  Sqlite.csv_to_table_name "defense_stats.csv" = "defense_stats".
Proof. vm_compute. done. Qed.

End SqliteFacts.

(* ===================================================================== *)
(** * Further properties: the depth chart                                  *)
(* ===================================================================== *)

Module DepthChartFacts.
Import DepthChart.

Lemma find_rb_row_Some k rows n :
  find_rb_row k rows = Some n ↔
  ∃ i r,
    n = (k + i)%nat ∧ rows !! i = Some r ∧
    Py.contains "RB" (row_text r) = true ∧
    ∀ j r', (j < i)%nat → rows !! j = Some r' →
            Py.contains "RB" (row_text r') = false.
Proof.
  revert k. induction rows as [|r0 rest IH]; intros k.
  - split; [done|]. by intros (i & r & _ & Hr & _).
  - cbn [find_rb_row]. destruct (Py.contains "RB" (row_text r0)) eqn:H0.
    + split.
      * intros [= <-]. exists 0%nat, r0. split_and!; [lia|done|done|].
        intros j r' Hj. lia.
      * intros (i & r & -> & Hr & Hrb & Hbefore).
        destruct i as [|i]; [f_equal; lia|].
        specialize (Hbefore 0%nat r0 ltac:(lia) eq_refl). congruence.
    + rewrite IH. split.
      * intros (i & r & -> & Hr & Hrb & Hbefore).
        exists (S i), r. split_and!; [lia|done|done|].
        intros [|j] r' Hj Hr'; [by injection Hr' as <-|].
        apply (Hbefore j r'); [lia|done].
      * intros (i & r & -> & Hr & Hrb & Hbefore).
        destruct i as [|i]; [injection Hr as <-; congruence|].
        exists i, r. split_and!; [lia|done|done|].
        intros j r' Hj Hr'. apply (Hbefore (S j) r'); [lia|done].
Qed.

Lemma find_player_link_Some links a :
  find_player_link links = Some a ↔
  ∃ skipped later,
    links = skipped ++ a :: later ∧
    Forall (λ b, Py.search_player_id (href b) = None) skipped ∧
    is_Some (Py.search_player_id (href a)).
Proof.
  induction links as [|b rest IH].
  - split; [done|]. intros (skipped & later & Heq & _).
    by destruct skipped.
  - cbn [find_player_link]. case_bool_decide as Hb.
    + split.
      * intros [= <-]. exists [], rest. split_and!; [done|constructor|done].
      * intros (skipped & later & Heq & Hskip & Ha).
        destruct skipped as [|b' skipped]; [by injection Heq as <- _|].
        injection Heq as <- _. apply Forall_cons in Hskip as [Hnone _].
        rewrite Hnone in Hb. by destruct Hb.
    + rewrite IH. split.
      * intros (skipped & later & -> & Hskip & Ha).
        exists (b :: skipped), later. split_and!; [done| |done].
        constructor; [|done].
        destruct (Py.search_player_id (href b)); [|done].
        destruct Hb. by eexists.
      * intros (skipped & later & Heq & Hskip & Ha).
        destruct skipped as [|b' skipped].
        -- injection Heq as <- _. contradiction.
        -- injection Heq as <- ->. apply Forall_cons in Hskip as [_ Hskip].
           by exists skipped, later.
Qed.

(** X4: the depth chart yields a starter exactly in this situation: the
    page has the [div] with at least two tables; among the rows of the
    first table, header left out, there is a first one whose text contains
    RB; the second table, header left out, has a row at the same index;
    and the first player link of that row has a name.  The starter is then
    that link's name and id. *)
Theorem starter_found_iff (page : soup) (p : player) :
  extract_starting_rb_from_depth_table page = Some p ↔
  ∃ pos_table player_table others i pos_row player_row skipped a later,
    page = Some (pos_table :: player_table :: others) ∧
    drop 1 pos_table !! i = Some pos_row ∧
    Py.contains "RB" (row_text pos_row) = true ∧
    (∀ j r, (j < i)%nat → drop 1 pos_table !! j = Some r →
            Py.contains "RB" (row_text r) = false) ∧
    drop 1 player_table !! i = Some player_row ∧
    row_links player_row = skipped ++ a :: later ∧
    Forall (λ b, Py.search_player_id (href b) = None) skipped ∧
    Py.search_player_id (href a) = Some (player_id p) ∧
    link_text a = player_name p ∧
    Py.truthy (player_name p) = true.
Proof.
  split.
  - unfold extract_starting_rb_from_depth_table.
    destruct page as [[|pos_table [|player_table others]]|]; try done.
    destruct (find_rb_row 0 (drop 1 pos_table)) as [n|] eqn:Hfind; [|done].
    apply find_rb_row_Some in Hfind as (i & pos_row & -> & Hpos & Hrb & Hbefore).
    cbn [Nat.add].
    destruct (drop 1 player_table !! i) as [player_row|] eqn:Hrow; [|done].
    destruct (find_player_link (row_links player_row)) as [a|] eqn:Hlink;
      [|done].
    apply find_player_link_Some in Hlink as (skipped & later & Hlinks & Hskip & _).
    unfold extract_player_from_link.
    destruct (Py.search_player_id (href a)) as [id|] eqn:Hid; [|done].
    destruct (Py.truthy (link_text a)) eqn:Hname; [|done].
    intros [= <-].
    exists pos_table, player_table, others, i, pos_row, player_row,
      skipped, a, later.
    by split_and!.
  - intros (pos_table & player_table & others & i & pos_row & player_row
            & skipped & a & later & -> & Hpos & Hrb & Hbefore & Hrow
            & Hlinks & Hskip & Hid & Hname & Htruthy).
    unfold extract_starting_rb_from_depth_table.
    assert (find_rb_row 0 (drop 1 pos_table) = Some i) as ->.
    { apply find_rb_row_Some. by exists i, pos_row. }
    rewrite Hrow.
    assert (find_player_link (row_links player_row) = Some a) as ->.
    { apply find_player_link_Some. exists skipped, later.
      split_and!; [done..|]. by eexists. }
    unfold extract_player_from_link. rewrite Hid, Hname, Htruthy.
    by destruct p.
Qed.

Definition sample_positions : list row :=
  [ Row "" []; Row "QB" []; Row "RB" []; Row "WR" [] ].

Definition sample_players : list row :=
  [ Row "Starter2nd" [];
    Row "Russell Wilson" [Link "/nfl/player/_/id/14881/russell-wilson"
                               "Russell Wilson"];
    Row "Najee HarrisJaylen Warren"
        [ Link "/nfl/team/_/name/pit" "";
          Link "/nfl/player/_/id/4241457/najee-harris" "Najee Harris";
          Link "/nfl/player/_/id/4569987/jaylen-warren" "Jaylen Warren" ];
    Row "George Pickens" [] ].

Lemma starter_found_iff_witness :
  extract_starting_rb_from_depth_table
    (Some [sample_positions; sample_players])
  = Some (Player "Najee Harris" "4241457").
Proof.
  apply starter_found_iff.
  exists sample_positions, sample_players, [], 1%nat, (Row "RB" []).
  eexists _, [_], _, _.
  split_and!; try reflexivity.
  - intros [|j] r Hj Hr; [|lia]. cbn in Hr. by injection Hr as <-.
  - repeat constructor.
Defined.

(** The starter depends on the two tables' rows below their headers
    and on nothing else: the header rows and any further table of the
    [div] can be exchanged without changing the result. *)
Theorem starter_ignores_headers (header1 header1' header2 header2' : row)
    (pos_rows player_rows : list row) (others others' : list (list row)) :
  extract_starting_rb_from_depth_table
    (Some ((header1 :: pos_rows) :: (header2 :: player_rows) :: others))
  = extract_starting_rb_from_depth_table
      (Some ((header1' :: pos_rows) :: (header2' :: player_rows) :: others')).
Proof. reflexivity. Qed.

(** X5: only the first player link of the aligned row is looked at.  When
    that link has no text, no starter is returned, whatever links follow
    it in the row. *)
Theorem nameless_first_link_no_starter (pos_table player_table : list row)
    (others : list (list row)) (i : nat) (player_row : row)
    (skipped later : list link) (a : link) :
  find_rb_row 0 (drop 1 pos_table) = Some i →
  drop 1 player_table !! i = Some player_row →
  row_links player_row = skipped ++ a :: later →
  Forall (λ b, Py.search_player_id (href b) = None) skipped →
  is_Some (Py.search_player_id (href a)) →
  link_text a = "" →
  extract_starting_rb_from_depth_table
    (Some (pos_table :: player_table :: others)) = None.
Proof.
  intros Hfind Hrow Hlinks Hskip Ha Hname.
  unfold extract_starting_rb_from_depth_table. rewrite Hfind, Hrow.
  assert (find_player_link (row_links player_row) = Some a) as ->.
  { apply find_player_link_Some. by exists skipped, later. }
  unfold extract_player_from_link. rewrite Hname.
  by destruct (Py.search_player_id (href a)).
Qed.

Definition nameless_players : list row :=
  [ Row "Starter2nd" [];
    Row "Russell Wilson" [];
    Row "Jaylen Warren"
        [ Link "/nfl/player/_/id/4241457/najee-harris" "";
          Link "/nfl/player/_/id/4569987/jaylen-warren" "Jaylen Warren" ] ].

Lemma nameless_first_link_no_starter_witness :
  extract_starting_rb_from_depth_table
    (Some [sample_positions; nameless_players]) = None.
Proof.
  eapply (nameless_first_link_no_starter sample_positions nameless_players
            [] 1 _ [] [_]).
  - reflexivity.
  - reflexivity.
  - reflexivity.
  - constructor.
  - by eexists.
  - reflexivity.
Defined.

(** ** The loop over the teams *)

Lemma starters_from st site teams :
  foldl
    (λ rows team,
       match get_starting_rb_for_team team (site team) with
       | Some res => rows ++ [res]
       | None => rows
       end) st teams
  = st ++ omap (λ team, get_starting_rb_for_team team (site team)) teams.
Proof.
  revert st. induction teams as [|t teams IH]; intros st.
  - by rewrite app_nil_r.
  - cbn [foldl omap list_omap]. rewrite IH.
    destruct (get_starting_rb_for_team t (site t)); [|done].
    by rewrite <- app_assoc.
Qed.

Lemma scrape_all_starting_rbs_omap site team_abbrevs :
  scrape_all_starting_rbs site team_abbrevs
  = omap (λ team, get_starting_rb_for_team team (site team))
      (Roster.teams_or_default team_abbrevs).
Proof. unfold scrape_all_starting_rbs. by rewrite starters_from. Qed.

Lemma extract_starter_named page p :
  extract_starting_rb_from_depth_table page = Some p →
  Py.isdigit (player_id p) = true ∧ Py.truthy (player_name p) = true.
Proof.
  unfold extract_starting_rb_from_depth_table.
  destruct page as [[|pos_table [|player_table others]]|]; try done.
  destruct (find_rb_row 0 (drop 1 pos_table)) as [n|]; [|done].
  destruct (drop 1 player_table !! n) as [player_row|]; [|done].
  destruct (find_player_link (row_links player_row)) as [a|]; [|done].
  unfold extract_player_from_link.
  destruct (Py.search_player_id (href a)) as [id|] eqn:Hid; [|done].
  destruct (Py.truthy (link_text a)) eqn:Hname; [|done].
  intros [= <-]. split; [|done].
  by apply (PyLemmas.search_player_id_digits (href a)).
Qed.

Lemma get_starting_rb_for_team_Some team_abbrev resp res :
  get_starting_rb_for_team team_abbrev resp = Some res →
  team res = team_abbrev ∧ depth_rank res = "RB1" ∧
  Py.isdigit (s_player_id res) = true ∧
  Py.truthy (s_player_name res) = true.
Proof.
  unfold get_starting_rb_for_team. destruct resp as [|page]; [done|].
  destruct (extract_starting_rb_from_depth_table page) as [p|] eqn:Hp; [|done].
  intros [= <-]. cbn.
  apply extract_starter_named in Hp as [Hid Hname]. by split_and!.
Qed.

Lemma teams_or_default_nil :
  Roster.teams_or_default (Some [])
  = Roster.teams_or_default (Some Roster.TEAM_ABBREVS).
Proof. reflexivity. Qed.

(** X6: the batch gives at most one row per requested team, in the order
    of the request: the teams of its rows are the requested teams for
    which a starter was found, a team whose request failed among those
    left out.  Every row is ranked RB1 and carries a name and an id made
    of digits.  An empty list of teams is the whole league. *)
Theorem starters_one_per_team (site : string → response)
    (team_abbrevs : option (list string)) :
  team <$> scrape_all_starting_rbs site team_abbrevs
  = filter (λ t, is_Some (get_starting_rb_for_team t (site t)))
      (Roster.teams_or_default team_abbrevs) ∧
  Forall (λ res, depth_rank res = "RB1" ∧
                 Py.isdigit (s_player_id res) = true ∧
                 Py.truthy (s_player_name res) = true)
         (scrape_all_starting_rbs site team_abbrevs) ∧
  (∀ t, site t = RequestException →
        t ∉ team <$> scrape_all_starting_rbs site team_abbrevs) ∧
  scrape_all_starting_rbs site (Some [])
  = scrape_all_starting_rbs site (Some Roster.TEAM_ABBREVS).
Proof.
  assert (team <$> scrape_all_starting_rbs site team_abbrevs
          = filter (λ t, is_Some (get_starting_rb_for_team t (site t)))
              (Roster.teams_or_default team_abbrevs)) as Hteams.
  { rewrite scrape_all_starting_rbs_omap.
    induction (Roster.teams_or_default team_abbrevs) as [|t ts IH]; [done|].
    cbn [omap list_omap]. rewrite filter_cons.
    destruct (get_starting_rb_for_team t (site t)) as [res|] eqn:Hres.
    - rewrite decide_True by by eexists.
      apply get_starting_rb_for_team_Some in Hres as (Ht & _).
      rewrite fmap_cons, Ht. f_equal. exact IH.
    - rewrite decide_False by (by intros [? ?]). exact IH. }
  split_and!; [exact Hteams| | |].
  3: { unfold scrape_all_starting_rbs. by rewrite teams_or_default_nil. }
  - rewrite scrape_all_starting_rbs_omap. apply Forall_forall.
    intros res (t & _ & Hres)%list_elem_of_omap.
    by apply get_starting_rb_for_team_Some in Hres as (_ & ? & ? & ?).
  - intros t Hfail. rewrite Hteams.
    intros (Hsome & _)%list_elem_of_filter.
    rewrite Hfail in Hsome. by destruct Hsome.
Qed.

End DepthChartFacts.

(* ===================================================================== *)
(** * Further properties: the roster                                       *)
(* ===================================================================== *)

Module RosterMore.
Import Roster RosterFacts.

(** ** What the loop keeps *)

Lemma keep_new_from st e x :
  x ∈ (keep_new st e).1 → x ∈ st.1 ∨ x = e.
Proof.
  unfold keep_new. case_decide; [by left|]. cbn.
  intros [?|?%list_elem_of_singleton]%elem_of_app; [by left|by right].
Qed.

Lemma foldl_keep_new_from st es x :
  x ∈ (foldl keep_new st es).1 → x ∈ st.1 ∨ x ∈ es.
Proof.
  revert st. induction es as [|e es IH]; intros st; [by left|].
  cbn [foldl]. intros Hx%IH. destruct Hx as [Hx|Hx].
  - apply keep_new_from in Hx as [Hx|Hx]; [by left|]. right. rewrite Hx.
    by left.
  - right. by right.
Qed.

Lemma keep_new_seen_mono st e id : id ∈ st.2 → id ∈ (keep_new st e).2.
Proof.
  intros Hid. unfold keep_new. case_decide; [done|]. cbn.
  apply elem_of_union. by right.
Qed.

Lemma keep_new_sees st e : player_id e ∈ (keep_new st e).2.
Proof.
  unfold keep_new. case_decide; [done|]. cbn.
  apply elem_of_union. left. by apply elem_of_singleton.
Qed.

Lemma foldl_keep_new_seen_mono st es id :
  id ∈ st.2 → id ∈ (foldl keep_new st es).2.
Proof.
  revert st. induction es as [|e es IH]; intros st Hid; [done|].
  cbn [foldl]. by apply IH, keep_new_seen_mono.
Qed.

Lemma foldl_keep_new_sees st es e :
  e ∈ es → player_id e ∈ (foldl keep_new st es).2.
Proof.
  revert st. induction es as [|e' es IH]; intros st He.
  - by apply elem_of_nil in He.
  - cbn [foldl]. apply elem_of_cons in He as [->|He].
    + apply foldl_keep_new_seen_mono, keep_new_sees.
    + by apply IH.
Qed.

Lemma foldl_keep_new_sublist st es :
  ∃ ext, (foldl keep_new st es).1 = st.1 ++ ext ∧ ext `sublist_of` es.
Proof.
  revert st. induction es as [|e es IH]; intros st.
  - exists []. by rewrite app_nil_r.
  - cbn [foldl]. destruct (IH (keep_new st e)) as (ext & -> & Hext).
    unfold keep_new. case_decide.
    + exists ext. split; [done|]. by apply sublist_cons.
    + cbn. exists (e :: ext). split; [by rewrite <- app_assoc|].
      by apply sublist_skip.
Qed.

Lemma foldl_keep_new_all_seen st es :
  (∀ e, e ∈ es → player_id e ∈ st.2) → foldl keep_new st es = st.
Proof.
  revert st. induction es as [|e es IH]; intros st Hseen; [done|].
  cbn [foldl].
  assert (keep_new st e = st) as ->.
  { unfold keep_new. rewrite decide_True; [done|]. apply Hseen. by left. }
  apply IH. intros e' He'. apply Hseen. by right.
Qed.

(** X7: every row of a roster stands for an RB link of the page: it
    carries the team asked for, the text of a link that has a name and an
    RB position, and that link's id, a run of digits.  Conversely the id
    of every RB link of the page is in the roster. *)
Theorem roster_rows_are_rb_links (team_abbrev : string)
    (links : list anchor) :
  (∀ e, e ∈ fetch_team_roster team_abbrev links →
     team e = team_abbrev ∧
     Py.truthy (player_name e) = true ∧
     Py.isdigit (player_id e) = true ∧
     ∃ a, a ∈ links ∧ Py.search_player_id (href a) = Some (player_id e) ∧
          link_text a = player_name e ∧ is_rb_link a = true) ∧
  (∀ a id, a ∈ links → Py.search_player_id (href a) = Some id →
     is_rb_link a = true →
     id ∈ player_id <$> fetch_team_roster team_abbrev links).
Proof.
  split.
  - intros e He. rewrite fetch_team_roster_candidates in He.
    apply foldl_keep_new_from in He as [He|He]; [by apply elem_of_nil in He|].
    apply list_elem_of_omap in He as (a & Ha & Hcand).
    apply candidate_Some in Hcand as (Hid & Hrb & He).
    rewrite He. cbn. split_and!.
    + done.
    + unfold is_rb_link in Hrb. by apply andb_true_iff in Hrb as [? _].
    + by apply (PyLemmas.search_player_id_digits (href a)).
    + by exists a.
  - intros a id Ha Hid Hrb.
    pose proof (foldl_keep_new_consistent ([], ∅)
                  (omap (candidate team_abbrev) links) empty_consistent)
      as [_ Hseen].
    rewrite fetch_team_roster_candidates. apply Hseen.
    apply (foldl_keep_new_sees _ _ (Entry team_abbrev (link_text a) id)).
    apply list_elem_of_omap. exists a. split; [done|].
    by apply candidate_rb.
Qed.

Lemma roster_rows_are_rb_links_witness :
  "4241457" ∈ player_id <$> fetch_team_roster "pit" [first_link; second_link].
Proof.
  destruct (roster_rows_are_rb_links "pit" [first_link; second_link])
    as [_ Hall].
  apply (Hall second_link); [|reflexivity..]. right. left.
Defined.

(** X8: the rows of a roster come in the order of the links they stand
    for: the roster is what is left of the page's RB links, in document
    order, after some are struck out. *)
Theorem roster_in_document_order (team_abbrev : string) (links : list anchor) :
  fetch_team_roster team_abbrev links
  `sublist_of` omap (candidate team_abbrev) links.
Proof.
  rewrite fetch_team_roster_candidates.
  destruct (foldl_keep_new_sublist ([], ∅)
              (omap (candidate team_abbrev) links)) as (ext & -> & Hext).
  done.
Qed.

(** X9: links whose player is already on the page add nothing.  When
    every RB link among [more] carries the id of some RB link of [links],
    the roster of [links ++ more] is the roster of [links]; so a page that
    shows its links twice gives the roster of the links shown once. *)
Theorem roster_ignores_repeats (team_abbrev : string)
    (links more : list anchor) :
  (∀ b id, b ∈ more → Py.search_player_id (href b) = Some id →
     is_rb_link b = true →
     ∃ a, a ∈ links ∧ Py.search_player_id (href a) = Some id ∧
          is_rb_link a = true) →
  fetch_team_roster team_abbrev (links ++ more)
  = fetch_team_roster team_abbrev links.
Proof.
  intros Hmore. rewrite !fetch_team_roster_candidates, omap_app, foldl_app.
  rewrite foldl_keep_new_all_seen; [done|].
  intros e (b & Hb & Hcand)%list_elem_of_omap.
  apply candidate_Some in Hcand as (Hid & Hrb & _).
  destruct (Hmore b _ Hb Hid Hrb) as (a & Ha & Haid & Harb).
  apply (foldl_keep_new_sees _ _ (Entry team_abbrev (link_text a)
                                     (player_id e))).
  apply list_elem_of_omap. exists a. split; [done|]. by apply candidate_rb.
Qed.

Lemma roster_ignores_repeats_witness :
  fetch_team_roster "pit" ([first_link; second_link] ++ [first_link; second_link])
  = fetch_team_roster "pit" [first_link; second_link].
Proof.
  apply roster_ignores_repeats. intros b id Hb Hid Hrb. by exists b.
Defined.

(** ** A cell with the word RB *)

Lemma lower_r_upper c :
  Py.eq_char "r" (Py.lower_char c) = true →
  Py.eq_char "R" (Py.upper_char c) = true.
Proof. destruct c as [[] [] [] [] [] [] [] []]; vm_compute; congruence. Qed.

Lemma lower_b_upper c :
  Py.eq_char "b" (Py.lower_char c) = true →
  Py.eq_char "B" (Py.upper_char c) = true.
Proof. destruct c as [[] [] [] [] [] [] [] []]; vm_compute; congruence. Qed.

Lemma starts_with_rb_upper s :
  Py.starts_with "rb" (Py.lower s) = true →
  Py.starts_with "RB" (Py.upper s) = true.
Proof.
  destruct s as [|c1 [|c2 r]]; [done| |].
  - change (Py.lower (String c1 "")) with (String (Py.lower_char c1) "").
    cbn [Py.starts_with]. by rewrite andb_false_r.
  - change (Py.lower (String c1 (String c2 r)))
      with (String (Py.lower_char c1) (String (Py.lower_char c2) (Py.lower r))).
    change (Py.upper (String c1 (String c2 r)))
      with (String (Py.upper_char c1) (String (Py.upper_char c2) (Py.upper r))).
    cbn [Py.starts_with].
    intros [H1 [H2 _]%andb_true_iff]%andb_true_iff.
    by rewrite (lower_r_upper c1 H1), (lower_b_upper c2 H2).
Qed.

Lemma search_rb_from_contains prev s :
  Py.search_rb_from prev s = true → Py.contains "RB" (Py.upper s) = true.
Proof.
  revert prev. induction s as [|c r IH]; intros prev; [done|].
  cbn [Py.search_rb_from].
  change (Py.upper (String c r)) with (String (Py.upper_char c) (Py.upper r)).
  cbn [Py.contains]. intros [Hhere|Hlater]%orb_true_iff.
  - apply andb_true_iff in Hhere as [[_ Hstart]%andb_true_iff _].
    apply starts_with_rb_upper in Hstart.
    change (Py.upper (String c r))
      with (String (Py.upper_char c) (Py.upper r)) in Hstart.
    by rewrite Hstart.
  - by rewrite (IH _ Hlater), orb_true_r.
Qed.

Lemma search_rb_truthy s : Py.search_rb s = true → Py.truthy s = true.
Proof. by destruct s. Qed.

Lemma scan_cells_rb position_text pre cell post :
  Forall (λ text, Py.search_rb text = false) pre →
  Py.search_rb cell = true →
  scan_cells position_text (pre ++ cell :: post) = cell.
Proof.
  intros Hpre Hcell. revert position_text.
  induction Hpre as [|text pre Htext _ IH]; intros position_text.
  - cbn [app scan_cells]. by rewrite (search_rb_truthy cell Hcell), Hcell.
  - cbn [app scan_cells]. rewrite Htext.
    destruct (Py.truthy text); [|apply IH].
    destruct (Py.split text) as [|tok toks]; [apply IH|].
    destruct (String.length tok <=? 3)%nat; apply IH.
Qed.

(** X10: a cell that holds the word RB, in any letter case, decides the
    position.  When the row of a link has such a cell, the position text
    is the whole text of the first such cell, whatever short tokens the
    cells before it hold, and the link counts as an RB link as soon as it
    has a name. *)
Theorem rb_cell_decides (a : anchor) (pre post : list string)
    (cell : string) :
  parent_tr a = Some (pre ++ cell :: post) →
  Forall (λ text, Py.search_rb text = false) pre →
  Py.search_rb cell = true →
  position_text_of a = cell ∧
  Py.contains "RB" (pos_norm_of a) = true ∧
  (Py.truthy (link_text a) = true → is_rb_link a = true).
Proof.
  intros Hrow Hpre Hcell.
  assert (position_text_of a = cell) as Hpos.
  { unfold position_text_of. rewrite Hrow. by apply scan_cells_rb. }
  assert (Py.contains "RB" (pos_norm_of a) = true) as Hnorm.
  { unfold pos_norm_of. rewrite Hpos, (search_rb_truthy cell Hcell).
    by apply (search_rb_from_contains false). }
  split_and!; [done..|]. intros Hname. unfold is_rb_link.
  by rewrite Hname, Hnorm.
Qed.

Definition running_back_row : list string :=
  [ "Najee Harris22"; "rb"; "26"; "242 lbs"; "4"; "Alabama" ].

Lemma rb_cell_decides_witness :
  position_text_of (Anchor "/nfl/player/_/id/4241457/najee-harris"
                      "Najee Harris" (Some running_back_row) None) = "rb" ∧
  Py.contains "RB"
    (pos_norm_of (Anchor "/nfl/player/_/id/4241457/najee-harris"
                    "Najee Harris" (Some running_back_row) None)) = true ∧
  is_rb_link (Anchor "/nfl/player/_/id/4241457/najee-harris"
                "Najee Harris" (Some running_back_row) None) = true.
Proof.
  destruct (rb_cell_decides
              (Anchor "/nfl/player/_/id/4241457/najee-harris"
                 "Najee Harris" (Some running_back_row) None)
              [ "Najee Harris22" ] [ "26"; "242 lbs"; "4"; "Alabama" ] "rb")
    as (Hpos & Hnorm & Hrb).
  - reflexivity.
  - repeat constructor.
  - reflexivity.
  - split_and!; [exact Hpos|exact Hnorm|apply Hrb; reflexivity].
Defined.

(** ** The loop over the teams *)

(** The rows one team adds to the batch. *)
Definition team_block (site : string → option (list anchor)) (t : string)
  : list entry :=
  match site t with
  | Some links => fetch_team_roster t links
  | None => []
  end.

Lemma rosters_from site st teams :
  foldl
    (λ all_rows t,
       match site t with
       | Some links => all_rows ++ fetch_team_roster t links
       | None => all_rows
       end) st teams
  = st ++ concat (team_block site <$> teams).
Proof.
  revert st. induction teams as [|t teams IH]; intros st.
  - by rewrite app_nil_r.
  - cbn [foldl fmap list_fmap concat]. rewrite IH. unfold team_block at 2.
    destruct (site t); [by rewrite <- app_assoc|done].
Qed.

Lemma fetch_team_roster_team t links e :
  e ∈ fetch_team_roster t links → team e = t.
Proof.
  rewrite fetch_team_roster_candidates.
  intros [He|He]%foldl_keep_new_from; [by apply elem_of_nil in He|].
  apply list_elem_of_omap in He as (a & _ & Hcand).
  apply candidate_Some in Hcand as (_ & _ & ->). done.
Qed.

Lemma team_block_team site t e : e ∈ team_block site t → team e = t.
Proof.
  unfold team_block. destruct (site t) as [links|].
  - apply fetch_team_roster_team.
  - by intros ?%elem_of_nil.
Qed.

Lemma filter_team_block_same site t :
  filter (λ e, team e = t) (team_block site t) = team_block site t.
Proof.
  apply RankingFacts.filter_all. intros e. apply team_block_team.
Qed.

Lemma filter_team_block_other site t t' :
  t' ≠ t → filter (λ e, team e = t) (team_block site t') = [].
Proof.
  intros Hne. apply RankingFacts.filter_none. intros e He Heq.
  apply team_block_team in He. congruence.
Qed.

Lemma filter_blocks site t teams :
  NoDup teams →
  filter (λ e, team e = t) (concat (team_block site <$> teams))
  = if decide (t ∈ teams) then team_block site t else [].
Proof.
  induction 1 as [|t' teams Hnotin Hnd IH]; [done|].
  cbn [fmap list_fmap concat]. rewrite filter_app, IH.
  destruct (decide (t' = t)) as [->|Hne].
  - rewrite filter_team_block_same, decide_False by done.
    rewrite decide_True by by left. by rewrite app_nil_r.
  - rewrite filter_team_block_other by done. cbn [app].
    destruct (decide (t ∈ teams)) as [Hin|Hout].
    + rewrite decide_True by by right. done.
    + rewrite decide_False; [done|].
      intros [?|?]%elem_of_cons; [congruence|done].
Qed.

(** X11: in the batch over the teams each team stands alone.  For a list
    of distinct teams, the rows tagged with a requested team are exactly
    the roster of that team's own page, none when the request for it
    failed, and no row is tagged with a team that was not requested; so a
    failed request takes nothing from the other teams. *)
Theorem teams_scraped_independently (site : string → option (list anchor))
    (team_abbrevs : option (list string)) (t : string) :
  NoDup (teams_or_default team_abbrevs) →
  filter (λ e, team e = t) (scrape_all_teams site team_abbrevs)
  = if decide (t ∈ teams_or_default team_abbrevs)
    then match site t with
         | Some links => fetch_team_roster t links
         | None => []
         end
    else [].
Proof.
  intros Hnd. unfold scrape_all_teams. rewrite rosters_from. cbn [app].
  by rewrite filter_blocks.
Qed.

Definition one_page_site (t : string) : option (list anchor) :=
  if String.eqb t "pit" then Some [first_link; second_link] else None.

Lemma teams_scraped_independently_witness :
  filter (λ e, team e = "pit")
    (scrape_all_teams one_page_site (Some ["nyg"; "pit"; "sea"]))
  = if decide ("pit" ∈ teams_or_default (Some ["nyg"; "pit"; "sea"]))
    then match one_page_site "pit" with
         | Some links => fetch_team_roster "pit" links
         | None => []
         end
    else [].
Proof. apply teams_scraped_independently. compute_done. Defined.

Example scrape_three_teams :
  scrape_all_teams one_page_site (Some ["nyg"; "pit"; "sea"])
  = [Entry "pit" "Najee Harris" "4241457"] ∧
  NoDup TEAM_ABBREVS ∧ length TEAM_ABBREVS = 32%nat.
Proof. split_and!; [by vm_compute|compute_done|done]. Qed.

End RosterMore.

(* ===================================================================== *)
(** * Further properties: the game log                                     *)
(* ===================================================================== *)

Module GameLogMore.
Import GameLog GameLogFacts.

(** ** Rows and records *)

Lemma game_row_short player_id player_name team cell_texts :
  (length cell_texts < 8)%nat →
  game_row player_id player_name team cell_texts = None.
Proof.
  intros Hlen. unfold game_row.
  by destruct (Nat.ltb_spec (length cell_texts) 8) as [_|]; [|lia].
Qed.

Lemma game_row_long_cells player_id player_name team cell_texts :
  (8 ≤ length cell_texts)%nat →
  ∃ date opponent result,
    cell_texts !! 0%nat = Some date ∧
    cell_texts !! 1%nat = Some opponent ∧
    cell_texts !! 2%nat = Some result ∧
    game_row player_id player_name team cell_texts
    = Some
        (let game_data :=
           run_try (assign cell_texts <$> rushing_columns)
             (game_info player_id player_name team date opponent result) in
         if (13 <? length cell_texts)%nat
         then run_try (assign cell_texts <$> receiving_columns) game_data
         else game_data).
Proof.
  intros Hlen. unfold game_row.
  destruct (Nat.ltb_spec (length cell_texts) 8) as [|_]; [lia|].
  destruct (lookup_lt_is_Some_2 cell_texts 0) as [date Hdate]; [lia|].
  destruct (lookup_lt_is_Some_2 cell_texts 1) as [opponent Hopp]; [lia|].
  destruct (lookup_lt_is_Some_2 cell_texts 2) as [result Hres]; [lia|].
  rewrite Hdate, Hopp, Hres.
  destruct (Nat.ltb_spec 6 (length cell_texts)) as [_|]; [|lia].
  by exists date, opponent, result.
Qed.

(** The identity of a record: whose game it is and which game. *)
Definition identified (player_id : Z) (player_name team : string)
    (cell_texts : list string) (game_data : dict) : Prop :=
  game_data !! "player_id" = Some (Py.VInt player_id) ∧
  game_data !! "player_name" = Some (Py.VStr player_name) ∧
  game_data !! "team" = Some (Py.VStr team) ∧
  game_data !! "date" = Py.VStr <$> cell_texts !! 0%nat ∧
  game_data !! "opponent" = Py.VStr <$> cell_texts !! 1%nat ∧
  game_data !! "result" = Py.VStr <$> cell_texts !! 2%nat.

Lemma stats_keep_key cell_texts (d : dict) (wide : bool) k :
  k ∉ col_key <$> rushing_columns → k ∉ col_key <$> receiving_columns →
  (if wide
   then run_try (assign cell_texts <$> receiving_columns)
          (run_try (assign cell_texts <$> rushing_columns) d)
   else run_try (assign cell_texts <$> rushing_columns) d) !! k = d !! k.
Proof.
  intros Hrush Hrec.
  destruct wide; [rewrite run_try_other by done|]; by rewrite run_try_other.
Qed.

Lemma game_row_identified player_id player_name team cell_texts game_data :
  game_row player_id player_name team cell_texts = Some game_data →
  (8 ≤ length cell_texts)%nat ∧
  identified player_id player_name team cell_texts game_data.
Proof.
  intros Hrow.
  destruct (decide (length cell_texts < 8)%nat) as [Hshort|Hlong].
  { by rewrite game_row_short in Hrow. }
  split; [lia|].
  destruct (game_row_long_cells player_id player_name team cell_texts)
    as (date & opponent & result & Hdate & Hopp & Hres & Hrow'); [lia|].
  rewrite Hrow' in Hrow. apply (inj Some) in Hrow. rewrite <- Hrow.
  unfold identified. rewrite Hdate, Hopp, Hres. cbv zeta.
  split_and!; (rewrite stats_keep_key; [reflexivity|compute_done..]).
Qed.

(** X12: the game log holds one record for each row of the first table
    that has at least eight cells, the first two rows of the table left
    out, in the order of the rows, and nothing else: further tables, rows
    of fewer than eight cells and the two leading rows give no record.
    Each record carries the player it was asked for and the date, opponent
    and result cells of its row, whatever happens to the numbers. *)
Theorem one_record_per_game_row (player_id : Z) (player_name team : string)
    (table : list (list string)) (others : list (list (list string))) :
  Forall2 (identified player_id player_name team)
    (filter (λ cell_texts, (8 ≤ length cell_texts)%nat) (drop 2 table))
    (fetch_player_gamelog player_id player_name team (Page (table :: others))).
Proof.
  cbn [fetch_player_gamelog].
  induction (drop 2 table) as [|cell_texts rows IH]; [constructor|].
  cbn [omap list_omap]. rewrite filter_cons.
  destruct (game_row player_id player_name team cell_texts) as [d|] eqn:Hrow.
  - apply game_row_identified in Hrow as [Hlen Hid].
    rewrite decide_True by done. by constructor.
  - rewrite decide_False; [exact IH|]. intros Hlen.
    destruct (game_row_long_cells player_id player_name team cell_texts Hlen)
      as (? & ? & ? & _ & _ & _ & Hsome).
    congruence.
Qed.

(** ** Numbers *)

Lemma stat_lookup cell_texts (base : dict) (wide : bool) c :
  c ∈ rushing_columns ++ receiving_columns →
  base !! col_key c = None →
  (if wide
   then run_try (assign cell_texts <$> receiving_columns)
          (run_try (assign cell_texts <$> rushing_columns) base)
   else run_try (assign cell_texts <$> rushing_columns) base) !! col_key c
  = None ∨
  (if wide
   then run_try (assign cell_texts <$> receiving_columns)
          (run_try (assign cell_texts <$> rushing_columns) base)
   else run_try (assign cell_texts <$> rushing_columns) base) !! col_key c
  = cell_texts !! col_index c ≫= col_conv c.
Proof.
  intros [Hc|Hc]%elem_of_app Hbase.
  - assert (run_try (assign cell_texts <$> rushing_columns) base !! col_key c
            = None ∨
            run_try (assign cell_texts <$> rushing_columns) base !! col_key c
            = cell_texts !! col_index c ≫= col_conv c) as Hrush.
    { pose proof Hc as (pre & post & Hsplit)%list_elem_of_split.
      rewrite Hsplit, run_try_lookup by (rewrite <- Hsplit; compute_done).
      rewrite Hbase.
      destruct (forallb (coerces cell_texts) pre); [|by left].
      destruct (cell_texts !! col_index c ≫= col_conv c); [by right|by left]. }
    destruct wide; [|done].
    by rewrite run_try_other by by apply rushing_key_not_receiving.
  - assert (run_try (assign cell_texts <$> rushing_columns) base !! col_key c
            = None) as Hrush.
    { by rewrite run_try_other by by apply receiving_key_not_rushing. }
    destruct wide; [|by left].
    pose proof Hc as (pre & post & Hsplit)%list_elem_of_split.
    rewrite Hsplit, run_try_lookup by (rewrite <- Hsplit; compute_done).
    rewrite Hrush.
    destruct (forallb (coerces cell_texts) pre); [|by left].
    destruct (cell_texts !! col_index c ≫= col_conv c); [by right|by left].
Qed.

Lemma int_or_none_typed t v :
  int_or_none t = Some v → v = Py.VNone ∨ ∃ n, v = Py.VInt n.
Proof.
  unfold int_or_none. destruct (Py.truthy t); [|by intros [= <-]; left].
  destruct (Py.int t) as [n|]; [|done]. intros [= <-]. right. by exists n.
Qed.

Lemma digits_or_none_typed t v :
  digits_or_none t = Some v → v = Py.VNone ∨ ∃ n, v = Py.VInt n ∧ 0 ≤ n.
Proof.
  unfold digits_or_none.
  destruct (Py.truthy t && Py.isdigit t) eqn:Hd; [|by intros [= <-]; left].
  apply andb_true_iff in Hd as [_ Hd].
  destruct (PyLemmas.int_of_isdigit t Hd) as (n & -> & Hn).
  intros [= <-]. right. by exists n.
Qed.

(** The right-hand side of the assignment to the long never raises. *)
Lemma digits_or_none_returns t : is_Some (digits_or_none t).
Proof.
  unfold digits_or_none.
  destruct (Py.truthy t && Py.isdigit t) eqn:Hd; [|by eexists].
  apply andb_true_iff in Hd as [_ Hd].
  destruct (PyLemmas.int_of_isdigit t Hd) as (n & -> & _). by eexists.
Qed.

Lemma float_or_none_typed t v :
  float_or_none t = Some v → v = Py.VNone ∨ ∃ f, v = Py.VFloat f.
Proof.
  unfold float_or_none. destruct (Py.truthy t); [|by intros [= <-]; left].
  destruct (Py.float t) as [f|]; [|done]. intros [= <-]. right. by exists f.
Qed.

Lemma conv_typed c t v :
  c ∈ rushing_columns ++ receiving_columns →
  col_conv c t = Some v →
  v = Py.VNone ∨ (∃ n, v = Py.VInt n) ∨
  (∃ f, col_key c = "rushing_avg" ∧ v = Py.VFloat f).
Proof.
  intros Hc Hv.
  repeat (apply elem_of_cons in Hc as [->|Hc];
          [cbn [col_conv col_key] in *;
           first
             [ apply int_or_none_typed in Hv as [->|[n ->]];
               [by left|right; left; by exists n]
             | apply float_or_none_typed in Hv as [->|[f ->]];
               [by left|right; right; by exists f]
             | apply digits_or_none_typed in Hv as [->|(n & -> & _)];
               [by left|right; left; by exists n] ]|]).
  by apply elem_of_nil in Hc.
Qed.

Lemma long_is_a_column :
  Column "rushing_lng" 7 digits_or_none ∈ rushing_columns ++ receiving_columns.
Proof. do 4 apply list_elem_of_further. apply list_elem_of_here. Qed.

(** X13: a number that a record shows is the number of its own cell.
    Whenever a numeric field of a record is present, it is what the
    field's coercion makes of the cell at the field's own index: an
    integer, or a float for the rushing average, and for the long an
    integer that is not negative. *)
Theorem present_field_of_own_cell (player_id : Z)
    (player_name team : string) (cell_texts : list string)
    (game_data : dict) :
  game_row player_id player_name team cell_texts = Some game_data →
  (∀ c v, c ∈ rushing_columns ++ receiving_columns →
     field game_data (col_key c) = Some v →
     cell_texts !! col_index c ≫= col_conv c = Some v ∧
     ((∃ n, v = Py.VInt n) ∨ (∃ f, col_key c = "rushing_avg" ∧ v = Py.VFloat f))) ∧
  (∀ v, field game_data "rushing_lng" = Some v →
     ∃ n, v = Py.VInt n ∧ 0 ≤ n).
Proof.
  intros Hrow.
  destruct (decide (length cell_texts < 8)%nat) as [Hshort|Hlong].
  { by rewrite game_row_short in Hrow. }
  destruct (game_row_long_cells player_id player_name team cell_texts)
    as (date & opponent & result & _ & _ & _ & Hrow'); [lia|].
  rewrite Hrow' in Hrow. apply (inj Some) in Hrow. cbv zeta in Hrow.
  assert (∀ c v, c ∈ rushing_columns ++ receiving_columns →
            field game_data (col_key c) = Some v →
            cell_texts !! col_index c ≫= col_conv c = Some v ∧ v ≠ Py.VNone)
    as Hown.
  { intros c v Hc Hv. unfold field in Hv. rewrite <- Hrow in Hv.
    destruct (stat_lookup cell_texts
                (game_info player_id player_name team date opponent result)
                (13 <? length cell_texts)%nat c Hc
                (game_info_no_stat _ _ _ _ _ _ c Hc)) as [Hnone|Hcell].
    - by rewrite Hnone in Hv.
    - rewrite Hcell in Hv.
      destruct (cell_texts !! col_index c ≫= col_conv c) as [[]|]; try done;
        by injection Hv as <-. }
  split.
  - intros c v Hc Hv. destruct (Hown c v Hc Hv) as [Hcell Hne].
    split; [done|].
    destruct (cell_texts !! col_index c) as [t|]; [|done].
    destruct (conv_typed c t v Hc Hcell) as [->|[?|?]]; [done|by left|by right].
  - intros v Hv.
    destruct (Hown _ v long_is_a_column Hv) as [Hcell Hne].
    cbn [col_index col_conv] in Hcell.
    destruct (cell_texts !! 7%nat) as [t|]; [|done].
    by apply digits_or_none_typed in Hcell as [->|?].
Qed.

Lemma present_field_of_own_cell_witness :
  (∀ c v, c ∈ rushing_columns ++ receiving_columns →
     field (default ∅ (game_row 4241457 "Najee Harris" "pit" full_row))
       (col_key c) = Some v →
     full_row !! col_index c ≫= col_conv c = Some v ∧
     ((∃ n, v = Py.VInt n) ∨ (∃ f, col_key c = "rushing_avg" ∧ v = Py.VFloat f))) ∧
  (∀ v, field (default ∅ (game_row 4241457 "Najee Harris" "pit" full_row))
          "rushing_lng" = Some v →
     ∃ n, v = Py.VInt n ∧ 0 ≤ n).
Proof.
  apply (present_field_of_own_cell 4241457 "Najee Harris" "pit" full_row).
  reflexivity.
Defined.

(** ** The loop over the players *)

(** The records one player adds to the batch. *)
Definition player_block (site : Z → response) (row : starter_row)
  : list dict :=
  fetch_player_gamelog (sr_player_id row) (sr_player_name row) (sr_team row)
    (site (sr_player_id row)).

Lemma gamelogs_from site st rows :
  foldl
    (λ all_games row,
       all_games ++
       fetch_player_gamelog (sr_player_id row) (sr_player_name row)
         (sr_team row) (site (sr_player_id row))) st rows
  = st ++ mjoin (player_block site <$> rows).
Proof.
  revert st. induction rows as [|row rows IH]; intros st.
  - by rewrite app_nil_r.
  - cbn [foldl]. rewrite IH, fmap_cons. csimpl. by rewrite <- app_assoc.
Qed.

Lemma fetch_player_gamelog_identified player_id player_name team resp d :
  d ∈ fetch_player_gamelog player_id player_name team resp →
  ∃ cell_texts, identified player_id player_name team cell_texts d.
Proof.
  destruct resp as [|[|table others]]; [by intros ?%elem_of_nil..|].
  cbn [fetch_player_gamelog].
  intros (cell_texts & _ & Hrow)%list_elem_of_omap.
  exists cell_texts. by apply game_row_identified in Hrow as [_ ?].
Qed.

(** X14: the batch over the starting running backs puts the game logs of
    the players one after the other.  Every record belongs to a row of the
    input: it carries that row's player id, name and team.  A player
    whose request fails, or whose page has no table, adds nothing and
    takes nothing from the others; and an input that cannot be read gives
    no records. *)
Theorem gamelogs_belong_to_starters (site : Z → response) :
  (∀ df d, d ∈ scrape_all_starting_rb_gamelogs (Some df) site →
     ∃ row cell_texts,
       row ∈ df ∧
       identified (sr_player_id row) (sr_player_name row) (sr_team row)
         cell_texts d) ∧
  (∀ df1 row df2,
     site (sr_player_id row) = RequestException ∨
     site (sr_player_id row) = Page [] →
     scrape_all_starting_rb_gamelogs (Some (df1 ++ row :: df2)) site
     = scrape_all_starting_rb_gamelogs (Some (df1 ++ df2)) site) ∧
  (∀ df1 df2,
     scrape_all_starting_rb_gamelogs (Some (df1 ++ df2)) site
     = scrape_all_starting_rb_gamelogs (Some df1) site
       ++ scrape_all_starting_rb_gamelogs (Some df2) site) ∧
  scrape_all_starting_rb_gamelogs None site = [].
Proof.
  split_and!; [| | |done].
  - intros df d. cbn [scrape_all_starting_rb_gamelogs].
    rewrite gamelogs_from. cbn [app].
    intros (block & Hd & (row & -> & Hrow)%list_elem_of_fmap)%list_elem_of_join.
    apply fetch_player_gamelog_identified in Hd as [cell_texts Hid].
    by exists row, cell_texts.
  - intros df1 row df2 Hfail. cbn [scrape_all_starting_rb_gamelogs].
    rewrite !gamelogs_from. cbn [app].
    rewrite !fmap_app, fmap_cons, !join_app. csimpl.
    assert (player_block site row = []) as ->; [|done].
    unfold player_block. by destruct Hfail as [-> | ->].
  - intros df1 df2. cbn [scrape_all_starting_rb_gamelogs].
    rewrite !gamelogs_from. cbn [app]. by rewrite fmap_app, join_app.
Qed.

Definition one_player_site (player_id : Z) : response :=
  if (player_id =? 4241457)%Z
  then Page [[ []; []; full_row; bad_attempts_row ]]
  else RequestException.

Lemma gamelogs_belong_to_starters_witness :
  scrape_all_starting_rb_gamelogs
    (Some ([StarterRow 4241457 "Najee Harris" "pit"]
           ++ StarterRow 3929630 "Saquon Barkley" "phi" :: []))
    one_player_site
  = scrape_all_starting_rb_gamelogs
      (Some ([StarterRow 4241457 "Najee Harris" "pit"] ++ []))
      one_player_site.
Proof.
  destruct (gamelogs_belong_to_starters one_player_site) as (_ & Hskip & _).
  apply Hskip. left. reflexivity.
Defined.

End GameLogMore.

(* ===================================================================== *)
(** * Further properties: the defense ranking                              *)
(* ===================================================================== *)

Module RankingMore.
Import Compare RankingFacts PyLemmas.

(** ** Thousands separators *)

Lemma chars_inj s1 s2 : chars s1 = chars s2 → s1 = s2.
Proof.
  intros Heq.
  rewrite <- (string_of_list_ascii_of_string s1),
          <- (string_of_list_ascii_of_string s2).
  unfold chars in Heq. by rewrite Heq.
Qed.

Lemma remove_comma_app s1 s2 :
  Py.remove_all "," (s1 +:+ "," +:+ s2) = Py.remove_all "," (s1 +:+ s2).
Proof.
  apply chars_inj.
  rewrite !chars_remove_char, !SqliteFacts.chars_app, !filter_app.
  change (chars ",") with [","%char].
  by rewrite (filter_cons _ ","%char), decide_False by (by intros []).
Qed.

(** X15: commas play no part in a yards value, wherever they stand: a
    text with a comma put in at any place converts like the text without
    it, to the same number or to the same error. *)
Theorem yards_ignore_commas (team_text s1 s2 : string) :
  yards_of (DefRow team_text (s1 +:+ "," +:+ s2))
  = yards_of (DefRow team_text (s1 +:+ s2)).
Proof. unfold yards_of. cbn [Rushing_Yards]. by rewrite remove_comma_app. Qed.

Example yards_with_commas :
  yards_of (DefRow "Buffalo Bills" "1,234") = Return 1234 ∧
  yards_of (DefRow "Buffalo Bills" ",12,,34,") = Return 1234 ∧
  yards_of (DefRow "Buffalo Bills" "N/A") = Raise ValueError ∧
  yards_of (DefRow "Buffalo Bills" "1.5") = Raise ValueError ∧
  yards_of (DefRow "Buffalo Bills" "9223372036854775808")
  = Raise OverflowError.
Proof. vm_compute. done. Qed.

(** ** Failure *)

Lemma convert_yards_Raise df e :
  convert_yards df = Raise e ↔
  ∃ pre r post,
    df = pre ++ r :: post ∧
    Forall (λ x, ∃ y, yards_of x = Return y) pre ∧
    yards_of r = Raise e.
Proof.
  induction df as [|r0 df IH].
  - split; [done|]. intros (pre & r & post & Heq & _). by destruct pre.
  - cbn [convert_yards]. destruct (yards_of r0) as [y|e0] eqn:Hr0.
    + destruct (convert_yards df) as [rs|e1].
      * split; [done|]. intros (pre & r & post & Heq & Hpre & Hr).
        destruct pre as [|x pre].
        -- injection Heq as -> _. congruence.
        -- injection Heq as -> ->. apply Forall_cons in Hpre as [_ Hpre].
           assert (Return rs = Raise e) as Habs; [|done].
           apply IH. by exists pre, r, post.
      * split.
        -- intros [= ->]. destruct (proj1 IH eq_refl)
             as (pre & r & post & -> & Hpre & Hr).
           exists (r0 :: pre), r, post. split_and!; [done| |done].
           constructor; [by exists y|done].
        -- intros (pre & r & post & Heq & Hpre & Hr).
           destruct pre as [|x pre].
           ++ injection Heq as -> _. congruence.
           ++ injection Heq as -> ->. apply Forall_cons in Hpre as [_ Hpre].
              apply IH. by exists pre, r, post.
    + split.
      * intros [= ->]. exists [], r0, df. by split_and!.
      * intros (pre & r & post & Heq & Hpre & Hr).
        destruct pre as [|x pre].
        -- injection Heq as -> _. congruence.
        -- injection Heq as -> _. apply Forall_cons in Hpre as [[y Hy] _].
           congruence.
Qed.

Lemma load_Raise `{SortKind} df e :
  yards_dtype df = Some object →
  load_defense_rankings df = Some (Raise e) ↔ convert_yards df = Raise e.
Proof.
  intros Hobj. unfold load_defense_rankings, sorted_frame. rewrite Hobj.
  destruct (convert_yards df); cbn; split; congruence.
Qed.

(** X16: the ranker fails as a whole or not at all.  On a yards column
    read as integers it raises [AttributeError], whatever the values.  On
    a column read as text it raises exactly when some yards value does
    not convert, and then with the error of the first such row; otherwise
    it returns.  A single bad value leaves no tier. *)
Theorem ranking_fails_fast (K : SortKind) (df : list def_row) :
  (yards_dtype df = Some int64 →
   load_defense_rankings df = Some (Raise AttributeError)) ∧
  (yards_dtype df = Some object →
   (∀ e, load_defense_rankings df = Some (Raise e) ↔
         ∃ pre r post,
           df = pre ++ r :: post ∧
           Forall (λ x, ∃ y, yards_of x = Return y) pre ∧
           yards_of r = Raise e) ∧
   ((∃ tiers, load_defense_rankings df = Some (Return tiers)) ↔
    Forall (λ x, ∃ y, yards_of x = Return y) df)).
Proof.
  split; [apply load_int64|]. intros Hobj. split.
  - intros e. by rewrite (load_Raise df e Hobj), convert_yards_Raise.
  - split.
    + intros [tiers Hret]. apply Forall_forall. intros x Hx.
      destruct (yards_of x) as [y|e] eqn:Hy; [by exists y|].
      apply list_elem_of_split in Hx as (l1 & l2 & ->).
      assert (∃ e', convert_yards (l1 ++ x :: l2) = Raise e') as [e' He'].
      { clear Hret Hobj. induction l1 as [|a l1 IH]; cbn [app convert_yards].
        - rewrite Hy. by eexists.
        - destruct (yards_of a); [|by eexists].
          destruct IH as [e' ->]. by eexists. }
      apply (load_Raise _ _ Hobj) in He'. congruence.
    + intros Hall.
      destruct (convert_yards df) as [src|e] eqn:Hconv.
      * eexists. by apply load_Return.
      * apply convert_yards_Raise in Hconv
          as (pre & r & post & -> & _ & Hr).
        rewrite Forall_forall in Hall.
        destruct (Hall r) as [y Hy]; [|congruence].
        apply elem_of_app. right. by left.
Qed.

Definition one_bad_value : list def_row :=
  [ DefRow "Buffalo Bills" "1,234"; DefRow "Miami Dolphins" "N/A";
    DefRow "New York Jets" "1,5OO" ].

Lemma ranking_fails_fast_witness :
  @load_defense_rankings SortKinds.stable_kind one_bad_value
  = Some (Raise ValueError).
Proof.
  destruct (ranking_fails_fast SortKinds.stable_kind one_bad_value)
    as [_ Htext].
  apply Htext; [reflexivity|].
  exists [DefRow "Buffalo Bills" "1,234"], (DefRow "Miami Dolphins" "N/A"),
    [DefRow "New York Jets" "1,5OO"].
  split_and!; [reflexivity| |reflexivity].
  constructor; [|constructor]. by exists 1234.
Defined.

(** ** Any number of rows *)

Lemma convert_yards_length df src :
  convert_yards df = Return src → length src = length df.
Proof.
  intros Hs. apply convert_yards_inv, Forall2_length in Hs. done.
Qed.

(** X17: the two lists for any number of rows of a yards column that is
    read as text and converts.  Each list has 16 entries, or as many as
    there are rows when those are fewer.  With at most 16
    rows both lists are the whole ranking.  With 16 to 32 rows the last
    [32 - n] entries of [top16] are the first [32 - n] entries of
    [bottom16]: those teams are in both.  With 32 rows or more the ranking
    is [top16], then [n - 32] teams that are in neither list, then
    [bottom16]. *)
Theorem tiers_for_any_count (K : SortKind) (df : list def_row)
    (src : list ranked_row) :
  yards_dtype df = Some object →
  convert_yards df = Return src →
  ∃ out top16 bottom16,
    sorted_frame df = Some (Return out) ∧
    load_defense_rankings df = Some (Return (top16, bottom16)) ∧
    length top16 = (16 `min` length df)%nat ∧
    length bottom16 = (16 `min` length df)%nat ∧
    ((length df ≤ 16)%nat →
     top16 = team_abbrev <$> out ∧ bottom16 = team_abbrev <$> out) ∧
    ((16 ≤ length df ≤ 32)%nat →
     drop (length df - 16) top16 = take (32 - length df) bottom16) ∧
    ((32 ≤ length df)%nat →
     team_abbrev <$> out
     = top16 ++ take (length df - 32) (drop 16 (team_abbrev <$> out))
         ++ bottom16).
Proof.
  intros Hobj Hs. set (out := sort_values src).
  assert (length out = length df) as Hlen.
  { unfold out. by rewrite sort_values_perm, (convert_yards_length df src). }
  exists out, (team_abbrev <$> head 16 out), (team_abbrev <$> tail 16 out).
  split; [by apply sorted_frame_Return|].
  split; [by rewrite (load_Return df src Hobj Hs)|].
  unfold head, tail. rewrite Hlen, !fmap_take, !fmap_drop.
  assert (length (team_abbrev <$> out) = length df) as Hkeys
    by by rewrite length_fmap.
  generalize dependent (team_abbrev <$> out). intros keys Hkeys.
  split_and!.
  - rewrite length_take. lia.
  - rewrite length_drop. lia.
  - intros Hn. split.
    + apply take_ge. lia.
    + replace (length df - 16)%nat with 0%nat by lia. done.
  - intros Hn. rewrite take_drop_commute.
    replace (length df - 16 + (32 - length df))%nat with 16%nat by lia.
    done.
  - intros Hn.
    rewrite <- (take_drop 16 keys) at 1. f_equal.
    rewrite <- (take_drop (length df - 32) (drop 16 keys)) at 1. f_equal.
    rewrite drop_drop. f_equal. lia.
Qed.

Lemma tiers_for_any_count_witness :
  ∃ out top16 bottom16,
    @sorted_frame SortKinds.stable_kind three_rows = Some (Return out) ∧
    @load_defense_rankings SortKinds.stable_kind three_rows
    = Some (Return (top16, bottom16)) ∧
    length top16 = 3%nat ∧ length bottom16 = 3%nat ∧
    top16 = team_abbrev <$> out ∧ bottom16 = team_abbrev <$> out.
Proof.
  destruct (tiers_for_any_count SortKinds.stable_kind three_rows _
              eq_refl eq_refl)
    as (out & top16 & bottom16 & Hout & Hload & Htop & Hbottom & Hfew & _).
  exists out, top16, bottom16.
  destruct Hfew as [? ?]; [cbn; lia|]. by split_and!.
Defined.

(** ** The order of the input *)

Lemma convert_yards_perm df df' src :
  df ≡ₚ df' → convert_yards df = Return src →
  ∃ src', convert_yards df' = Return src' ∧ src' ≡ₚ src.
Proof.
  intros Hperm. revert src.
  induction Hperm as [|x l l' _ IH|x y l|l l' l'' _ IH1 _ IH2]; intros src.
  - intros [= <-]. by exists [].
  - cbn [convert_yards]. destruct (yards_of x) as [v|]; [|done].
    destruct (convert_yards l) as [rs|]; [|done]. intros [= <-].
    destruct (IH rs eq_refl) as (rs' & -> & Hrs). eexists. split; [done|].
    by rewrite Hrs.
  - cbn [convert_yards]. destruct (yards_of y) as [vy|]; [|done].
    destruct (yards_of x) as [vx|]; [|done].
    destruct (convert_yards l) as [rs|]; [|done]. intros [= <-].
    eexists. split; [done|]. apply Permutation_swap.
  - intros Hs. destruct (IH1 src Hs) as (src1 & Hs1 & Hp1).
    destruct (IH2 src1 Hs1) as (src2 & Hs2 & Hp2).
    exists src2. split; [done|]. by rewrite Hp2.
Qed.

Lemma yards_dtype_perm df df' :
  df ≡ₚ df' → yards_dtype df = yards_dtype df'.
Proof.
  intros Hperm. unfold yards_dtype.
  assert (Exists (λ r, Py.has_char "," (Rushing_Yards r) = true) df ↔
          Exists (λ r, Py.has_char "," (Rushing_Yards r) = true) df') as Hex
    by by rewrite Hperm.
  assert (Forall (λ r, plain_int64 (Rushing_Yards r) = true) df ↔
          Forall (λ r, plain_int64 (Rushing_Yards r) = true) df') as Hall
    by by rewrite Hperm.
  destruct (decide (Exists _ df)), (decide (Exists _ df')); try tauto.
  destruct df as [|r df], df' as [|r' df']; [done|..].
  - by apply Permutation_nil_l in Hperm.
  - by apply Permutation_nil_r in Hperm.
  - destruct (decide (Forall _ (r :: df))), (decide (Forall _ (r' :: df')));
      tauto || done.
Qed.

(** X18: when no two teams have the same yards, the order of the rows in
    the input makes no difference, and neither does the sort that is
    used: any rearrangement of the rows gives the same two lists. *)
Theorem tiers_ignore_row_order (K K' : SortKind) (df df' : list def_row)
    (src : list ranked_row) :
  convert_yards df = Return src →
  NoDup (yards <$> src) →
  df ≡ₚ df' →
  @load_defense_rankings K df = @load_defense_rankings K' df'.
Proof.
  intros Hs Hnd Hperm.
  pose proof (yards_dtype_perm df df' Hperm) as Hdt.
  destruct (yards_dtype df) as [[|]|] eqn:Hdf; symmetry in Hdt.
  { by rewrite (load_int64 (H:=K) df Hdf), (load_int64 (H:=K') df' Hdt). }
  2: { unfold load_defense_rankings, sorted_frame. by rewrite Hdf, Hdt. }
  destruct (convert_yards_perm df df' src Hperm Hs) as (src' & Hs' & Hp).
  rewrite (load_Return (H:=K) df src Hdf Hs),
    (load_Return (H:=K') df' src' Hdt Hs').
  assert (@sort_values K src = @sort_values K' src') as ->; [|done].
  apply (Sorted_unique_strong yards_le).
  - intros x1 x2 H1 H2 H12 H21.
    rewrite sort_values_perm in H1. rewrite sort_values_perm, Hp in H2.
    apply (NoDup_fmap_eq yards src); [done..|]. unfold yards_le in *. lia.
  - apply sort_values_sorted.
  - apply sort_values_sorted.
  - by rewrite !sort_values_perm, Hp.
Qed.

Lemma tiers_ignore_row_order_witness :
  @load_defense_rankings SortKinds.stable_kind three_rows
  = @load_defense_rankings SortKinds.tie_reversing_kind (reverse three_rows).
Proof.
  apply (tiers_ignore_row_order _ _ three_rows (reverse three_rows) _ eq_refl).
  - compute_done.
  - by rewrite reverse_Permutation.
Defined.

End RankingMore.

(* ===================================================================== *)
(** * Further properties: the matchup tables                              *)
(* ===================================================================== *)

Module MatchupMore.
Import Compare.

(** The games of the frame against a tier: the opponent is resolved and
    is one of the tier's teams. *)
Definition faced (tier : list (option string)) (df_games : list game)
  : list game :=
  filter (λ g, is_Some (opponent_abbrev g) ∧ opponent_abbrev g ∈ tier)
    df_games.

(** The sum of a column of numbers. *)
Fixpoint total {A} (f : A → Z) (l : list A) : Z :=
  match l with
  | [] => 0
  | x :: rest => f x + total f rest
  end.

(** The totals of the rows of a result table, and of a list of games. *)
Definition totals_of_rows (rows : list matchup) : Z * Z * Z * Z * Z * Z :=
  (total (λ st, Z.of_nat (games_vs st)) rows,
   total rushing_yards_vs rows,
   total rushing_attempts_vs rows,
   total rushing_td_vs rows,
   total receiving_yards_vs rows,
   total receiving_receptions_vs rows).

Definition totals_of_games (games : list game) : Z * Z * Z * Z * Z * Z :=
  (Z.of_nat (length games),
   column_sum (rushing_yards <$> games),
   column_sum (rushing_attempts <$> games),
   column_sum (rushing_td <$> games),
   column_sum (receiving_yards <$> games),
   column_sum (receiving_receptions <$> games)).

(** The row of one player for one tier, as [player_stats] builds it. *)
Definition tier_row (df_games : list game) (tier : list (option string))
    (name : string) : option matchup :=
  let player_games :=
    filter (λ g, is_Some (opponent_abbrev g))
      (filter (λ g, player_name g = name) df_games) in
  tier_stats name (team <$> player_games !! 0%nat)
    (filter (λ g, opponent_abbrev g ∈ tier) player_games).

(** ** [Series.unique] *)

Lemma unique_elem_of x l : x ∈ unique l ↔ x ∈ l.
Proof.
  induction l as [|y l IH]; [done|]. cbn [unique].
  rewrite !elem_of_cons, list_elem_of_filter, IH.
  destruct (decide (x = y)); tauto.
Qed.

Lemma unique_NoDup l : NoDup (unique l).
Proof.
  induction l as [|y l IH]; [constructor|]. cbn [unique]. constructor.
  - rewrite list_elem_of_filter. by intros [? _].
  - by apply NoDup_filter.
Qed.

(** ** The loop as a map over the players *)

Lemma analyze_from df top bottom names rt rb :
  foldl
    (λ '(results_top, results_bottom) name,
       let '(stats_top, stats_bottom) := player_stats df top bottom name in
       (results_top ++ option_list stats_top,
        results_bottom ++ option_list stats_bottom))
    (rt, rb) names
  = (rt ++ omap (tier_row df top) names,
     rb ++ omap (tier_row df bottom) names).
Proof.
  revert rt rb. induction names as [|n names IH]; intros rt rb.
  - by rewrite !app_nil_r.
  - cbn [foldl omap list_omap].
    change (player_stats df top bottom n)
      with (tier_row df top n, tier_row df bottom n).
    cbv beta iota. rewrite IH.
    destruct (tier_row df top n), (tier_row df bottom n);
      cbn [option_list]; by rewrite <- ?app_assoc, ?app_nil_r.
Qed.

Lemma analyze_omap df top bottom :
  analyze_rb_vs_defenses df top bottom
  = (omap (tier_row df top) (unique (player_name <$> df)),
     omap (tier_row df bottom) (unique (player_name <$> df))).
Proof. unfold analyze_rb_vs_defenses. by rewrite analyze_from. Qed.

Lemma tier_games df tier name :
  filter (λ g, opponent_abbrev g ∈ tier)
    (filter (λ g, is_Some (opponent_abbrev g))
       (filter (λ g, player_name g = name) df))
  = filter (λ g, player_name g = name) (faced tier df).
Proof.
  unfold faced. rewrite !list_filter_filter.
  apply list_filter_iff. intros g. tauto.
Qed.

Lemma tier_row_Some df tier name st :
  tier_row df tier name = Some st →
  m_player_name st = name ∧
  games_vs st = length (filter (λ g, player_name g = name) (faced tier df)) ∧
  (1 ≤ games_vs st)%nat.
Proof.
  unfold tier_row. rewrite tier_games.
  destruct (filter _ (faced tier df)) as [|g gs]; [done|].
  intros [= <-]. cbn. split_and!; [done..|lia].
Qed.

Lemma tier_row_is_Some df tier name :
  is_Some (tier_row df tier name) ↔
  ∃ g, g ∈ df ∧ player_name g = name ∧
       is_Some (opponent_abbrev g) ∧ opponent_abbrev g ∈ tier.
Proof.
  unfold tier_row. rewrite tier_games. split.
  - destruct (filter _ (faced tier df)) as [|g gs] eqn:Hgs.
    { by intros [? ?]. }
    intros _. assert (g ∈ filter (λ g, player_name g = name) (faced tier df))
      as [Hn [Ht Hg]%list_elem_of_filter]%list_elem_of_filter
      by (rewrite Hgs; left).
    exists g. tauto.
  - intros (g & Hg & Hn & Hs & Ht).
    assert (g ∈ filter (λ g, player_name g = name) (faced tier df)) as Hin.
    { unfold faced. rewrite !list_elem_of_filter. tauto. }
    destruct (filter _ (faced tier df)); [by apply elem_of_nil in Hin|].
    by eexists.
Qed.

Lemma tier_rows_names df tier names :
  NoDup names → NoDup (m_player_name <$> omap (tier_row df tier) names).
Proof.
  induction 1 as [|n names Hn Hnd IH]; [constructor|].
  cbn [omap list_omap]. destruct (tier_row df tier n) as [st|] eqn:Hst; [|done].
  cbn [fmap list_fmap]. constructor; [|done].
  intros (st' & Hname & (n' & Hn' & Hst')%list_elem_of_omap)%list_elem_of_fmap.
  apply tier_row_Some in Hst as [Hst _]. apply tier_row_Some in Hst' as [Hst' _].
  congruence.
Qed.

(** What a tier's table is to the games of the frame: no player has two
    rows; a player has a row exactly when one of the player's games has a
    resolved opponent that is one of the tier's teams; and each row counts
    those games of its player, at least one. *)
Definition rows_per_player (df_games : list game)
    (tier : list (option string)) (rows : list matchup) : Prop :=
  NoDup (m_player_name <$> rows) ∧
  (∀ name, name ∈ m_player_name <$> rows ↔
           ∃ g, g ∈ df_games ∧ player_name g = name ∧
                is_Some (opponent_abbrev g) ∧ opponent_abbrev g ∈ tier) ∧
  (∀ st, st ∈ rows →
         (1 ≤ games_vs st)%nat ∧
         games_vs st
         = length (filter (λ g, player_name g = m_player_name st)
                     (faced tier df_games))).

Lemma tier_rows_per_player df tier :
  rows_per_player df tier
    (omap (tier_row df tier) (unique (player_name <$> df))).
Proof.
  split_and!.
  - apply tier_rows_names, unique_NoDup.
  - intros name. rewrite <- tier_row_is_Some. split.
    + intros (st & -> & (n & Hn & Hst)%list_elem_of_omap)%list_elem_of_fmap.
      pose proof (tier_row_Some _ _ _ _ Hst) as [-> _]. by eexists.
    + intros [st Hst]. apply list_elem_of_fmap. exists st.
      pose proof (tier_row_Some _ _ _ _ Hst) as [Hname _].
      split; [by rewrite Hname|].
      apply list_elem_of_omap. exists name. split; [|done].
      apply unique_elem_of.
      assert (is_Some (tier_row df tier name)) as
        (g & Hg & <- & _)%tier_row_is_Some by by eexists.
      apply list_elem_of_fmap. by exists g.
  - intros st (n & Hn & Hst)%list_elem_of_omap.
    apply tier_row_Some in Hst as (-> & -> & ?). done.
Qed.

(** X19: the result tables.  Each table has at most one row per player;
    a player has a row in a tier's table exactly when at least one of the
    player's games has a resolved opponent that is one of the tier's
    teams; and the row counts those games, so its count is never zero. *)
Theorem one_row_per_player_with_games (df_games : list game)
    (top16 bottom16 : list (option string)) :
  let results := analyze_rb_vs_defenses df_games top16 bottom16 in
  rows_per_player df_games top16 results.1 ∧
  rows_per_player df_games bottom16 results.2.
Proof.
  intros results. unfold results. rewrite analyze_omap.
  split; apply tier_rows_per_player.
Qed.

(** ** Totals *)

Lemma column_sum_total {A} (col : A → option Z) (l : list A) :
  column_sum (col <$> l) = total (λ x, default 0 (col x)) l.
Proof.
  induction l as [|x l IH]; [done|]. rewrite fmap_cons. cbn [total].
  rewrite <- IH. by destruct (col x).
Qed.

Lemma length_total {A} (l : list A) : Z.of_nat (length l) = total (λ _, 1) l.
Proof. induction l as [|x l IH]; [done|]. cbn [length total]. lia. Qed.

Section Totals.
Context {A : Type} (key : A → string) (w : A → Z).

Lemma total_one_key names (x : A) (l : list A) :
  NoDup names →
  total (λ n, total w (filter (λ y, key y = n) (x :: l))) names
  = (if decide (key x ∈ names) then w x else 0)
    + total (λ n, total w (filter (λ y, key y = n) l)) names.
Proof.
  induction 1 as [|n names Hn Hnd IH]; [done|]. cbn [total]. rewrite IH.
  rewrite (filter_cons _ x).
  destruct (decide (key x = n)) as [<-|Hne].
  - rewrite (decide_True (P:=key x ∈ key x :: names)) by left.
    rewrite (decide_False (P:=key x ∈ names)) by done.
    cbn [total]. lia.
  - destruct (decide (key x ∈ names)) as [Hin|Hout].
    + rewrite (decide_True (P:=key x ∈ n :: names)) by by right. lia.
    + rewrite (decide_False (P:=key x ∈ n :: names)); [lia|].
      by intros [?|?]%elem_of_cons.
Qed.

Lemma total_by_key names (l : list A) :
  NoDup names → (∀ x, x ∈ l → key x ∈ names) →
  total (λ n, total w (filter (λ y, key y = n) l)) names = total w l.
Proof.
  intros Hnd. induction l as [|x l IH]; intros Hl.
  - clear. induction names as [|n names IH]; [done|]. cbn [total]. by rewrite IH.
  - rewrite total_one_key by done. rewrite decide_True by (apply Hl; left).
    cbn [total]. rewrite IH; [done|]. intros y Hy. apply Hl. by right.
Qed.
End Totals.

Lemma total_rows df tier (f : matchup → Z) (w : game → Z) names :
  (∀ n st, tier_row df tier n = Some st →
           f st = total w (filter (λ g, player_name g = n) (faced tier df))) →
  total f (omap (tier_row df tier) names)
  = total (λ n, total w (filter (λ g, player_name g = n) (faced tier df)))
      names.
Proof.
  intros Hf. induction names as [|n names IH]; [done|].
  cbn [omap list_omap total].
  destruct (tier_row df tier n) as [st|] eqn:Hst.
  - cbn [total]. by rewrite IH, (Hf n st Hst).
  - rewrite IH. unfold tier_row in Hst. rewrite tier_games in Hst.
    destruct (filter _ (faced tier df)); [done|discriminate].
Qed.

Lemma tier_totals df tier :
  totals_of_rows (omap (tier_row df tier) (unique (player_name <$> df)))
  = totals_of_games (faced tier df).
Proof.
  assert (∀ x, x ∈ faced tier df →
               player_name x ∈ unique (player_name <$> df)) as Hkeys.
  { intros x [_ Hx]%list_elem_of_filter. apply unique_elem_of.
    apply list_elem_of_fmap. by exists x. }
  pose proof (unique_NoDup (player_name <$> df)) as Hnd.
  unfold totals_of_rows, totals_of_games.
  rewrite length_total, !column_sum_total.
  repeat f_equal.
  all: rewrite <- (total_by_key player_name _ _ _ Hnd Hkeys).
  all: apply total_rows; intros n st Hst; unfold tier_row in Hst.
  all: rewrite tier_games in Hst.
  all: destruct (filter _ (faced tier df)) as [|g gs] eqn:Hgs; [done|].
  all: apply (inj Some) in Hst; rewrite <- Hst.
  all: cbn [games_vs rushing_yards_vs rushing_attempts_vs rushing_td_vs
            receiving_yards_vs receiving_receptions_vs].
  all: by rewrite ?length_total, ?column_sum_total.
Qed.

(** X20: nothing is lost and nothing is counted twice.  Over the rows of
    a tier's table, the game counts add up to the number of games of the
    frame whose resolved opponent is in the tier, and each summed column
    adds up to the sum of that column over those games. *)
Theorem tier_totals_conserved (df_games : list game)
    (top16 bottom16 : list (option string)) :
  let results := analyze_rb_vs_defenses df_games top16 bottom16 in
  totals_of_rows results.1 = totals_of_games (faced top16 df_games) ∧
  totals_of_rows results.2 = totals_of_games (faced bottom16 df_games).
Proof.
  intros results. unfold results. rewrite analyze_omap.
  split; apply tier_totals.
Qed.

End MatchupMore.

(* ===================================================================== *)
(** * Further properties: the defense frame                               *)
(* ===================================================================== *)

Module DefenseFacts.
Import Defense.

(** The value of the last of the named values whose name is [name], and
    [d] when there is none. *)
Definition pick (name : string) (d : json) (named : list (json * json))
  : json :=
  default d (snd <$> last (filter (λ nv, is_name nv.1 name) named)).

Definition last_named (name : string) (named : list (json * json)) : json :=
  pick name JNull named.

(** A stat has the name and, where the loop reads it, the value of a
    named value. *)
Definition stat_of (stat : json) (nv : json * json) : Prop :=
  subscript stat "name" = Some nv.1 ∧
  (is_name nv.1 "rushingYards" || is_name nv.1 "rushingYardsPerGame" →
   subscript stat "value" = Some nv.2).

Lemma pick_cons name d nv named :
  pick name d (nv :: named)
  = pick name (if is_name nv.1 name then nv.2 else d) named.
Proof.
  unfold pick. rewrite filter_cons.
  destruct (is_name nv.1 name) eqn:Hname.
  - rewrite decide_True by done. rewrite last_cons.
    by destruct (last (filter _ named)).
  - by case_decide.
Qed.

Lemma is_name_one v :
  is_name v "rushingYards" = true → is_name v "rushingYardsPerGame" = false.
Proof.
  destruct v as [| | | |s| |]; try done. cbn [is_name].
  intros ->%String.eqb_eq. reflexivity.
Qed.

Lemma stat_step_named acc stat nv :
  stat_of stat nv →
  stat_step acc stat
  = Some (if is_name nv.1 "rushingYards" then nv.2 else acc.1,
          if is_name nv.1 "rushingYardsPerGame" then nv.2 else acc.2).
Proof.
  intros [Hname Hvalue]. destruct acc as [yds ypg]. unfold stat_step.
  rewrite Hname. cbn [mbind option_bind fst snd].
  destruct (is_name nv.1 "rushingYards") eqn:Hyds.
  - rewrite (is_name_one _ Hyds), Hvalue by done. done.
  - destruct (is_name nv.1 "rushingYardsPerGame") eqn:Hypg; [|done].
    rewrite Hvalue by done. done.
Qed.

Lemma stat_loop_named acc stats named :
  Forall2 stat_of stats named →
  stat_loop acc stats
  = Some (pick "rushingYards" acc.1 named,
          pick "rushingYardsPerGame" acc.2 named).
Proof.
  intros Hstats. revert acc.
  induction Hstats as [|stat nv stats named Hstat _ IH]; intros acc.
  - by destruct acc.
  - cbn [stat_loop]. rewrite (stat_step_named acc stat nv Hstat).
    cbn [mbind option_bind]. rewrite IH, !pick_cons. done.
Qed.

(** X21: the row of a team.  For a team entry whose [team] has a
    [displayName] and whose [stats] is a list of stats that each have a
    name, and a value where the name is one of the two the loop looks
    for, the row holds the display name and, for each of the two
    columns, the value of the last stat with that name; the text "N/A"
    stands in when there is no such stat and when that value is false in
    Python's sense (zero, the empty text, null). *)
Theorem row_takes_last_stat (team_data team team_name : json)
    (stats : list json) (named : list (json * json)) :
  subscript team_data "team" = Some team →
  subscript team "displayName" = Some team_name →
  subscript team_data "stats" = Some (JArr stats) →
  Forall2 stat_of stats named →
  team_row team_data
  = Some (Row team_name
            (or_na (last_named "rushingYards" named))
            (or_na (last_named "rushingYardsPerGame" named))).
Proof.
  intros Hteam Hname Hstats Hnamed. unfold team_row.
  rewrite Hteam. cbn [mbind option_bind]. rewrite Hname, Hstats.
  cbn [mbind option_bind iterate].
  by rewrite (stat_loop_named _ stats named Hnamed).
Qed.

Definition stat (name : string) (value : json) : json :=
  JObj [("name", JStr name); ("displayValue", JStr "-"); ("value", value)].

Definition bills : json :=
  JObj [ ("team", JObj [("id", JStr "2"); ("displayName", JStr "Buffalo Bills")]);
         ("stats",
          JArr [ stat "rushingYards" (JStr "1,100");
                 JObj [("name", JStr "sacks")];
                 stat "rushingYardsPerGame" (JInt 0);
                 stat "rushingYards" (JStr "1,234") ]) ].

Lemma row_takes_last_stat_witness :
  team_row bills
  = Some (Row (JStr "Buffalo Bills") (JStr "1,234") (JStr "N/A")).
Proof.
  apply (row_takes_last_stat bills
           (JObj [("id", JStr "2"); ("displayName", JStr "Buffalo Bills")])
           (JStr "Buffalo Bills")
           [ stat "rushingYards" (JStr "1,100");
             JObj [("name", JStr "sacks")];
             stat "rushingYardsPerGame" (JInt 0);
             stat "rushingYards" (JStr "1,234") ]
           [ (JStr "rushingYards", JStr "1,100"); (JStr "sacks", JNull);
             (JStr "rushingYardsPerGame", JInt 0);
             (JStr "rushingYards", JStr "1,234") ]).
  - reflexivity.
  - reflexivity.
  - reflexivity.
  - repeat constructor; by intros [].
Defined.

(** ** Entries that do not have the expected shape *)

Lemma team_rows_None team_stats :
  team_rows team_stats = None ↔ ∃ t, t ∈ team_stats ∧ team_row t = None.
Proof.
  induction team_stats as [|t ts IH]; cbn [team_rows].
  - split; [done|]. by intros (t & ?%elem_of_nil & _).
  - destruct (team_row t) as [r|] eqn:Hr; cbn [mbind option_bind].
    + destruct (team_rows ts) as [rs|]; cbn [mbind option_bind].
      * split; [done|]. intros (t' & [->|Hin]%elem_of_cons & Hn); [congruence|].
        destruct IH as [_ IH]. discriminate IH. by exists t'.
      * split; [|done]. intros _. destruct IH as [IH _].
        destruct (IH eq_refl) as (t' & Hin & Hn). exists t'. split; [by right|done].
    + split; [|done]. intros _. exists t. split; [left|done].
Qed.

Lemma team_rows_Some team_stats rows :
  team_rows team_stats = Some rows →
  Forall2 (λ t r, team_row t = Some r) team_stats rows.
Proof.
  revert rows. induction team_stats as [|t ts IH]; intros rows; cbn [team_rows].
  - intros [= <-]. constructor.
  - destruct (team_row t) as [r|] eqn:Hr; [|done]. cbn [mbind option_bind].
    destruct (team_rows ts) as [rs|]; [|done]. intros [= <-].
    constructor; [done|]. by apply IH.
Qed.

(** X22: all or nothing.  The frame has one row per team entry, in the
    order of the entries; and one entry that makes the loop raise voids
    the whole frame, whatever the other entries hold.  An entry that is
    not an object, or has no [team] or no [stats] member, a [team] with
    no [displayName], a [stats] that is a number, and a stat named
    [rushingYards] with no [value] are such entries. *)
Theorem frame_is_all_or_nothing (team_stats : list json) :
  (scrape_espn_defense_stats (Page (Some team_stats)) = None ↔
   ∃ t, t ∈ team_stats ∧ team_row t = None) ∧
  (∀ rows, scrape_espn_defense_stats (Page (Some team_stats)) = Some rows →
           Forall2 (λ t r, team_row t = Some r) team_stats rows) ∧
  (∀ t, t ∈ team_stats →
        subscript t "team" = None ∨
        subscript t "team" ≫= (λ team, subscript team "displayName") = None ∨
        subscript t "stats" = None ∨
        subscript t "stats" ≫= iterate = None ∨
        (∃ stats stat, subscript t "stats" = Some (JArr (stat :: stats)) ∧
                       subscript stat "name" = Some (JStr "rushingYards") ∧
                       subscript stat "value" = None) →
        scrape_espn_defense_stats (Page (Some team_stats)) = None).
Proof.
  cbn [scrape_espn_defense_stats]. split_and!.
  - apply team_rows_None.
  - apply team_rows_Some.
  - intros t Hin Hbad. apply team_rows_None. exists t. split; [done|].
    unfold team_row.
    destruct (subscript t "team") as [team|]; [|done].
    cbn [mbind option_bind] in *.
    destruct (subscript team "displayName") as [name|]; [|done].
    destruct (subscript t "stats") as [stats_value|]; [|done].
    cbn [mbind option_bind] in *.
    destruct Hbad as [?|[?|[?|[Hiter|(stats & st & Hstats & Hname & Hvalue)]]]];
      [done|done|done| |].
    + by rewrite Hiter.
    + apply (inj Some) in Hstats as ->. cbn [iterate mbind option_bind stat_loop].
      unfold stat_step. rewrite Hname. cbn [mbind option_bind is_name].
      change ("rushingYards" =? "rushingYards")%string with true.
      cbv iota. by rewrite Hvalue.
Qed.

Lemma frame_is_all_or_nothing_witness :
  scrape_espn_defense_stats
    (Page (Some [bills; JObj [("team", JNull); ("stats", JArr [])]]))
  = None.
Proof.
  destruct (frame_is_all_or_nothing
              [bills; JObj [("team", JNull); ("stats", JArr [])]])
    as (_ & _ & Hbad).
  apply (Hbad (JObj [("team", JNull); ("stats", JArr [])])).
  - right. left.
  - right. left. reflexivity.
Defined.

End DefenseFacts.

(* ===================================================================== *)
(** * Further properties: the team abbreviations                          *)
(* ===================================================================== *)

Module TeamTableFacts.
Import Compare.

(** The abbreviations that the team table of the comparison maps to. *)
Definition table_abbrevs : list string :=
  (map_to_list TEAM_NAME_TO_ABBREV).*2.

(** An opponent cell that names the team [k]: the abbreviation in upper
    case, bare or after one of the two markers. *)
Definition resolves (k : string) : Prop :=
  normalize_opponent_abbrev (Py.VStr ("@" +:+ Py.upper k)) = Some k ∧
  normalize_opponent_abbrev (Py.VStr ("vs" +:+ Py.upper k)) = Some k ∧
  normalize_opponent_abbrev (Py.VStr (Py.upper k)) = Some k.

Lemma table_abbrevs_elem_of k :
  k ∈ table_abbrevs ↔ ∃ name, TEAM_NAME_TO_ABBREV !! name = Some k.
Proof.
  unfold table_abbrevs. rewrite list_elem_of_fmap. split.
  - intros ([name k'] & -> & Hin%elem_of_map_to_list). by exists name.
  - intros [name Hin]. exists (name, k). split; [done|].
    by apply elem_of_map_to_list.
Qed.

Lemma roster_teams_in_table :
  Forall (λ k, k ∈ table_abbrevs ∧ resolves k) Roster.TEAM_ABBREVS.
Proof.
  unfold resolves. apply (bool_decide_unpack _). vm_compute. exact I.
Qed.

Lemma table_in_roster_teams :
  Forall (λ k, k ∈ Roster.TEAM_ABBREVS) table_abbrevs.
Proof. apply (bool_decide_unpack _). vm_compute. exact I. Qed.

(** X23: the two scripts name the teams alike.  The abbreviations that
    the comparison's team table maps to are those of the roster scraper's
    team list, and each of them is what the normaliser returns for the
    opponent cell that names the team: the abbreviation in upper case,
    bare, after "@" or after "vs". *)
Theorem team_abbrevs_agree :
  (∀ k, k ∈ Roster.TEAM_ABBREVS ↔
        ∃ name, TEAM_NAME_TO_ABBREV !! name = Some k) ∧
  (∀ k, k ∈ Roster.TEAM_ABBREVS → resolves k).
Proof.
  split.
  - intros k. rewrite <- table_abbrevs_elem_of. split.
    + intros Hk.
      by apply (proj1 (Forall_forall _ _) roster_teams_in_table k Hk).
    + apply (proj1 (Forall_forall _ _) table_in_roster_teams k).
  - intros k Hk.
    by apply (proj1 (Forall_forall _ _) roster_teams_in_table k Hk).
Qed.

Lemma team_abbrevs_agree_witness :
  (∃ name, TEAM_NAME_TO_ABBREV !! name = Some "kc") ∧ resolves "kc".
Proof.
  destruct team_abbrevs_agree as [Hname Hresolves].
  assert ("kc" ∈ Roster.TEAM_ABBREVS) as Hkc
    by (apply (bool_decide_unpack _); vm_compute; exact I).
  split; [by apply Hname|by apply Hresolves].
Defined.

End TeamTableFacts.

(* ===================================================================== *)
(** * Further properties: the shape of a resolved opponent                *)
(* ===================================================================== *)

Module OpponentMore.
Import Compare PyLemmas.

Lemma chars_delete_from old skip s c :
  c ∈ chars (Py.delete_from old skip s) → c ∈ chars s.
Proof.
  revert skip. induction s as [|d r IH]; intros skip; [done|].
  change (chars (String d r)) with (d :: chars r).
  cbn [Py.delete_from]. destruct skip as [|k].
  - destruct (Py.starts_with old (String d r)).
    + intros Hc%IH. by right.
    + change (chars (String d ?x)) with (d :: chars x).
      intros [->|Hc%IH]%elem_of_cons; [left|by right].
  - intros Hc%IH. by right.
Qed.

Lemma lower_char_not_upper c : Py.is_upper (Py.lower_char c) = false.
Proof. by destruct c as [[] [] [] [] [] [] [] []]. Qed.

Lemma lower_char_at c : Py.lower_char c = "@"%char → c = "@"%char.
Proof. by destruct c as [[] [] [] [] [] [] [] []]. Qed.

Lemma length_chars s : length (chars s) = String.length s.
Proof. induction s as [|c r IH]; [done|]. cbn. by rewrite <- IH. Qed.

(** X24: what a resolved opponent looks like.  Whatever the cell, an
    abbreviation that the normaliser returns has at most three
    characters, none of them a capital letter or an "@". *)
Theorem resolved_opponent_shape (opp_string : Py.value) (opp : string) :
  normalize_opponent_abbrev opp_string = Some opp →
  (length (chars opp) ≤ 3)%nat ∧
  Forall (λ c, Py.is_upper c = false ∧ c ≠ "@"%char) (chars opp).
Proof.
  unfold normalize_opponent_abbrev.
  destruct (negb (Py.value_truthy opp_string) || negb (Py.is_str opp_string));
    [done|].
  destruct opp_string as [s| | | |]; try done.
  destruct (3 <? String.length _)%nat eqn:Hlen; [done|]. intros [= <-].
  split.
  - rewrite length_chars. by apply Nat.ltb_ge.
  - apply Forall_forall. intros c Hc%chars_strip.
    unfold Py.lower in Hc. rewrite chars_map_chars in Hc.
    apply list_elem_of_fmap in Hc as (c' & -> & Hc'). split.
    + apply lower_char_not_upper.
    + intros ->%lower_char_at. apply chars_delete_from in Hc'.
      change (Py.delete_from "@" 0 s) with (Py.remove_all "@" s) in Hc'.
      rewrite chars_remove_char in Hc'.
      by apply list_elem_of_filter in Hc' as [? _].
Qed.

Lemma resolved_opponent_shape_witness :
  (length (chars "sea") ≤ 3)%nat ∧
  Forall (λ c, Py.is_upper c = false ∧ c ≠ "@"%char) (chars "sea").
Proof.
  apply (resolved_opponent_shape (Py.VStr " @ SeA")). reflexivity.
Defined.

End OpponentMore.
